(** * Real-Time-Analytics: the aggregation engine and the batch ingress handler

    A shallow embedding of [internal/aggregation/metrics.go],
    [internal/aggregation/aggregator.go] and of the batch handler of
    [internal/server/server.go], and the properties of their specification.

    Conventions of the embedding.
    - A Go pointer ([*Metric], [*MetricsSnapshot], [*TimeWindow],
      [*WindowManager]) is a location in a typed store; two pointers are the
      same object exactly when the locations are equal.  Dereferencing a
      location that is not in the store is a panic, as a nil dereference is.
    - [time.Time] is the number of nanoseconds since the zero time, an
      unbounded integer; [time.Duration] and [int64] are integers with their
      64-bit wrap-around or saturation written out where the code computes
      with them.
    - [float64] is the primitive binary64 type.
    - [time.Now()] reads the next value of a clock oracle held in the world.
    - Mutexes are not modelled: every method body runs as one atomic step.
      Calls to the logger only write log lines and are left out. *)

From Stdlib Require Import ZArith Floats Uint63 Lia.
From stdpp Require Import gmap strings list fin_maps pretty.

Local Open Scope Z_scope.

(** ** Machine integers and instants *)

Abbreviation loc := nat (only parsing).
Abbreviation Time := Z (only parsing).
Abbreviation Duration := Z (only parsing).

Definition int64 (z : Z) : Z := (z + 2 ^ 63) mod 2 ^ 64 - 2 ^ 63.

Definition maxDuration : Z := 2 ^ 63 - 1.
Definition minDuration : Z := - 2 ^ 63.

Definition Second : Duration := 1000000000.
Definition Minute : Duration := 60 * Second.

(** [float64(n)] for an [int64] [n]. *)
Definition float64_of_int64 (z : Z) : float :=
  if z =? - 2 ^ 63 then (-9223372036854775808)%float
  else if z <? 0 then PrimFloat.opp (of_uint63 (Uint63.of_Z (- z)))
  else of_uint63 (Uint63.of_Z z).

Definition Before (t u : Time) : bool := t <? u.
Definition After (t u : Time) : bool := u <? t.
Definition Equal (t u : Time) : bool := t =? u.
Definition IsZero (t : Time) : bool := t =? 0.
Definition Add (t : Time) (d : Duration) : Time := t + d.

(** [t.Sub(u)] saturates at the bounds of [Duration]. *)
Definition Sub (t u : Time) : Duration :=
  Z.max minDuration (Z.min maxDuration (t - u)).

(** [t.Truncate(d)] rounds [t] down to a multiple of [d] since the zero
    time, and returns [t] unchanged when [d <= 0]. *)
Definition Truncate (t : Time) (d : Duration) : Time :=
  if d <=? 0 then t else t - t mod d.

(** ** Metrics *)

Abbreviation MetricType := string (only parsing).

Definition MetricTypeCounter : MetricType := "counter".
Definition MetricTypeGauge : MetricType := "gauge".
Definition MetricTypeHistogram : MetricType := "histogram".
Definition MetricTypeSet : MetricType := "set".

Record Metric := mkMetric {
  Name : string;
  Type_ : MetricType;
  Value : float;
  Count : Z;
  Timestamp : Time;
  Tags : gmap string string;
  Values : list float;
  UniqueSet : gset string
}.

Record MetricsSnapshot := mkMetricsSnapshot {
  Metrics : gmap string loc;
  ms_Timestamp : Time
}.

Record TimeWindow := mkTimeWindow {
  StartTime : Time;
  EndTime : Time;
  tw_Duration : Duration;
  tw_Metrics : loc;
  Closed : bool
}.

Record WindowManager := mkWindowManager {
  Windows : list loc;
  duration : Duration
}.

(** ** The world: the four stores, the clock, and what lies outside *)

Record World := mkWorld {
  metrics : gmap loc Metric;
  snapshots : gmap loc MetricsSnapshot;
  windows : gmap loc TimeWindow;
  managers : gmap loc WindowManager;
  clock : nat -> Time;
  reads : nat;
  external : list loc
}.

Definition set_metrics (h : gmap loc Metric) (w : World) : World :=
  mkWorld h (snapshots w) (windows w) (managers w) (clock w) (reads w) (external w).
Definition set_snapshots (h : gmap loc MetricsSnapshot) (w : World) : World :=
  mkWorld (metrics w) h (windows w) (managers w) (clock w) (reads w) (external w).
Definition set_windows (h : gmap loc TimeWindow) (w : World) : World :=
  mkWorld (metrics w) (snapshots w) h (managers w) (clock w) (reads w) (external w).
Definition set_managers (h : gmap loc WindowManager) (w : World) : World :=
  mkWorld (metrics w) (snapshots w) (windows w) h (clock w) (reads w) (external w).
Definition set_reads (n : nat) (w : World) : World :=
  mkWorld (metrics w) (snapshots w) (windows w) (managers w) (clock w) n (external w).
Definition set_external (e : list loc) (w : World) : World :=
  mkWorld (metrics w) (snapshots w) (windows w) (managers w) (clock w) (reads w) e.

(** ** Computations that may panic *)

Inductive outcome (A : Type) : Type :=
| Ok (a : A) (w : World)
| Panic (w : World).
Arguments Ok {A} a w.
Arguments Panic {A} w.

Definition M (A : Type) : Type := World -> outcome A.

Definition ret {A} (a : A) : M A := fun w => Ok a w.
Definition bind {A B} (m : M A) (k : A -> M B) : M B :=
  fun w => match m w with
           | Ok a w' => k a w'
           | Panic w' => Panic w'
           end.
Definition panic {A} : M A := fun w => Panic w.

Notation "x <- m ;; k" := (bind m (fun x => k))
  (at level 100, m at next level, right associativity).
Notation "m ;;; k" := (bind m (fun _ => k))
  (at level 100, right associativity).

(** [for _, x := range xs { body x }] *)
Fixpoint forEach {A} (xs : list A) (body : A -> M unit) : M unit :=
  match xs with
  | [] => ret tt
  | x :: xs' => body x ;;; forEach xs' body
  end.

Definition timeNow : M Time :=
  fun w => Ok (clock w (reads w)) (set_reads (S (reads w)) w).

Definition load_metric (l : loc) : M Metric :=
  fun w => match metrics w !! l with Some m => Ok m w | None => Panic w end.
Definition store_metric (l : loc) (m : Metric) : M unit :=
  fun w => Ok tt (set_metrics (<[l := m]> (metrics w)) w).
Definition alloc_metric (m : Metric) : M loc :=
  fun w => let l := fresh (dom (metrics w)) in
           Ok l (set_metrics (<[l := m]> (metrics w)) w).

Definition load_snapshot (l : loc) : M MetricsSnapshot :=
  fun w => match snapshots w !! l with Some m => Ok m w | None => Panic w end.
Definition store_snapshot (l : loc) (m : MetricsSnapshot) : M unit :=
  fun w => Ok tt (set_snapshots (<[l := m]> (snapshots w)) w).
Definition alloc_snapshot (m : MetricsSnapshot) : M loc :=
  fun w => let l := fresh (dom (snapshots w)) in
           Ok l (set_snapshots (<[l := m]> (snapshots w)) w).

Definition load_window (l : loc) : M TimeWindow :=
  fun w => match windows w !! l with Some m => Ok m w | None => Panic w end.
Definition store_window (l : loc) (m : TimeWindow) : M unit :=
  fun w => Ok tt (set_windows (<[l := m]> (windows w)) w).
Definition alloc_window (m : TimeWindow) : M loc :=
  fun w => let l := fresh (dom (windows w)) in
           Ok l (set_windows (<[l := m]> (windows w)) w).

Definition load_manager (l : loc) : M WindowManager :=
  fun w => match managers w !! l with Some m => Ok m w | None => Panic w end.
Definition store_manager (l : loc) (m : WindowManager) : M unit :=
  fun w => Ok tt (set_managers (<[l := m]> (managers w)) w).
Definition alloc_manager (m : WindowManager) : M loc :=
  fun w => let l := fresh (dom (managers w)) in
           Ok l (set_managers (<[l := m]> (managers w)) w).

(** ** metrics.go: Metric *)

Definition NewMetric (name : string) (metricType : MetricType) : M loc :=
  now <- timeNow ;;
  alloc_metric (mkMetric name metricType 0%float 0 now ∅ [] ∅).

Definition Increment (m : loc) : M unit :=
  o <- load_metric m ;;
  now <- timeNow ;;
  store_metric m
    (mkMetric (Name o) (Type_ o) (PrimFloat.add (Value o) 1%float)
       (int64 (Count o + 1)) now (Tags o) (Values o) (UniqueSet o)).

Definition IncrementBy (m : loc) (value : float) : M unit :=
  o <- load_metric m ;;
  now <- timeNow ;;
  store_metric m
    (mkMetric (Name o) (Type_ o) (PrimFloat.add (Value o) value)
       (int64 (Count o + 1)) now (Tags o) (Values o) (UniqueSet o)).

Definition Set_ (m : loc) (value : float) : M unit :=
  o <- load_metric m ;;
  now <- timeNow ;;
  store_metric m
    (mkMetric (Name o) (Type_ o) value (Count o) now (Tags o) (Values o)
       (UniqueSet o)).

Definition Observe (m : loc) (value : float) : M unit :=
  o <- load_metric m ;;
  now <- timeNow ;;
  store_metric m
    (mkMetric (Name o) (Type_ o) (PrimFloat.add (Value o) value)
       (int64 (Count o + 1)) now (Tags o) (Values o ++ [value]) (UniqueSet o)).

(** [len] of a map is a non-negative [int], so [int64(len(..))] is exact. *)
Definition AddUnique (m : loc) (value : string) : M unit :=
  o <- load_metric m ;;
  now <- timeNow ;;
  let set' := {[ value ]} ∪ UniqueSet o in
  store_metric m
    (mkMetric (Name o) (Type_ o) (Value o) (Z.of_nat (size set')) now
       (Tags o) (Values o) set').

Definition Average (m : loc) : M float :=
  o <- load_metric m ;;
  if Count o =? 0 then ret 0%float
  else ret (PrimFloat.div (Value o) (float64_of_int64 (Count o))).

(** ** metrics.go: MetricsSnapshot *)

Definition NewMetricsSnapshot : M loc :=
  now <- timeNow ;;
  alloc_snapshot (mkMetricsSnapshot ∅ now).

Definition GetMetric (ms : loc) (name : string) (metricType : MetricType) : M loc :=
  s <- load_snapshot ms ;;
  match Metrics s !! name with
  | Some metric => ret metric
  | None =>
      metric <- NewMetric name metricType ;;
      store_snapshot ms (mkMetricsSnapshot (<[name := metric]> (Metrics s)) (ms_Timestamp s)) ;;;
      ret metric
  end.

Definition GetMetricValue (ms : loc) (name : string) : M (float * bool) :=
  s <- load_snapshot ms ;;
  match Metrics s !! name with
  | Some metric => o <- load_metric metric ;; ret (Value o, true)
  | None => ret (0%float, false)
  end.

Definition GetAllMetrics (ms : loc) : M (gmap string loc) :=
  s <- load_snapshot ms ;;
  ret (Metrics s).

Definition Reset_snapshot (ms : loc) : M unit :=
  _s <- load_snapshot ms ;;
  now <- timeNow ;;
  store_snapshot ms (mkMetricsSnapshot ∅ now).

(** ** metrics.go: TimeWindow *)

Definition NewTimeWindow (startTime : Time) (d : Duration) : M loc :=
  ms <- NewMetricsSnapshot ;;
  alloc_window (mkTimeWindow startTime (Add startTime d) d ms false).

Definition IsActive (tw : TimeWindow) (t : Time) : bool :=
  negb (Closed tw) && Before t (EndTime tw).

Definition ShouldClose (tw : TimeWindow) (t : Time) : bool :=
  negb (Closed tw) && After t (EndTime tw).

Definition Close (tw : loc) : M unit :=
  o <- load_window tw ;;
  store_window tw
    (mkTimeWindow (StartTime o) (EndTime o) (tw_Duration o) (tw_Metrics o) true).

(** ** metrics.go: WindowManager *)

Definition NewWindowManager (d : Duration) : M loc :=
  alloc_manager (mkWindowManager [] d).

(** The search loop of [GetOrCreateWindow]: the first window of the list
    with the wanted start that is not closed. *)
Fixpoint findWindow (ws : list loc) (windowStart : Time) : M (option loc) :=
  match ws with
  | [] => ret None
  | window :: rest =>
      o <- load_window window ;;
      if Equal (StartTime o) windowStart && negb (Closed o)
      then ret (Some window)
      else findWindow rest windowStart
  end.

Definition GetOrCreateWindow (wm : loc) (t : Time) : M loc :=
  m <- load_manager wm ;;
  let windowStart := Truncate t (duration m) in
  found <- findWindow (Windows m) windowStart ;;
  match found with
  | Some window => ret window
  | None =>
      window <- NewTimeWindow windowStart (duration m) ;;
      store_manager wm (mkWindowManager (Windows m ++ [window]) (duration m)) ;;;
      ret window
  end.

Fixpoint closeLoop (ws : list loc) (t : Time) (closedWindows : list loc)
  : M (list loc) :=
  match ws with
  | [] => ret closedWindows
  | window :: rest =>
      o <- load_window window ;;
      if ShouldClose o t
      then Close window ;;; closeLoop rest t (closedWindows ++ [window])
      else closeLoop rest t closedWindows
  end.

Definition CloseExpiredWindows (wm : loc) (t : Time) : M (list loc) :=
  m <- load_manager wm ;;
  closeLoop (Windows m) t [].

Fixpoint cleanupLoop (ws : list loc) (now : Time) (keepDuration : Duration)
    (activeWindows : list loc) : M (list loc) :=
  match ws with
  | [] => ret activeWindows
  | window :: rest =>
      o <- load_window window ;;
      if negb (Closed o) || (Sub now (EndTime o) <? keepDuration)
      then cleanupLoop rest now keepDuration (activeWindows ++ [window])
      else cleanupLoop rest now keepDuration activeWindows
  end.

Definition Cleanup (wm : loc) (keepDuration : Duration) : M unit :=
  m <- load_manager wm ;;
  now <- timeNow ;;
  activeWindows <- cleanupLoop (Windows m) now keepDuration [] ;;
  store_manager wm (mkWindowManager activeWindows (duration m)).

Fixpoint activeLoop (ws : list loc) (active : list loc) : M (list loc) :=
  match ws with
  | [] => ret active
  | window :: rest =>
      o <- load_window window ;;
      if negb (Closed o) then activeLoop rest (active ++ [window])
      else activeLoop rest active
  end.

Definition GetActiveWindows (wm : loc) : M (list loc) :=
  m <- load_manager wm ;;
  activeLoop (Windows m) [].

(** ** aggregator.go *)

(** A decoded JSON value held in [map[string]interface{}]: only the dynamic
    type matters to the type assertions of the aggregator. *)
Inductive dyn : Type :=
| DNil
| DBool (b : bool)
| DFloat64 (f : float)
| DString (s : string)
| DOther.

Record Event := mkEvent {
  ID : string;
  ev_Type : string;
  ev_Timestamp : Time;
  UserID : string;
  SessionID : string;
  Properties : gmap string dyn
}.

(** [v, ok := m[key].(string)] and [v, ok := m[key].(float64)] *)
Definition assertString (v : option dyn) : option string :=
  match v with Some (DString s) => Some s | _ => None end.
Definition assertFloat64 (v : option dyn) : option float :=
  match v with Some (DFloat64 f) => Some f | _ => None end.

Record Aggregator := mkAggregator {
  globalMetrics : loc;
  windowManager : loc;
  windowDuration : Duration;
  flushInterval : Duration;
  onWindowClosed : option (loc -> M unit)
}.

Definition NewAggregator (windowDuration flushInterval : Duration) : M Aggregator :=
  gm <- NewMetricsSnapshot ;;
  wm <- NewWindowManager windowDuration ;;
  ret (mkAggregator gm wm windowDuration flushInterval None).

Definition SetWindowClosedCallback (a : Aggregator) (callback : loc -> M unit)
  : Aggregator :=
  mkAggregator (globalMetrics a) (windowManager a) (windowDuration a)
    (flushInterval a) (Some callback).

Definition processPageviewMetrics (a : Aggregator) (event : Event) : M unit :=
  pageviews <- GetMetric (globalMetrics a) "pageviews" MetricTypeCounter ;;
  Increment pageviews ;;;
  match assertString (Properties event !! "page") with
  | Some page =>
      uniquePages <- GetMetric (globalMetrics a) "unique_pages" MetricTypeSet ;;
      AddUnique uniquePages page ;;;
      let pageKey := "page_views:" +:+ page in
      pageMetric <- GetMetric (globalMetrics a) pageKey MetricTypeCounter ;;
      Increment pageMetric
  | None => ret tt
  end.

Definition processClickMetrics (a : Aggregator) (event : Event) : M unit :=
  clicks <- GetMetric (globalMetrics a) "clicks" MetricTypeCounter ;;
  Increment clicks ;;;
  match assertString (Properties event !! "element") with
  | Some element =>
      let elementKey := "clicks:" +:+ element in
      elementMetric <- GetMetric (globalMetrics a) elementKey MetricTypeCounter ;;
      Increment elementMetric
  | None => ret tt
  end.

Definition processPurchaseMetrics (a : Aggregator) (event : Event) : M unit :=
  purchases <- GetMetric (globalMetrics a) "purchases" MetricTypeCounter ;;
  Increment purchases ;;;
  match assertFloat64 (Properties event !! "amount") with
  | Some amount =>
      revenue <- GetMetric (globalMetrics a) "revenue" MetricTypeCounter ;;
      IncrementBy revenue amount ;;;
      revenueHist <- GetMetric (globalMetrics a) "revenue_histogram" MetricTypeHistogram ;;
      Observe revenueHist amount
  | None => ret tt
  end.

Definition updateGlobalMetrics (a : Aggregator) (event : Event) : M unit :=
  totalEvents <- GetMetric (globalMetrics a) "total_events" MetricTypeCounter ;;
  Increment totalEvents ;;;
  let eventTypeKey := "events_by_type:" +:+ ev_Type event in
  eventTypeMetric <- GetMetric (globalMetrics a) eventTypeKey MetricTypeCounter ;;
  Increment eventTypeMetric ;;;
  uniqueUsers <- GetMetric (globalMetrics a) "unique_users" MetricTypeSet ;;
  (if String.eqb (UserID event) "" then ret tt
   else AddUnique uniqueUsers (UserID event)) ;;;
  uniqueSessions <- GetMetric (globalMetrics a) "unique_sessions" MetricTypeSet ;;
  (if String.eqb (SessionID event) "" then ret tt
   else AddUnique uniqueSessions (SessionID event)) ;;;
  if String.eqb (ev_Type event) "pageview" then processPageviewMetrics a event
  else if String.eqb (ev_Type event) "click" then processClickMetrics a event
  else if String.eqb (ev_Type event) "purchase" then processPurchaseMetrics a event
  else ret tt.

Definition updateWindowMetrics (window : loc) (event : Event) : M unit :=
  o <- load_window window ;;
  windowEvents <- GetMetric (tw_Metrics o) "events" MetricTypeCounter ;;
  Increment windowEvents ;;;
  let eventTypeKey := "events:" +:+ ev_Type event in
  eventTypeMetric <- GetMetric (tw_Metrics o) eventTypeKey MetricTypeCounter ;;
  Increment eventTypeMetric ;;;
  activeUsers <- GetMetric (tw_Metrics o) "active_users" MetricTypeSet ;;
  if String.eqb (UserID event) "" then ret tt
  else AddUnique activeUsers (UserID event).

(** [time.Now()] is read at entry and again by [time.Since] in the debug
    line at exit. *)
Definition ProcessEvent (a : Aggregator) (event : Event) : M unit :=
  _now <- timeNow ;;
  updateGlobalMetrics a event ;;;
  window <- GetOrCreateWindow (windowManager a) (ev_Timestamp event) ;;
  updateWindowMetrics window event ;;;
  _since <- timeNow ;;
  ret tt.

(** The body of the loop over the closed windows: the debug line reads the
    window's bounds and the size of its metric map, then the callback, if
    one is registered, is called. *)
Definition flushWindow (a : Aggregator) (window : loc) : M unit :=
  o <- load_window window ;;
  _s <- load_snapshot (tw_Metrics o) ;;
  match onWindowClosed a with
  | Some callback => callback window
  | None => ret tt
  end.

Definition flushExpiredWindows (a : Aggregator) : M unit :=
  now <- timeNow ;;
  closedWindows <- CloseExpiredWindows (windowManager a) now ;;
  if (0 <? length closedWindows)%nat then
    forEach closedWindows (flushWindow a)
  else ret tt.

Definition cleanup (a : Aggregator) : M unit :=
  Cleanup (windowManager a) (5 * Minute).

(** Which case of the [select] of [Start] fires at each turn of the loop. *)
Inductive select_case : Type := CtxDone | TickerC.

(** How a run of [Start] over a finite schedule ends: it returned, or the
    schedule ran out while the loop was waiting in its [select]. *)
Inductive run : Type := Returned | Waiting.

Fixpoint startLoop (a : Aggregator) (schedule : list select_case) : M run :=
  match schedule with
  | [] => ret Waiting
  | CtxDone :: _ => ret Returned
  | TickerC :: rest =>
      flushExpiredWindows a ;;;
      cleanup a ;;;
      startLoop a rest
  end.

(** [time.NewTicker] panics on a non-positive interval. *)
Definition Start (a : Aggregator) (schedule : list select_case) : M run :=
  if flushInterval a <=? 0 then panic
  else startLoop a schedule.

Definition GetGlobalMetrics (a : Aggregator) : M (gmap string loc) :=
  GetAllMetrics (globalMetrics a).

Definition GetGlobalMetricValue (a : Aggregator) (name : string) : M (float * bool) :=
  GetMetricValue (globalMetrics a) name.

Definition Aggregator_GetActiveWindows (a : Aggregator) : M (list loc) :=
  GetActiveWindows (windowManager a).

(** A value of the [map[string]interface{}] returned by [GetStats]. *)
Inductive stat : Type :=
| StatFloat64 (f : float)
| StatInt (n : Z)
| StatDuration (d : Duration).

Definition GetStats (a : Aggregator) : M (gmap string stat) :=
  totalEvents <- GetMetricValue (globalMetrics a) "total_events" ;;
  uniqueUsers <- GetMetricValue (globalMetrics a) "unique_users" ;;
  uniqueSessions <- GetMetricValue (globalMetrics a) "unique_sessions" ;;
  activeWindows <- GetActiveWindows (windowManager a) ;;
  s <- load_snapshot (globalMetrics a) ;;
  now <- timeNow ;;
  ret (<["total_events" := StatFloat64 (fst totalEvents)]>
      (<["unique_users" := StatFloat64 (fst uniqueUsers)]>
      (<["unique_sessions" := StatFloat64 (fst uniqueSessions)]>
      (<["active_windows" := StatInt (Z.of_nat (length activeWindows))]>
      (<["metrics_count" := StatInt (Z.of_nat (size (Metrics s)))]>
      (<["uptime" := StatDuration (Sub now (ms_Timestamp s))]> ∅)))))).

Definition Reset (a : Aggregator) : M Aggregator :=
  Reset_snapshot (globalMetrics a) ;;;
  wm <- NewWindowManager (windowDuration a) ;;
  ret (mkAggregator (globalMetrics a) wm (windowDuration a) (flushInterval a)
         (onWindowClosed a)).

(** Processing a sequence of events one after the other. *)
Definition processAll (a : Aggregator) (events : list Event) : M unit :=
  forEach events (ProcessEvent a).

(** ** server.go: the batch ingress handler

    The handler runs alone on the server: the buffered channel is its
    content and its capacity, and the non-blocking send of the [select]
    succeeds exactly when the buffer has room.  What the decoding of the
    body gives is an input: the error text, or the decoded slice. *)
Module Server.

Record Event := mkEvent {
  ID : string;
  Type_ : string;
  Timestamp : Time;
  UserID : string;
  SessionID : string;
  Properties : gmap string dyn
}.

Record Server := mkServer {
  eventQueue : list Event;
  capacity : nat;
  aggregator : option Aggregator
}.

Inductive body : Type :=
| ErrorResponse (Error : bool) (Message : string)
| SuccessResponse (Status : string) (Message : string) (Data : gmap string Z).

Record Response := mkResponse {
  code : Z;
  payload : body
}.

Definition StatusAccepted : Z := 202.
Definition StatusBadRequest : Z := 400.

(** Nanoseconds between the zero time and the Unix epoch. *)
Definition unixEpoch : Z := 62135596800 * 1000000000.
Definition UnixNano (t : Time) : Z := int64 (t - unixEpoch).

(** The state of the loop over the batch. *)
Record loopState := mkLoop {
  queue : list Event;
  accepted : Z;
  rejected : Z;
  clockReads : nat
}.

Definition batchStep (cap : nat) (clk : nat -> Time) (now : Time)
    (i : nat) (event : Event) (st : loopState) : loopState :=
  let event1 :=
    if IsZero (Timestamp event)
    then mkEvent (ID event) (Type_ event) now (UserID event)
           (SessionID event) (Properties event)
    else event in
  let '(event2, reads') :=
    if String.eqb (ID event1) ""
    then (mkEvent
            ("evt_" +:+ pretty (UnixNano (clk (clockReads st))) +:+ "_"
               +:+ pretty (Z.of_nat i))
            (Type_ event1) (Timestamp event1) (UserID event1)
            (SessionID event1) (Properties event1),
          S (clockReads st))
    else (event1, clockReads st) in
  if String.eqb (Type_ event2) ""
  then mkLoop (queue st) (accepted st) (rejected st + 1) reads'
  else if (length (queue st) <? cap)%nat
  then mkLoop (queue st ++ [event2]) (accepted st + 1) (rejected st) reads'
  else mkLoop (queue st) (accepted st) (rejected st + 1) reads'.

Fixpoint batchLoop (cap : nat) (clk : nat -> Time) (now : Time)
    (i : nat) (events : list Event) (st : loopState) : loopState :=
  match events with
  | [] => st
  | event :: rest =>
      batchLoop cap clk now (S i) rest (batchStep cap clk now i event st)
  end.

(** [c.ShouldBindJSON(&events)]: once the body is decoded, every element of
    the slice is validated, and an element whose [Type] is empty fails the
    [binding:"required"] tag of the field, which fails the bind.  The text
    of the validator's error is an input. *)
Definition ShouldBindJSON (validationError : list Event -> string)
    (decoded : string + list Event) : string + list Event :=
  match decoded with
  | inl err => inl err
  | inr events =>
      if existsb (fun event => String.eqb (Type_ event) "") events
      then inl (validationError events)
      else inr events
  end.

Definition handleBatchEvents (s : Server) (clk : nat -> Time)
    (validationError : list Event -> string)
    (decoded : string + list Event) : Response * Server :=
  match ShouldBindJSON validationError decoded with
  | inl err =>
      (mkResponse StatusBadRequest
         (ErrorResponse true ("invalid batch data: " +:+ err)), s)
  | inr events =>
      if (length events =? 0)%nat then
        (mkResponse StatusBadRequest (ErrorResponse true "empty batch"), s)
      else if (1000 <? length events)%nat then
        (mkResponse StatusBadRequest
           (ErrorResponse true "batch size exceeds limit of 1000"), s)
      else
        let now := clk 0%nat in
        let st := batchLoop (capacity s) clk now 0 events
                    (mkLoop (eventQueue s) 0 0 1) in
        (mkResponse StatusAccepted
           (SuccessResponse "accepted"
              ("batch processed: " +:+ pretty (Z.of_nat (length events))
                 +:+ " events")
              (<["total" := Z.of_nat (length events)]>
              (<["accepted" := accepted st]>
              (<["rejected" := rejected st]> ∅)))),
         mkServer (queue st) (capacity s) (aggregator s))
  end.

(** *** The other handlers

    [Data] is an [interface{}]: the batch handler puts integers in it, the
    others a [gin.H] of mixed values, the metric map or the statistics. *)

Definition StatusOK : Z := 200.
Definition StatusNotFound : Z := 404.
Definition StatusInternalServerError : Z := 500.
Definition StatusServiceUnavailable : Z := 503.

Inductive json : Type :=
| JString (s : string)
| JFloat64 (f : float)
| JInt64 (n : Z)
| JTime (t : Time)
| JStrings (l : list string).

Inductive data : Type :=
| H (fields : gmap string json)
| MetricMap (m : gmap string loc)
| Stats (m : gmap string stat).

Inductive reply : Type :=
| ReplyError (status : Z) (Message : string)
| ReplySuccess (status : Z) (Status Message : string) (Data : data).

Definition status_of (r : reply) : Z :=
  match r with
  | ReplyError status _ => status
  | ReplySuccess status _ _ _ => status
  end.

(** The result of [c.ShouldBindJSON(&event)] is an input: the error text,
    or the decoded event. *)
Definition handleEvent (s : Server) (clk : nat -> Time)
    (bound : string + Event) : reply * Server :=
  match bound with
  | inl err =>
      (ReplyError StatusBadRequest ("invalid event data" +:+ err), s)
  | inr event =>
      let '(event1, reads) :=
        if IsZero (Timestamp event)
        then (mkEvent (ID event) (Type_ event) (clk 0%nat) (UserID event)
                (SessionID event) (Properties event), 1%nat)
        else (event, 0%nat) in
      let event2 :=
        if String.eqb (ID event1) ""
        then mkEvent ("evt_" +:+ pretty (UnixNano (clk reads)))
               (Type_ event1) (Timestamp event1) (UserID event1)
               (SessionID event1) (Properties event1)
        else event1 in
      if (length (eventQueue s) <? capacity s)%nat then
        (ReplySuccess StatusAccepted "accepted" "event queued for processing"
           (H (<["event_id" := JString (ID event2)]>
              (<["type" := JString (Type_ event2)]> ∅))),
         mkServer (eventQueue s ++ [event2]) (capacity s) (aggregator s))
      else
        (ReplyError StatusServiceUnavailable "queue full, try again later", s)
  end.

(** The requests that reach the two ingress handlers, each with the clock
    it reads and the outcome of its decoding. *)
Inductive request : Type :=
| PostEvent (clk : nat -> Time) (bound : string + Event)
| PostBatch (clk : nat -> Time) (validationError : list Event -> string)
    (decoded : string + list Event).

Definition serve (s : Server) (r : request) : Server :=
  match r with
  | PostEvent clk bound => snd (handleEvent s clk bound)
  | PostBatch clk validationError decoded =>
      snd (handleBatchEvents s clk validationError decoded)
  end.

End Server.

(** ** server.go: the read handlers

    They are kept apart from [Server], where the fields of [Server.Event]
    hide those of [Metric]. *)
Module ServerQueries.

Definition handleGetAllMetrics (s : Server.Server) : M Server.reply :=
  match Server.aggregator s with
  | None =>
      ret (Server.ReplyError Server.StatusInternalServerError
             "aggregator not initialized")
  | Some a =>
      metrics <- GetGlobalMetrics a ;;
      if (size metrics =? 0)%nat then
        ret (Server.ReplySuccess Server.StatusOK "success" "no metrics yet"
               (Server.H (<["metrics" := Server.JStrings []]> ∅)))
      else
        ret (Server.ReplySuccess Server.StatusOK "success"
               ("retrieved " +:+ pretty (Z.of_nat (size metrics)) +:+ " metrics")
               (Server.MetricMap metrics))
  end.

Definition handleGetMetricByName (s : Server.Server) (metricName : string)
  : M Server.reply :=
  match Server.aggregator s with
  | None =>
      ret (Server.ReplyError Server.StatusInternalServerError
             "aggregator not initialized")
  | Some a =>
      allMetrics <- GetGlobalMetrics a ;;
      match allMetrics !! metricName with
      | None =>
          ret (Server.ReplyError Server.StatusNotFound
                 ("metric '" +:+ metricName +:+ "' not found"))
      | Some metric =>
          o <- load_metric metric ;;
          ret (Server.ReplySuccess Server.StatusOK "success"
                 ("metric '" +:+ metricName +:+ "' found")
                 (Server.H (<["name" := Server.JString (Name o)]>
                    (<["type" := Server.JString (Type_ o)]>
                    (<["value" := Server.JFloat64 (Value o)]>
                    (<["count" := Server.JInt64 (Count o)]>
                    (<["timestamp" := Server.JTime (Timestamp o)]> ∅)))))))
      end
  end.

Definition handleGetStats (s : Server.Server) : M Server.reply :=
  match Server.aggregator s with
  | None =>
      ret (Server.ReplyError Server.StatusInternalServerError
             "aggregator not initialized")
  | Some a =>
      stats <- GetStats a ;;
      ret (Server.ReplySuccess Server.StatusOK "success" "aggregator statistics"
             (Server.Stats stats))
  end.

End ServerQueries.

(** ** config.go: validation

    The fields that [validate] reads, in the structs that hold them. *)
Module Config.

Record ServerConfig := mkServerConfig {
  Host : string;
  Port : Z
}.

Record ProcessingConfig := mkProcessingConfig {
  WorkerCount : Z;
  BufferSize : Z;
  BatchSize : Z;
  FlushInterval : Duration
}.

Record PostgresConfig := mkPostgresConfig {
  pg_Host : string;
  pg_Port : Z;
  Database : string;
  User : string;
  Password : string;
  MaxConnections : Z
}.

Record LoggingConfig := mkLoggingConfig {
  Level : string;
  Format : string;
  Output : string
}.

Record StorageConfig := mkStorageConfig {
  Postgres : PostgresConfig
}.

Record Config := mkConfig {
  Server : ServerConfig;
  Processing : ProcessingConfig;
  Logging : LoggingConfig;
  Storage : StorageConfig
}.

Definition validLevels : gmap string bool :=
  <["debug" := true]> (<["info" := true]> (<["warn" := true]>
  (<["error" := true]> ∅))).

(** [nil] is [None]; an error is its text. *)
Definition validate (c : Config) : option string :=
  if (Port (Server c) <=? 0) || (65535 <? Port (Server c)) then
    Some ("Invalid server port: " +:+ pretty (Port (Server c)))
  else if WorkerCount (Processing c) <=? 0 then
    Some "worker count must be at least 1"%string
  else if BufferSize (Processing c) <? 100 then
    Some "buffer size must be at least 100"%string
  else if String.eqb (Database (Postgres (Storage c))) "" then
    Some "postgres database name is required"%string
  else if String.eqb (User (Postgres (Storage c))) "" then
    Some "postgres user is required"%string
  else if negb (default false (validLevels !! Level (Logging c))) then
    Some ("invalid log level: " +:+ Level (Logging c))
  else None.

End Config.

(** ** main.go: the worker

    [processEvents] over the cases of its [select] that fire, in order; a
    receive carries the event taken from the queue.  The logger is the list
    of the lines written. *)
Module Worker.

Inductive select_case : Type :=
| CtxDone
| Receive (event : Server.Event)
| TickerC.

Inductive logLine : Type :=
| WorkerStarted (worker_id : Z)
| WorkerStopping (worker_id processed : Z)
| ProcessingEvent (worker_id : Z) (event_id event_type user_id : string)
    (timestamp : Time)
| WorkerStats (worker_id processed : Z) (rate : float).

Fixpoint loop (workerID : Z) (schedule : list select_case) (processed : Z)
    (logger : list logLine) : run * list logLine :=
  match schedule with
  | [] => (Waiting, logger)
  | CtxDone :: _ =>
      (Returned, logger ++ [WorkerStopping workerID processed])
  | Receive event :: rest =>
      loop workerID rest (int64 (processed + 1))
        (logger ++ [ProcessingEvent workerID (Server.ID event)
                      (Server.Type_ event) (Server.UserID event)
                      (Server.Timestamp event)])
  | TickerC :: rest =>
      if 0 <? processed then
        loop workerID rest 0
          (logger ++ [WorkerStats workerID processed
                        (PrimFloat.div (float64_of_int64 processed) 10%float)])
      else loop workerID rest processed logger
  end.

Definition processEvents (workerID : Z) (schedule : list select_case)
  : run * list logLine :=
  loop workerID schedule 0 [WorkerStarted workerID].

End Worker.

(** ** Drivers and observations used to state the properties *)

(** [for i := 0; i < n; i++ { body }] *)
Fixpoint repeatM (n : nat) (body : M unit) : M unit :=
  match n with
  | O => ret tt
  | S k => body ;;; repeatM k body
  end.

(** A world with empty stores whose clock is [clk]. *)
Definition emptyWorld (clk : nat -> Time) : World :=
  mkWorld ∅ ∅ ∅ ∅ clk 0 [].

(** The calls a client can make on a [*WindowManager]. *)
Inductive wm_call : Type :=
| CallGetOrCreateWindow (t : Time)
| CallCloseExpiredWindows (t : Time)
| CallCleanup (keepDuration : Duration).

Definition wm_do (wm : loc) (c : wm_call) : M unit :=
  match c with
  | CallGetOrCreateWindow t => _w <- GetOrCreateWindow wm t ;; ret tt
  | CallCloseExpiredWindows t => _l <- CloseExpiredWindows wm t ;; ret tt
  | CallCleanup keep => Cleanup wm keep
  end.

(** [w] is a state of the manager [wm], of window width [d], reached from
    its creation by some sequence of calls. *)
Definition wm_reachable (wm : loc) (d : Duration) (w : World) : Prop :=
  exists (w0 : World) (calls : list wm_call),
    (wm' <- NewWindowManager d ;; forEach calls (wm_do wm') ;;; ret wm') w0
    = Ok wm w.

(** The windows held by the manager [wm], with their positions. *)
Definition window_at (w : World) (wm : loc) (i : nat) : option TimeWindow :=
  match managers w !! wm with
  | Some m => match Windows m !! i with
              | Some l => windows w !! l
              | None => None
              end
  | None => None
  end.

(** A callback that records the window it is given in the outside world,
    and one that panics. *)
Definition recordWindow (window : loc) : M unit :=
  fun w => Ok tt (set_external (external w ++ [window]) w).
Definition panicking (window : loc) : M unit := panic.

(** The metric stored under [name] in the snapshot [ms]. *)
Definition metric_of (w : World) (ms : loc) (name : string) : option Metric :=
  match snapshots w !! ms with
  | Some s => match Metrics s !! name with
              | Some l => metrics w !! l
              | None => None
              end
  | None => None
  end.

(** What happens to an aggregator while it runs: an event is processed, or
    the ticker of [Start] fires. *)
Inductive agg_call : Type :=
| CallProcessEvent (e : Event)
| CallTick.

Definition agg_do (a : Aggregator) (c : agg_call) : M unit :=
  match c with
  | CallProcessEvent e => ProcessEvent a e
  | CallTick => flushExpiredWindows a ;;; cleanup a
  end.

(** ** Definitions used in the proofs *)

(** Every mutator of a metric loads the object, reads the clock and stores
    the updated object. *)
Definition update_metric (f : Time -> Metric -> Metric) (m : loc) : M unit :=
  o <- load_metric m ;; now <- timeNow ;; store_metric m (f now o).

Definition incremented (now : Time) (o : Metric) : Metric :=
  mkMetric (Name o) (Type_ o) (PrimFloat.add (Value o) 1%float)
    (int64 (Count o + 1)) now (Tags o) (Values o) (UniqueSet o).
Definition incrementedBy (value : float) (now : Time) (o : Metric) : Metric :=
  mkMetric (Name o) (Type_ o) (PrimFloat.add (Value o) value)
    (int64 (Count o + 1)) now (Tags o) (Values o) (UniqueSet o).
Definition assigned (value : float) (now : Time) (o : Metric) : Metric :=
  mkMetric (Name o) (Type_ o) value (Count o) now (Tags o) (Values o)
    (UniqueSet o).
Definition observed (value : float) (now : Time) (o : Metric) : Metric :=
  mkMetric (Name o) (Type_ o) (PrimFloat.add (Value o) value)
    (int64 (Count o + 1)) now (Tags o) (Values o ++ [value]) (UniqueSet o).
Definition withUnique (value : string) (now : Time) (o : Metric) : Metric :=
  mkMetric (Name o) (Type_ o) (Value o)
    (Z.of_nat (size ({[ value ]} ∪ UniqueSet o))) now (Tags o) (Values o)
    ({[ value ]} ∪ UniqueSet o).

(** A mantissa shifted left by [j] bits. *)
Definition shl (p : positive) (j : Z) : positive :=
  match j with Zpos n => Pos.iter xO p n | _ => p end.

(** A metric with its timestamp erased, and the content of a snapshot as
    a map from names to such metrics: what the snapshot holds, whatever the
    clock said. *)
Definition erase (o : Metric) : Metric :=
  mkMetric (Name o) (Type_ o) (Value o) (Count o) 0 (Tags o) (Values o)
    (UniqueSet o).

Definition content (w : World) (s : loc) : gmap string Metric :=
  match snapshots w !! s with
  | Some ms => omap (fun l => erase <$> metrics w !! l) (Metrics ms)
  | None => ∅
  end.

(** The metric pointers held by the snapshots are valid, and no metric is
    held twice (by two snapshots, or under two names). *)
Definition heap_wf (w : World) : Prop :=
  (forall s ms n l,
     snapshots w !! s = Some ms -> Metrics ms !! n = Some l ->
     is_Some (metrics w !! l)) /\
  (forall s1 ms1 n1 s2 ms2 n2 l,
     snapshots w !! s1 = Some ms1 -> Metrics ms1 !! n1 = Some l ->
     snapshots w !! s2 = Some ms2 -> Metrics ms2 !! n2 = Some l ->
     s1 = s2 /\ n1 = n2).

(** What no method on metrics and snapshots touches. *)
Definition same_frame (w w' : World) : Prop :=
  windows w' = windows w /\ managers w' = managers w /\
  external w' = external w /\ clock w' = clock w.

(** A metric as [NewMetric] makes it, timestamp erased. *)
Definition newm (name : string) (ty : MetricType) : Metric :=
  mkMetric name ty 0%float 0 0 ∅ [] ∅.

(** [ms.GetMetric(name, ty)] followed by a mutation [g], on the content. *)
Definition touch (name : string) (ty : MetricType) (g : Metric -> Metric)
    (c : gmap string Metric) : gmap string Metric :=
  <[name := g (default (newm name ty) (c !! name))]> c.

(** A mutator changes the timestamp as the clock says and the rest of the
    object independently of the clock. *)
Definition stamp_only (f : Time -> Metric -> Metric) : Prop :=
  forall t o, erase (f t o) = f 0 (erase o).

(** The calls a client can make on metrics and snapshots, [Reset] apart. *)
Inductive client_call : Type :=
| DoGetMetric (ms : loc) (name : string) (ty : MetricType)
| DoIncrement (m : loc)
| DoIncrementBy (m : loc) (value : float)
| DoSet (m : loc) (value : float)
| DoObserve (m : loc) (value : float)
| DoAddUnique (m : loc) (value : string).

Definition client_do (c : client_call) : M unit :=
  match c with
  | DoGetMetric ms name ty => _m <- GetMetric ms name ty ;; ret tt
  | DoIncrement m => Increment m
  | DoIncrementBy m v => IncrementBy m v
  | DoSet m v => Set_ m v
  | DoObserve m v => Observe m v
  | DoAddUnique m v => AddUnique m v
  end.

(** The window [tw] once closed. *)
Definition closed_copy (tw : TimeWindow) : TimeWindow :=
  mkTimeWindow (StartTime tw) (EndTime tw) (tw_Duration tw) (tw_Metrics tw) true.

(** The tests of the loops of the window manager, on a window pointer. *)
Definition matches (w : World) (windowStart : Time) (l : loc) : bool :=
  match windows w !! l with
  | Some o => Equal (StartTime o) windowStart && negb (Closed o)
  | None => false
  end.
Definition expired (w : World) (t : Time) (l : loc) : bool :=
  match windows w !! l with
  | Some o => ShouldClose o t
  | None => false
  end.
Definition kept (w : World) (now : Time) (keepDuration : Duration) (l : loc) : bool :=
  match windows w !! l with
  | Some o => negb (Closed o) || (Sub now (EndTime o) <? keepDuration)
  | None => false
  end.
Definition open_window (w : World) (l : loc) : bool :=
  match windows w !! l with
  | Some o => negb (Closed o)
  | None => false
  end.

(** The two readings of the invariant of the window manager: at most one
    window per start, and at most one open window per start. *)
Definition one_window_per_start (wm : loc) (w : World) : Prop :=
  forall i j tw1 tw2,
    window_at w wm i = Some tw1 -> window_at w wm j = Some tw2 ->
    StartTime tw1 = StartTime tw2 -> i = j.

Definition one_open_window_per_start (wm : loc) (w : World) : Prop :=
  forall i j tw1 tw2,
    window_at w wm i = Some tw1 -> window_at w wm j = Some tw2 ->
    Closed tw1 = false -> Closed tw2 = false ->
    StartTime tw1 = StartTime tw2 -> i = j.

(** Every window of the manager is in the store, starts on a multiple of
    the manager's width and ends one width later. *)
Definition windows_aligned (wm : loc) (w : World) : Prop :=
  exists m, managers w !! wm = Some m /\
    forall l, l ∈ Windows m ->
      exists tw, windows w !! l = Some tw /\
        StartTime tw = Truncate (StartTime tw) (duration m) /\
        EndTime tw = StartTime tw + duration m /\
        tw_Duration tw = duration m.

(** The window pointers of a list are valid. *)
Definition allocated (w : World) (ws : list loc) : Prop :=
  forall l, l ∈ ws -> is_Some (windows w !! l).

(** The world after [GetOrCreateWindow] has created a window. *)
Definition with_new_window (wm : loc) (m : WindowManager) (start : Time)
    (w : World) : World :=
  set_managers
    (<[wm := mkWindowManager (Windows m ++ [fresh (dom (windows w))]) (duration m)]>
       (managers w))
    (set_windows
       (<[fresh (dom (windows w)) :=
            mkTimeWindow start (Add start (duration m)) (duration m)
              (fresh (dom (snapshots w))) false]> (windows w))
       (set_snapshots
          (<[fresh (dom (snapshots w)) :=
               mkMetricsSnapshot ∅ (clock w (reads w))]> (snapshots w))
          (set_reads (S (reads w)) w))).


(** The starts of the open windows of a list, in order. *)
Definition open_start (w : World) (l : loc) : option Time :=
  match windows w !! l with
  | Some tw => if Closed tw then None else Some (StartTime tw)
  | None => None
  end.
Definition open_starts (w : World) (ws : list loc) : list Time :=
  omap (open_start w) ws.

(** The invariant of a window manager. *)
Definition wm_inv (wm : loc) (d : Duration) (w : World) : Prop :=
  exists m, managers w !! wm = Some m /\ duration m = d /\
    (forall l, l ∈ Windows m ->
       exists tw, windows w !! l = Some tw /\
         StartTime tw = Truncate (StartTime tw) d /\
         EndTime tw = StartTime tw + d /\
         tw_Duration tw = d) /\
    NoDup (open_starts w (Windows m)).

(** A late event: a window is created, closed by a sweep, and an event of
    the same bucket arrives afterwards. *)
Definition lateEventCalls : list wm_call :=
  [CallGetOrCreateWindow (90 * Second);
   CallCloseExpiredWindows (200 * Second);
   CallGetOrCreateWindow (100 * Second)].

(** An item of a batch without a type. *)
Definition emptyType (e : Server.Event) : bool := String.eqb (Server.Type_ e) "".

(** A scenario for the flush loop: an aggregator with one-minute windows
    and the callback [cb], which has processed one event of the second
    minute and one of the fourth, under a clock that reads the tenth
    minute. *)
Definition lateClock : nat -> Time := fun _ => 10 * Minute.

Definition sampleEvent (t : Time) : Event :=
  mkEvent "evt_1" "pageview" t "user_1" "" ∅.

Definition flushScenario (cb : loc -> M unit) : M Aggregator :=
  a <- NewAggregator Minute (5 * Second) ;;
  let a' := SetWindowClosedCallback a cb in
  ProcessEvent a' (sampleEvent (90 * Second)) ;;;
  ProcessEvent a' (sampleEvent (200 * Second)) ;;;
  ret a'.

(** C1 as stated: when [Start] returns on cancellation, every window that a
    sweep at that instant would collect has been closed and handed to the
    callback. *)
Definition final_sweep_on_cancel : Prop :=
  forall (a : Aggregator) (w w' : World) (m : WindowManager) (l : loc)
         (tw : TimeWindow),
    onWindowClosed a = Some recordWindow ->
    Start a [CtxDone] w = Ok Returned w' ->
    managers w !! windowManager a = Some m -> l ∈ Windows m ->
    windows w !! l = Some tw ->
    ShouldClose tw (clock w (reads w)) = true ->
    l ∈ external w' /\
    exists tw', windows w' !! l = Some tw' /\ Closed tw' = true.

(** C2 as stated: a panic of the callback does not end the loop. *)
Definition callback_panic_recovered : Prop :=
  forall (a : Aggregator) (w : World) (schedule : list select_case),
    flushScenario panicking (emptyWorld lateClock) = Ok a w ->
    exists r w', Start a schedule w = Ok r w'.

(** A computation on the snapshot [s] acts on its content as [F] does, and
    leaves the other snapshots and the rest of the world alone. *)
Definition refines (s : loc) (prog : M unit)
    (F : gmap string Metric -> gmap string Metric) : Prop :=
  forall w, heap_wf w -> is_Some (snapshots w !! s) ->
    exists w',
      prog w = Ok tt w' /\
      heap_wf w' /\
      is_Some (snapshots w' !! s) /\
      content w' s = F (content w s) /\
      (forall s', s' <> s ->
         snapshots w' !! s' = snapshots w !! s' /\ content w' s' = content w s') /\
      dom (snapshots w') = dom (snapshots w) /\
      same_frame w w'.

(** What [updateGlobalMetrics] does to the content of the global snapshot. *)
Definition absPageview (e : Event) (c : gmap string Metric) : gmap string Metric :=
  let c1 := touch "pageviews" MetricTypeCounter (incremented 0) c in
  match assertString (Properties e !! "page") with
  | Some page =>
      touch ("page_views:" +:+ page) MetricTypeCounter (incremented 0)
        (touch "unique_pages" MetricTypeSet (withUnique page 0) c1)
  | None => c1
  end.

Definition absClick (e : Event) (c : gmap string Metric) : gmap string Metric :=
  let c1 := touch "clicks" MetricTypeCounter (incremented 0) c in
  match assertString (Properties e !! "element") with
  | Some element =>
      touch ("clicks:" +:+ element) MetricTypeCounter (incremented 0) c1
  | None => c1
  end.

Definition absPurchase (e : Event) (c : gmap string Metric) : gmap string Metric :=
  let c1 := touch "purchases" MetricTypeCounter (incremented 0) c in
  match assertFloat64 (Properties e !! "amount") with
  | Some amount =>
      touch "revenue_histogram" MetricTypeHistogram (observed amount 0)
        (touch "revenue" MetricTypeCounter (incrementedBy amount 0) c1)
  | None => c1
  end.

Definition absByType (e : Event) (c : gmap string Metric) : gmap string Metric :=
  if String.eqb (ev_Type e) "pageview" then absPageview e c
  else if String.eqb (ev_Type e) "click" then absClick e c
  else if String.eqb (ev_Type e) "purchase" then absPurchase e c
  else c.

Definition absCommon (e : Event) (c : gmap string Metric) : gmap string Metric :=
  touch "unique_sessions" MetricTypeSet
    (if String.eqb (SessionID e) "" then id else withUnique (SessionID e) 0)
    (touch "unique_users" MetricTypeSet
       (if String.eqb (UserID e) "" then id else withUnique (UserID e) 0)
       (touch ("events_by_type:" +:+ ev_Type e) MetricTypeCounter (incremented 0)
          (touch "total_events" MetricTypeCounter (incremented 0) c))).

Definition absGlobal (e : Event) (c : gmap string Metric) : gmap string Metric :=
  absByType e (absCommon e c).

Definition absWindow (e : Event) (c : gmap string Metric) : gmap string Metric :=
  touch "active_users" MetricTypeSet
    (if String.eqb (UserID e) "" then id else withUnique (UserID e) 0)
    (touch ("events:" +:+ ev_Type e) MetricTypeCounter (incremented 0)
       (touch "events" MetricTypeCounter (incremented 0) c)).

(** The invariant of an aggregator: its snapshot and its manager are in the
    store, and every window of the manager is there with a snapshot of its
    own. *)
Definition agg_inv (a : Aggregator) (w : World) : Prop :=
  heap_wf w /\
  is_Some (snapshots w !! globalMetrics a) /\
  exists m, managers w !! windowManager a = Some m /\
    forall l, l ∈ Windows m ->
      exists tw, windows w !! l = Some tw /\
        is_Some (snapshots w !! tw_Metrics tw) /\
        tw_Metrics tw <> globalMetrics a.

(** The count of the metric stored under [name] in the snapshot [ms], 0 when
    there is none. *)
Definition count_of (w : World) (ms : loc) (name : string) : Z :=
  match metric_of w ms name with
  | Some o => Count o
  | None => 0
  end.

Definition sumZ (l : list Z) : Z := foldr Z.add 0 l.

(** The event types that occur in a sequence of events, each once. *)
Definition eventTypes (events : list Event) : list string :=
  remove_dups (ev_Type <$> events).

(** The non-empty user and session identifiers of a sequence of events. *)
Definition userIDs (events : list Event) : list string :=
  filter (fun s => s <> ""%string) (UserID <$> events).
Definition sessionIDs (events : list Event) : list string :=
  filter (fun s => s <> ""%string) (SessionID <$> events).

(** The number of events of type [t]. *)
Definition occurrences (t : string) (events : list Event) : Z :=
  Z.of_nat (length (filter (fun e => ev_Type e = t) events)).

(** Four events of two users: two pageviews, a click and a purchase. *)
Definition sampleEvents : list Event :=
  [mkEvent "evt_1" "pageview" (90 * Second) "user_1" "s1"
     (<["page" := DString "/home"]> ∅);
   mkEvent "evt_2" "pageview" (91 * Second) "user_2" ""
     (<["page" := DString "/products"]> ∅);
   mkEvent "evt_3" "click" (92 * Second) "user_1" "s1"
     (<["element" := DString "button"]> ∅);
   mkEvent "evt_4" "purchase" (93 * Second) "user_2" ""
     (<["amount" := DFloat64 2.5%float]> ∅)].

(** The amount of a purchase, when the event is one and carries a
    [float64] under [amount]. *)
Definition amount_of (e : Event) : option float :=
  if String.eqb (ev_Type e) "purchase"
  then assertFloat64 (Properties e !! "amount")
  else None.
Definition amounts (events : list Event) : list float := omap amount_of events.

(** The events that fall in the window that starts at [start]. *)
Definition bucket (d : Duration) (start : Time) (events : list Event) : list Event :=
  filter (fun e => Truncate (ev_Timestamp e) d = start) events.

(** What the windows of an aggregator hold after [events], when no window
    was closed in between: one open window for each bucket that received
    an event, with a snapshot of its own that has seen the events of the
    bucket. *)
Definition window_inv (a : Aggregator) (d : Duration) (events : list Event)
    (w : World) : Prop :=
  exists m, managers w !! windowManager a = Some m /\ duration m = d /\
    NoDup (Windows m) /\
    (forall l, l ∈ Windows m ->
       exists tw, windows w !! l = Some tw /\ Closed tw = false /\
         EndTime tw = Add (StartTime tw) d /\
         bucket d (StartTime tw) events <> [] /\
         content w (tw_Metrics tw) =
           foldl (fun c e => absWindow e c) ∅ (bucket d (StartTime tw) events)) /\
    (forall l1 l2 tw1 tw2,
       l1 ∈ Windows m -> l2 ∈ Windows m ->
       windows w !! l1 = Some tw1 -> windows w !! l2 = Some tw2 ->
       StartTime tw1 = StartTime tw2 \/ tw_Metrics tw1 = tw_Metrics tw2 ->
       l1 = l2) /\
    (forall e, e ∈ events ->
       exists l tw, l ∈ Windows m /\ windows w !! l = Some tw /\
         StartTime tw = Truncate (ev_Timestamp e) d).

(** The windows handed to the callback so far are closed, and none was
    handed over twice. *)
Definition delivered_inv (w : World) : Prop :=
  NoDup (external w) /\
  forall l, l ∈ external w ->
    exists tw, windows w !! l = Some tw /\ Closed tw = true.

(** The start of the bucket of an event, and the start recorded for a
    window pointer. *)
Definition bucket_start (d : Duration) (e : Event) : Time :=
  Truncate (ev_Timestamp e) d.
Definition start_of (w : World) (l : loc) : Time :=
  match windows w !! l with
  | Some tw => StartTime tw
  | None => 0
  end.

(** An event as the ingress handlers enqueue it: the decoded event, with
    the instant [now] for a missing timestamp and a generated identifier
    for a missing one. *)
Definition enqueued_as (now : Time) (e' e : Server.Event) : Prop :=
  Server.Type_ e' = Server.Type_ e /\
  Server.UserID e' = Server.UserID e /\
  Server.SessionID e' = Server.SessionID e /\
  Server.Properties e' = Server.Properties e /\
  Server.ID e' <> ""%string /\
  (Server.ID e <> ""%string -> Server.ID e' = Server.ID e) /\
  Server.Timestamp e' =
    (if IsZero (Server.Timestamp e) then now else Server.Timestamp e).

(** The items of a batch that carry a type. *)
Definition typed (events : list Server.Event) : list Server.Event :=
  List.filter (fun e => negb (emptyType e)) events.

(** A world with one snapshot that holds the counter [hits], and one with
    an empty snapshot. *)
Definition hitsWorld : World :=
  mkWorld (<[0%nat := mkMetric "hits" MetricTypeCounter 3%float 3 0 ∅ [] ∅]> ∅)
    (<[0%nat := mkMetricsSnapshot (<["hits"%string := 0%nat]> ∅) 0]> ∅)
    ∅ ∅ (fun _ => 0) 0 [].
Definition snapshotWorld : World :=
  mkWorld ∅ (<[0%nat := mkMetricsSnapshot ∅ 0]> ∅) ∅ ∅ (fun _ => 0) 0 [].

(** A batch of two items that carry a type, the second without identifier
    and timestamp. *)
Definition typedBatch : list Server.Event :=
  [Server.mkEvent "a" "click" 5 "u" "" ∅;
   Server.mkEvent "" "click" 0 "u" "" ∅].

(** The events a worker receives before its context is cancelled, the
    counts its log reports, and the events its log mentions. *)
Fixpoint received (schedule : list Worker.select_case) : list Server.Event :=
  match schedule with
  | [] => []
  | Worker.CtxDone :: _ => []
  | Worker.Receive e :: rest => e :: received rest
  | Worker.TickerC :: rest => received rest
  end.
Definition reported_by (l : Worker.logLine) : Z :=
  match l with
  | Worker.WorkerStats _ processed _ => processed
  | Worker.WorkerStopping _ processed => processed
  | _ => 0
  end.
Definition reported (logger : list Worker.logLine) : Z :=
  sumZ (reported_by <$> logger).
Definition mentioned (logger : list Worker.logLine) : list string :=
  omap (fun l => match l with
                 | Worker.ProcessingEvent _ event_id _ _ _ => Some event_id
                 | _ => None
                 end) logger.

(** * Proofs *)

(** ** The monad *)

Lemma bind_Ok {A B} (m : M A) (k : A -> M B) w a w1 :
  m w = Ok a w1 -> bind m k w = k a w1.
Proof. intros H. unfold bind. rewrite H. reflexivity. Qed.

Lemma bind_Panic {A B} (m : M A) (k : A -> M B) w w1 :
  m w = Panic w1 -> bind m k w = Panic w1.
Proof. intros H. unfold bind. rewrite H. reflexivity. Qed.

Lemma bind_Ok_inv {A B} (m : M A) (k : A -> M B) w b w2 :
  bind m k w = Ok b w2 -> exists a w1, m w = Ok a w1 /\ k a w1 = Ok b w2.
Proof.
  unfold bind. destruct (m w) as [a w1|w1]; [eauto | discriminate].
Qed.

Lemma forEach_app {A} (xs ys : list A) (body : A -> M unit) w w1 :
  forEach xs body w = Ok tt w1 ->
  forEach (xs ++ ys) body w = forEach ys body w1.
Proof.
  revert w. induction xs as [|x xs IH]; intros w H; simpl in *.
  - inversion H. reflexivity.
  - apply bind_Ok_inv in H as (u & w' & Hx & Hrest).
    rewrite (bind_Ok _ _ _ _ _ Hx). apply IH. exact Hrest.
Qed.

Lemma forEach_panic {A} (pre post : list A) (x : A) (body : A -> M unit) w w1 w2 :
  forEach pre body w = Ok tt w1 ->
  body x w1 = Panic w2 ->
  forEach (pre ++ x :: post) body w = Panic w2.
Proof.
  intros Hpre Hx. rewrite (forEach_app _ _ _ _ _ Hpre). simpl.
  apply bind_Panic. exact Hx.
Qed.

(** ** Metric *)

Lemma update_metric_Ok f m w o :
  metrics w !! m = Some o ->
  update_metric f m w =
    Ok tt (set_metrics (<[m := f (clock w (reads w)) o]> (metrics w))
             (set_reads (S (reads w)) w)).
Proof.
  intros H. unfold update_metric, bind, load_metric. rewrite H. reflexivity.
Qed.

Lemma update_metric_Panic f m w :
  metrics w !! m = None -> update_metric f m w = Panic w.
Proof.
  intros H. unfold update_metric, bind, load_metric. rewrite H. reflexivity.
Qed.

Lemma Increment_update m : Increment m = update_metric incremented m.
Proof. reflexivity. Qed.
Lemma IncrementBy_update m v : IncrementBy m v = update_metric (incrementedBy v) m.
Proof. reflexivity. Qed.
Lemma Set_update m v : Set_ m v = update_metric (assigned v) m.
Proof. reflexivity. Qed.
Lemma Observe_update m v : Observe m v = update_metric (observed v) m.
Proof. reflexivity. Qed.
Lemma AddUnique_update m v : AddUnique m v = update_metric (withUnique v) m.
Proof. reflexivity. Qed.

Lemma NewMetric_Ok name ty w :
  NewMetric name ty w =
    Ok (fresh (dom (metrics w)))
       (set_metrics (<[fresh (dom (metrics w)) :=
                        mkMetric name ty 0%float 0 (clock w (reads w)) ∅ [] ∅]>
                       (metrics w))
          (set_reads (S (reads w)) w)).
Proof. reflexivity. Qed.

Lemma fresh_metric_None (w : World) : metrics w !! fresh (dom (metrics w)) = None.
Proof. apply not_elem_of_dom. apply is_fresh. Qed.

Lemma int64_small z : - 2 ^ 63 <= z < 2 ^ 63 -> int64 z = z.
Proof.
  intros H. unfold int64. rewrite Z.mod_small; lia.
Qed.

(** Repeated calls on one metric: a property of the object that every call
    carries from a prefix of the arguments to the next holds at the end. *)
Lemma forEach_update_metric {A} (f : A -> Time -> Metric -> Metric) m
    (P : list A -> Metric -> Prop) :
  (forall pre x t o, P pre o -> P (pre ++ [x]) (f x t o)) ->
  forall (xs pre : list A) w o,
    metrics w !! m = Some o ->
    P pre o ->
    exists w' o',
      forEach xs (fun x => update_metric (f x) m) w = Ok tt w' /\
      metrics w' !! m = Some o' /\
      P (pre ++ xs) o' /\
      clock w' = clock w /\
      reads w' = (reads w + length xs)%nat /\
      (forall l, l <> m -> metrics w' !! l = metrics w !! l) /\
      snapshots w' = snapshots w /\ windows w' = windows w /\
      managers w' = managers w /\ external w' = external w.
Proof.
  intros Hstep. induction xs as [|x xs IH]; intros pre w o Ho HP.
  - exists w, o. rewrite app_nil_r. simpl. repeat split; auto.
  - simpl. rewrite (bind_Ok _ _ _ _ _ (update_metric_Ok (f x) m w o Ho)).
    set (w1 := set_metrics _ _).
    destruct (IH (pre ++ [x]) w1 (f x (clock w (reads w)) o))
      as (w' & o' & Hrun & Hm & HP' & Hc & Hr & Hfr & Hs & Hw & Hg & He).
    { subst w1. simpl. apply lookup_insert_eq. }
    { apply Hstep. exact HP. }
    exists w', o'. rewrite Hrun. split; [reflexivity|]. split; [exact Hm|].
    split; [rewrite <- app_assoc in HP'; exact HP'|].
    split; [exact Hc|]. split; [rewrite Hr; subst w1; simpl; lia|].
    split.
    { intros l Hl. rewrite (Hfr l Hl). subst w1. simpl. apply lookup_insert_ne. congruence. }
    subst w1. simpl in *. auto.
Qed.

Lemma repeatM_forEach n body : repeatM n body = forEach (replicate n tt) (fun _ => body).
Proof. induction n as [|n IH]; simpl; [reflexivity | rewrite IH; reflexivity]. Qed.

(** ** Binary64 arithmetic on small integers *)

Lemma Zpos_shl p j : 0 <= j -> Zpos (shl p j) = Zpos p * 2 ^ j.
Proof.
  intros Hj. destruct j as [|n|n]; [simpl; lia| |lia].
  unfold shl.
  rewrite (Pos.iter_swap_gen _ _ Zpos xO (Z.mul 2)) by reflexivity.
  change (Pos.iter (Z.mul 2) (Zpos p) n) with (Z.shiftl (Zpos p) (Zpos n)).
  apply Z.shiftl_mul_pow2. lia.
Qed.

Lemma iter_succ_add (x n : positive) : Pos.iter Pos.succ x n = (x + n)%positive.
Proof.
  induction n as [|n IH] using Pos.peano_ind.
  - simpl. lia.
  - rewrite Pos.iter_succ, IH. lia.
Qed.

Lemma digits_shl p j :
  0 <= j -> Zpos (digits2_pos (shl p j)) = Zpos (digits2_pos p) + j.
Proof.
  intros Hj. destruct j as [|n|n]; [simpl; lia| |lia].
  unfold shl.
  rewrite (Pos.iter_swap_gen _ _ digits2_pos xO Pos.succ) by reflexivity.
  rewrite iter_succ_add. lia.
Qed.

Lemma shl_shl p a b : 0 <= a -> 0 <= b -> shl (shl p a) b = shl p (a + b).
Proof.
  intros Ha Hb. apply Pos2Z.inj.
  rewrite !Zpos_shl by lia. rewrite Z.pow_add_r by lia. ring.
Qed.

Lemma shl_0 p : shl p 0 = p.
Proof. reflexivity. Qed.

Lemma shl_align_eq mx ex ex' :
  shl_align mx ex ex' = if ex' <? ex then (shl mx (ex - ex'), ex') else (mx, ex).
Proof.
  unfold shl_align.
  destruct (Z.ltb_spec ex' ex) as [H|H].
  - destruct (ex' - ex) as [|d|d] eqn:E; try lia.
    replace (ex - ex') with (Zpos d) by lia. reflexivity.
  - destruct (ex' - ex) as [|d|d] eqn:E; try lia; reflexivity.
Qed.

Lemma iter_pos_eq {A} (f : A -> A) n : forall x, @SpecFloat.iter_pos A f n x = Pos.iter f x n.
Proof.
  induction n as [n IH|n IH|]; intros x; simpl.
  - rewrite !IH. rewrite <- !Pos.iter_swap. reflexivity.
  - rewrite !IH. reflexivity.
  - reflexivity.
Qed.

Lemma shr_exact q e n :
  0 <= n ->
  shr (Build_shr_record (Zpos (shl q n)) false false) e n =
    (Build_shr_record (Zpos q) false false, e + n).
Proof.
  intros Hn. destruct n as [|n|n]; [|clear Hn|lia].
  { simpl. rewrite Z.add_0_r. reflexivity. }
  unfold shr. f_equal. rewrite iter_pos_eq. unfold shl.
  revert q. induction n as [|n IH] using Pos.peano_ind; intros q.
  - reflexivity.
  - rewrite Pos.iter_succ_r. rewrite Pos.iter_succ. simpl. apply IH.
Qed.

Lemma fexp64 e : fexp prec emax e = Z.max (e - 53) (-1074).
Proof. reflexivity. Qed.

Lemma binary_round_aux_exact q j e :
  Zpos (digits2_pos q) = 53 -> 0 <= j -> -1074 <= e + j <= 971 ->
  binary_round_aux prec emax false (Zpos (shl q j)) e loc_Exact =
    S754_finite false q (e + j).
Proof.
  intros Hd Hj He.
  unfold binary_round_aux.
  assert (H1 : shr_fexp prec emax (Zpos (shl q j)) e loc_Exact =
               (Build_shr_record (Zpos q) false false, e + j)).
  { unfold shr_fexp. unfold Zdigits2. rewrite digits_shl by lia.
    rewrite fexp64, Hd.
    replace (Z.max (53 + j + e - 53) (-1074) - e) with j by lia.
    apply shr_exact. lia. }
  rewrite H1. cbn [shr_m loc_of_shr_record round_nearest_even].
  assert (H2 : shr_fexp prec emax (Zpos q) (e + j) loc_Exact =
               (Build_shr_record (Zpos q) false false, e + j)).
  { unfold shr_fexp. unfold Zdigits2. rewrite fexp64, Hd.
    replace (Z.max (53 + (e + j) - 53) (-1074) - (e + j)) with 0 by lia.
    reflexivity. }
  rewrite H2. cbn [shr_m].
  replace (e + j <=? emax - prec) with true; [reflexivity|].
  symmetry. apply Z.leb_le. change (emax - prec) with 971. lia.
Qed.

Lemma binary_round_exact p j e :
  Zpos (digits2_pos p) <= 53 -> 0 <= j ->
  -1074 <= e + j + Zpos (digits2_pos p) - 53 <= 971 ->
  binary_round prec emax false (shl p j) e =
    S754_finite false (shl p (53 - Zpos (digits2_pos p)))
      (e + j + Zpos (digits2_pos p) - 53).
Proof.
  intros Hd Hj He. unfold binary_round.
  rewrite digits_shl by lia. rewrite fexp64.
  set (dp := Zpos (digits2_pos p)) in *.
  replace (Z.max (dp + j + e - 53) (-1074)) with (dp + j + e - 53) by lia.
  rewrite shl_align_eq.
  assert (Hq : Zpos (digits2_pos (shl p (53 - dp))) = 53).
  { rewrite digits_shl by lia. fold dp. lia. }
  destruct (Z.ltb_spec (dp + j + e - 53) e) as [Hlt|Hge].
  - rewrite shl_shl by lia.
    replace (j + (e - (dp + j + e - 53))) with (53 - dp) by lia.
    rewrite <- (shl_0 (shl p (53 - dp))) at 1.
    rewrite binary_round_aux_exact by (try exact Hq; lia).
    f_equal. lia.
  - replace (shl p j) with (shl (shl p (53 - dp)) (j - (53 - dp))).
    2:{ rewrite shl_shl by lia. f_equal. lia. }
    rewrite binary_round_aux_exact by (try exact Hq; lia).
    f_equal. lia.
Qed.

Lemma digits_le p n : Zpos p < 2 ^ n -> 0 <= n -> Zpos (digits2_pos p) <= n.
Proof.
  intros Hp Hn.
  assert (Hs : digits2_pos p = Pos.size p).
  { clear. induction p; simpl; congruence. }
  rewrite Hs.
  pose proof (Pos.size_le p) as Hle.
  destruct (Z.le_gt_cases (Zpos (Pos.size p)) n) as [H|H]; [exact H|exfalso].
  assert (2 ^ (n + 1) <= 2 ^ Zpos (Pos.size p)) by (apply Z.pow_le_mono_r; lia).
  assert (Zpos (2 ^ Pos.size p) <= Zpos p~0) by (apply Pos2Z.pos_le_pos; exact Hle).
  rewrite Pos2Z.inj_pow in H1. rewrite Z.pow_add_r in H0 by lia. lia.
Qed.

(** The canonical binary64 form of a positive integer below [2^53+1],
    written as [shl p j] with [p] of at most 53 bits. *)
Lemma normalize_shl p j e :
  Zpos (digits2_pos p) <= 53 -> 0 <= j ->
  -1074 <= e + j + Zpos (digits2_pos p) - 53 <= 971 ->
  binary_normalize prec emax (Zpos (shl p j)) e false =
    S754_finite false (shl p (53 - Zpos (digits2_pos p)))
      (e + j + Zpos (digits2_pos p) - 53).
Proof. intros. unfold binary_normalize. apply binary_round_exact; assumption. Qed.

(** Every integer from 1 to [2^53] is [shl p j] for such a [p]. *)
Lemma small_int_shl k :
  1 <= k <= 2 ^ 53 ->
  exists p j, k = Zpos (shl p j) /\ Zpos (digits2_pos p) <= 53 /\ 0 <= j <= 53.
Proof.
  intros Hk. destruct (Z.eq_dec k (2 ^ 53)) as [->|Hne].
  - exists 1%positive, 53. split; [reflexivity|]. simpl. lia.
  - destruct k as [|p|p]; try lia.
    exists p, 0. split; [reflexivity|]. split; [|lia].
    apply digits_le; lia.
Qed.

Lemma SFadd_one p j :
  Zpos (digits2_pos p) <= 53 -> 0 <= j <= 53 ->
  SF64add
    (S754_finite false (shl p (53 - Zpos (digits2_pos p)))
       (0 + j + Zpos (digits2_pos p) - 53))
    (Prim2SF 1%float)
  = binary_normalize prec emax (Zpos (shl p j) + 1) 0 false
  \/ 2 ^ 53 < Zpos (shl p j) + 1.
Proof.
  intros Hd Hj.
  destruct (Z.le_gt_cases (Zpos (shl p j) + 1) (2 ^ 53)) as [Hle|Hgt]; [left|right; lia].
  set (dp := Zpos (digits2_pos p)) in *.
  assert (Hdp : 1 <= dp) by (subst dp; lia).
  change (Prim2SF 1%float) with (S754_finite false 4503599627370496 (-52)).
  unfold SF64add, SFadd.
  replace (Z.min (0 + j + dp - 53) (-52)) with (-52) by lia.
  rewrite !shl_align_eq.
  replace (-52 <? -52) with false by reflexivity.
  cbn [fst cond_Zopp].
  assert (Hx : Zpos (fst (if -52 <? 0 + j + dp - 53
                     then (shl (shl p (53 - dp)) (0 + j + dp - 53 - -52), -52)
                     else (shl p (53 - dp), 0 + j + dp - 53)))
               = Zpos (shl p j) * 2 ^ 52).
  { destruct (Z.ltb_spec (-52) (0 + j + dp - 53)) as [H|H]; cbn [fst].
    - rewrite shl_shl by lia. rewrite !Zpos_shl by lia.
      replace (53 - dp + (0 + j + dp - 53 - -52)) with (j + 52) by lia.
      rewrite Z.pow_add_r by lia. ring.
    - assert (j = 0) by lia. assert (dp = 1) by lia. subst j.
      rewrite !Zpos_shl by lia. replace (53 - dp) with 52 by lia.
      rewrite Z.pow_0_r. ring. }
  rewrite Hx.
  destruct (small_int_shl (Zpos (shl p j) + 1)) as (p' & j' & Hk & Hd' & Hj'); [lia|].
  rewrite Hk.
  replace (Zpos (shl p j) * 2 ^ 52 + 4503599627370496)
    with (Zpos (shl p' (j' + 52))).
  2:{ rewrite (Zpos_shl p' (j' + 52)) by lia. rewrite Z.pow_add_r by lia.
      rewrite Z.mul_assoc. rewrite <- (Zpos_shl p' j') by lia. rewrite <- Hk.
      change 4503599627370496 with (2 ^ 52). ring. }
  rewrite !normalize_shl by lia.
  f_equal. lia.
Qed.

Lemma of_Z_small k : 0 <= k < 2 ^ 63 -> Uint63.to_Z (Uint63.of_Z k) = k.
Proof.
  intros H. rewrite Uint63.of_Z_spec. apply Z.mod_small.
  change wB with (2 ^ 63). lia.
Qed.

Lemma float_succ k :
  0 <= k < 2 ^ 53 ->
  PrimFloat.add (of_uint63 (Uint63.of_Z k)) 1%float = of_uint63 (Uint63.of_Z (k + 1)).
Proof.
  intros Hk. apply Prim2SF_inj.
  rewrite FloatAxioms.add_spec, !of_uint63_spec.
  rewrite !of_Z_small by lia.
  destruct (Z.eq_dec k 0) as [->|Hk0]; [reflexivity|].
  destruct (small_int_shl k) as (p & j & Hp & Hd & Hj); [lia|].
  rewrite Hp at 1. rewrite normalize_shl by lia.
  destruct (SFadd_one p j Hd Hj) as [H|H]; [|lia].
  rewrite H, <- Hp. reflexivity.
Qed.

(** ** Properties of a single metric *)

Lemma size_list_to_set_remove_dups (l : list string) :
  size (list_to_set l : gset string) = length (remove_dups l).
Proof.
  rewrite <- (size_list_to_set (C := gset string) (remove_dups l))
    by apply NoDup_remove_dups.
  f_equal. apply set_eq. intros x.
  rewrite !elem_of_list_to_set, elem_of_remove_dups. reflexivity.
Qed.

Lemma AddUnique_sequence (w : World) (m : loc) (o : Metric) (values : list string) :
  metrics w !! m = Some o ->
  exists w' o',
    forEach values (AddUnique m) w = Ok tt w' /\
    metrics w' !! m = Some o' /\
    UniqueSet o' = list_to_set values ∪ UniqueSet o /\
    (values <> [] -> Count o' = Z.of_nat (size (UniqueSet o'))) /\
    Name o' = Name o /\ Type_ o' = Type_ o /\ Value o' = Value o /\
    Values o' = Values o.
Proof.
  intros Hm.
  destruct (forEach_update_metric withUnique m
              (fun pre o' =>
                 UniqueSet o' = list_to_set pre ∪ UniqueSet o /\
                 (pre <> [] -> Count o' = Z.of_nat (size (UniqueSet o'))) /\
                 Name o' = Name o /\ Type_ o' = Type_ o /\ Value o' = Value o /\
                 Values o' = Values o))
    with (xs := values) (pre := @nil string) (w := w) (o := o)
    as (w' & o' & Hrun & Hm' & HP & _).
  - intros pre x t o1 (HU & HC & HN & HT & HV & HVs).
    unfold withUnique. cbn [UniqueSet Count Name Type_ Value Values].
    split; [rewrite HU, list_to_set_app_L; set_solver|].
    repeat split; auto.
  - exact Hm.
  - simpl. split; [set_solver|]. repeat split; auto. congruence.
  - exists w', o'. split; [exact Hrun|]. split; [exact Hm'|]. exact HP.
Qed.

(** C7: a metric created by [NewMetric] and mutated only by [AddUnique] has,
    after any finite sequence of calls, a [Count] equal to the cardinality
    of its [UniqueSet], which is the number of distinct strings added; adding
    user_1, user_2, user_1, user_3, user_2 gives [Count = 3]. *)
Theorem C7_count_is_cardinality :
  (forall (w : World) (name : string) (ty : MetricType) (values : list string),
     exists m o w',
       (m <- NewMetric name ty ;; forEach values (AddUnique m) ;;; ret m) w
         = Ok m w' /\
       metrics w' !! m = Some o /\
       Type_ o = ty /\
       UniqueSet o = list_to_set values /\
       Count o = Z.of_nat (size (UniqueSet o)) /\
       Count o = Z.of_nat (length (remove_dups values))) /\
  (forall (w : World),
     exists m o w',
       (m <- NewMetric "unique_users" MetricTypeSet ;;
        forEach ["user_1"; "user_2"; "user_1"; "user_3"; "user_2"]%string
          (AddUnique m) ;;; ret m) w = Ok m w' /\
       metrics w' !! m = Some o /\ Count o = 3).
Proof.
  assert (Hgen : forall (w : World) (name : string) (ty : MetricType)
                   (values : list string),
     exists m o w',
       (m <- NewMetric name ty ;; forEach values (AddUnique m) ;;; ret m) w
         = Ok m w' /\
       metrics w' !! m = Some o /\
       Type_ o = ty /\
       UniqueSet o = list_to_set values /\
       Count o = Z.of_nat (size (UniqueSet o)) /\
       Count o = Z.of_nat (length (remove_dups values))).
  { intros w name ty values.
    pose proof (NewMetric_Ok name ty w) as Hnew.
    set (m := fresh (dom (metrics w))) in *.
    set (w1 := set_metrics _ _) in Hnew.
    destruct (AddUnique_sequence w1 m
                (mkMetric name ty 0%float 0 (clock w (reads w)) ∅ [] ∅) values)
      as (w' & o' & Hrun & Hm' & HU & HC & _ & HT & _).
    { subst w1. simpl. apply lookup_insert_eq. }
    exists m, o', w'.
    rewrite (bind_Ok _ _ _ _ _ Hnew), (bind_Ok _ _ _ _ _ Hrun).
    split; [reflexivity|]. split; [exact Hm'|]. split; [exact HT|].
    cbn [UniqueSet] in HU.
    assert (HU' : UniqueSet o' = list_to_set values) by (rewrite HU; set_solver).
    split; [exact HU'|].
    assert (HC' : Count o' = Z.of_nat (size (UniqueSet o'))).
    { destruct values as [|v vs]; [|apply HC; discriminate].
      simpl in Hrun. inversion Hrun; subst w'.
      subst w1. simpl in Hm'.
      rewrite lookup_insert_eq in Hm'. inversion Hm'. reflexivity. }
    split; [exact HC'|].
    rewrite HC', HU', size_list_to_set_remove_dups. reflexivity. }
  split; [exact Hgen|].
  intros w.
  destruct (Hgen w "unique_users"%string MetricTypeSet
              ["user_1"; "user_2"; "user_1"; "user_3"; "user_2"]%string)
    as (m & o & w' & Hrun & Hm & _ & _ & _ & HC).
  exists m, o, w'. split; [exact Hrun|]. split; [exact Hm|].
  rewrite HC. vm_compute. reflexivity.
Qed.

Lemma float64_of_int64_nonneg k :
  0 <= k -> float64_of_int64 k = of_uint63 (Uint63.of_Z k).
Proof.
  intros Hk. unfold float64_of_int64.
  destruct (Z.eqb_spec k (- 2 ^ 63)) as [E|_]; [lia|].
  destruct (Z.ltb_spec k 0); [lia|reflexivity].
Qed.

Lemma Increment_sequence (w : World) (m : loc) (o : Metric) (n : nat) :
  metrics w !! m = Some o ->
  Count o = 0 -> Value o = 0%float -> Z.of_nat n <= 2 ^ 53 ->
  exists w' o',
    repeatM n (Increment m) w = Ok tt w' /\
    metrics w' !! m = Some o' /\
    Count o' = Z.of_nat n /\
    Value o' = float64_of_int64 (Z.of_nat n) /\
    Name o' = Name o /\ Type_ o' = Type_ o.
Proof.
  intros Hm HC HV Hn.
  rewrite repeatM_forEach.
  destruct (forEach_update_metric (fun _ : unit => incremented) m
              (fun pre o' =>
                 Z.of_nat (length pre) <= 2 ^ 53 ->
                 Count o' = Z.of_nat (length pre) /\
                 Value o' = float64_of_int64 (Z.of_nat (length pre)) /\
                 Name o' = Name o /\ Type_ o' = Type_ o))
    with (xs := replicate n tt) (pre := @nil unit) (w := w) (o := o)
    as (w' & o' & Hrun & Hm' & HP & _).
  - intros pre x t o1 IH Hlen.
    rewrite length_app in Hlen. simpl in Hlen.
    destruct IH as (HC1 & HV1 & HN1 & HT1); [lia|].
    unfold incremented. cbn [Count Value Name Type_].
    rewrite length_app. simpl.
    split.
    { rewrite HC1, int64_small by lia. lia. }
    split; [|auto].
    rewrite HV1, !float64_of_int64_nonneg by lia.
    rewrite float_succ by lia.
    do 2 f_equal. lia.
  - exact Hm.
  - intros _. simpl. rewrite HC, HV. repeat split; reflexivity.
  - exists w', o'. split; [exact Hrun|]. split; [exact Hm'|].
    simpl in HP. rewrite length_replicate in HP. apply HP. exact Hn.
Qed.

(** C10: on a metric fresh from [NewMetric], [n] calls to [Increment] give
    [Count = n] and [Value = n] (for [n] up to [2^53], the range in which
    binary64 counts exactly); [IncrementBy(v)] adds [v] to [Value] and 1 to
    [Count]; [Set(v)] assigns [Value] and keeps [Count]; [Average] is
    [Value / Count], and 0 when [Count] is 0. *)
Theorem C10_metric_arithmetic (w : World) (name : string) (ty : MetricType)
    (n : nat) (m : loc) (o : Metric) (v : float)
    (Hn : Z.of_nat n <= 2 ^ 53)
    (Hm : metrics w !! m = Some o)
    (Hc : - 2 ^ 63 <= Count o < 2 ^ 63 - 1) :
  (exists m0 o0 w',
     (m0 <- NewMetric name ty ;; repeatM n (Increment m0) ;;; ret m0) w
       = Ok m0 w' /\
     metrics w' !! m0 = Some o0 /\
     Count o0 = Z.of_nat n /\
     Value o0 = float64_of_int64 (Z.of_nat n)) /\
  (exists w' o',
     IncrementBy m v w = Ok tt w' /\ metrics w' !! m = Some o' /\
     Value o' = PrimFloat.add (Value o) v /\ Count o' = Count o + 1) /\
  (exists w' o',
     Set_ m v w = Ok tt w' /\ metrics w' !! m = Some o' /\
     Value o' = v /\ Count o' = Count o) /\
  Average m w =
    Ok (if Count o =? 0 then 0%float
        else PrimFloat.div (Value o) (float64_of_int64 (Count o))) w.
Proof.
  split; [|split; [|split]].
  - pose proof (NewMetric_Ok name ty w) as Hnew.
    set (m0 := fresh (dom (metrics w))) in *.
    set (w1 := set_metrics _ _) in Hnew.
    destruct (Increment_sequence w1 m0
                (mkMetric name ty 0%float 0 (clock w (reads w)) ∅ [] ∅) n)
      as (w' & o' & Hrun & Hm' & HC & HV & _); try reflexivity; try exact Hn.
    { subst w1. simpl. apply lookup_insert_eq. }
    exists m0, o', w'.
    rewrite (bind_Ok _ _ _ _ _ Hnew), (bind_Ok _ _ _ _ _ Hrun).
    repeat split; assumption.
  - rewrite IncrementBy_update, (update_metric_Ok _ _ _ _ Hm).
    eexists _, _. split; [reflexivity|]. simpl. rewrite lookup_insert_eq.
    split; [reflexivity|]. unfold incrementedBy. cbn [Value Count].
    split; [reflexivity|]. apply int64_small. lia.
  - rewrite Set_update, (update_metric_Ok _ _ _ _ Hm).
    eexists _, _. split; [reflexivity|]. simpl. rewrite lookup_insert_eq.
    split; [reflexivity|]. split; reflexivity.
  - unfold Average, bind, load_metric. rewrite Hm.
    destruct (Count o =? 0); reflexivity.
Qed.

(** The scenario of the unit test: ten increments of a fresh counter, in a
    world that already holds a gauge. *)
Lemma C10_metric_arithmetic_witness :
  let g := mkMetric "g" MetricTypeGauge 0%float 0 0 ∅ [] ∅ in
  let w := set_metrics (<[0%nat := g]> ∅) (emptyWorld (fun _ => 0)) in
  (exists m0 o0 w',
     (m0 <- NewMetric "c" MetricTypeCounter ;; repeatM 10 (Increment m0) ;;; ret m0) w
       = Ok m0 w' /\
     metrics w' !! m0 = Some o0 /\ Count o0 = 10 /\ Value o0 = 10%float) /\
  (exists w' o',
     IncrementBy 0%nat 2.5%float w = Ok tt w' /\ metrics w' !! 0%nat = Some o' /\
     Value o' = 2.5%float /\ Count o' = 1).
Proof.
  intros g w.
  destruct (C10_metric_arithmetic w "c" MetricTypeCounter 10 0%nat g 2.5%float)
    as ((m0 & o0 & w' & Hrun & Hm & HC & HV) & (w2 & o2 & Hrun2 & Hm2 & HV2 & HC2) & _).
  - vm_compute. discriminate.
  - reflexivity.
  - simpl. lia.
  - split.
    + exists m0, o0, w'. repeat split; assumption.
    + exists w2, o2. repeat split; assumption.
Defined.

(** ** Snapshots: the store and its content *)

Lemma same_frame_refl w : same_frame w w.
Proof. repeat split. Qed.

Lemma same_frame_trans w1 w2 w3 :
  same_frame w1 w2 -> same_frame w2 w3 -> same_frame w1 w3.
Proof.
  intros (A1 & A2 & A3 & A4) (B1 & B2 & B3 & B4).
  repeat split; congruence.
Qed.

Lemma stamp_only_incremented : stamp_only incremented.
Proof. intros t o. reflexivity. Qed.
Lemma stamp_only_incrementedBy v : stamp_only (incrementedBy v).
Proof. intros t o. reflexivity. Qed.
Lemma stamp_only_assigned v : stamp_only (assigned v).
Proof. intros t o. reflexivity. Qed.
Lemma stamp_only_observed v : stamp_only (observed v).
Proof. intros t o. reflexivity. Qed.
Lemma stamp_only_withUnique v : stamp_only (withUnique v).
Proof. intros t o. reflexivity. Qed.

Lemma content_lookup w s ms n :
  snapshots w !! s = Some ms ->
  content w s !! n =
    match Metrics ms !! n with
    | Some l => erase <$> metrics w !! l
    | None => None
    end.
Proof.
  intros Hs. unfold content. rewrite Hs, lookup_omap.
  destruct (Metrics ms !! n); reflexivity.
Qed.

Lemma content_metric_of w s n : content w s !! n = erase <$> metric_of w s n.
Proof.
  unfold metric_of. destruct (snapshots w !! s) as [ms|] eqn:Hs.
  - rewrite (content_lookup _ _ _ _ Hs). destruct (Metrics ms !! n); reflexivity.
  - unfold content. rewrite Hs. apply lookup_empty.
Qed.

Lemma GetMetric_found w s ms n k l :
  snapshots w !! s = Some ms -> Metrics ms !! n = Some l ->
  GetMetric s n k w = Ok l w.
Proof.
  intros Hs Hn. unfold GetMetric, bind, load_snapshot. rewrite Hs, Hn. reflexivity.
Qed.

Lemma GetMetric_created w s ms n k :
  snapshots w !! s = Some ms -> Metrics ms !! n = None ->
  GetMetric s n k w =
    Ok (fresh (dom (metrics w)))
       (set_snapshots
          (<[s := mkMetricsSnapshot
                    (<[n := fresh (dom (metrics w))]> (Metrics ms))
                    (ms_Timestamp ms)]> (snapshots w))
          (set_metrics
             (<[fresh (dom (metrics w)) :=
                  mkMetric n k 0%float 0 (clock w (reads w)) ∅ [] ∅]> (metrics w))
             (set_reads (S (reads w)) w))).
Proof.
  intros Hs Hn. unfold GetMetric, bind, load_snapshot. rewrite Hs, Hn. reflexivity.
Qed.

Lemma GetMetric_Panic w s n k :
  snapshots w !! s = None -> GetMetric s n k w = Panic w.
Proof.
  intros Hs. unfold GetMetric, bind, load_snapshot. rewrite Hs. reflexivity.
Qed.

(** [GetMetric] on the content of the snapshots. *)
Lemma GetMetric_spec w s ms n k :
  heap_wf w -> snapshots w !! s = Some ms ->
  exists l w' ms',
    GetMetric s n k w = Ok l w' /\
    heap_wf w' /\
    snapshots w' !! s = Some ms' /\ Metrics ms' !! n = Some l /\
    ms_Timestamp ms' = ms_Timestamp ms /\
    content w' s = touch n k id (content w s) /\
    (forall s', s' <> s ->
       snapshots w' !! s' = snapshots w !! s' /\ content w' s' = content w s') /\
    dom (snapshots w') = dom (snapshots w) /\
    same_frame w w'.
Proof.
  intros [HA HB] Hs.
  destruct (Metrics ms !! n) as [l|] eqn:Hn.
  - exists l, w, ms. rewrite (GetMetric_found _ _ _ _ _ _ Hs Hn).
    split; [reflexivity|]. split; [split; assumption|].
    split; [exact Hs|]. split; [exact Hn|]. split; [reflexivity|].
    split.
    { unfold touch. destruct (HA _ _ _ _ Hs Hn) as [o Ho].
      assert (Hc : content w s !! n = Some (erase o)).
      { rewrite (content_lookup _ _ _ _ Hs), Hn, Ho. reflexivity. }
      rewrite Hc. simpl. symmetry. apply insert_id. exact Hc. }
    split; [intros; split; reflexivity|].
    split; [reflexivity|apply same_frame_refl].
  - rewrite (GetMetric_created _ _ _ _ _ Hs Hn).
    set (l := fresh (dom (metrics w))).
    set (o := mkMetric n k 0%float 0 (clock w (reads w)) ∅ [] ∅).
    set (ms' := mkMetricsSnapshot (<[n := l]> (Metrics ms)) (ms_Timestamp ms)).
    set (w' := set_snapshots _ _).
    assert (Hl : metrics w !! l = None) by apply fresh_metric_None.
    assert (Hold : forall s0 ms0 n0 l0,
               snapshots w !! s0 = Some ms0 -> Metrics ms0 !! n0 = Some l0 ->
               l0 <> l).
    { intros s0 ms0 n0 l0 H1 H2 ->. destruct (HA _ _ _ _ H1 H2) as [x Hx]. congruence. }
    assert (Hsn : forall s0, snapshots w' !! s0 =
               if decide (s = s0) then Some ms' else snapshots w !! s0).
    { intros s0. subst w'. simpl. apply lookup_insert. }
    assert (Hmt : forall l0, metrics w' !! l0 =
               if decide (l = l0) then Some o else metrics w !! l0).
    { intros l0. subst w'. simpl. apply lookup_insert. }
    exists l, w', ms'.
    split; [reflexivity|].
    split.
    { split.
      - intros s0 ms0 n0 l0 H1 H2. rewrite Hsn in H1. rewrite Hmt.
        destruct (decide (l = l0)); [eauto|].
        destruct (decide (s = s0)) as [->|].
        + inversion H1; subst ms0. subst ms'. simpl in H2.
          rewrite lookup_insert in H2. destruct (decide (n = n0)); [congruence|].
          eapply HA; eauto.
        + eapply HA; eauto.
      - intros s1 ms1 n1 s2 ms2 n2 l0 H1 H2 H3 H4.
        rewrite Hsn in H1, H3.
        assert (Hcase : forall s0 ms0 n0,
                  (if decide (s = s0) then Some ms' else snapshots w !! s0) = Some ms0 ->
                  Metrics ms0 !! n0 = Some l0 ->
                  (l0 = l /\ s0 = s /\ n0 = n) \/
                  (l0 <> l /\ exists ms00, snapshots w !! s0 = Some ms00 /\
                                            Metrics ms00 !! n0 = Some l0)).
        { intros s0 ms0 n0 G1 G2. destruct (decide (s = s0)) as [<-|Hne].
          - inversion G1; subst ms0. subst ms'. simpl in G2.
            rewrite lookup_insert in G2. destruct (decide (n = n0)) as [<-|].
            + left. inversion G2. auto.
            + right. split; [eapply Hold; eauto|]. eauto.
          - right. split; [eapply Hold; eauto|]. eauto. }
        destruct (Hcase _ _ _ H1 H2) as [(E1 & E2 & E3)|(N1 & m1 & G1 & G2)];
          destruct (Hcase _ _ _ H3 H4) as [(F1 & F2 & F3)|(N2 & m2 & G3 & G4)];
          try congruence.
        + subst. auto.
        + eapply HB; eauto. }
    split; [rewrite Hsn; rewrite decide_True by reflexivity; reflexivity|].
    split; [subst ms'; simpl; apply lookup_insert_eq|].
    split; [reflexivity|].
    split.
    { unfold touch.
      assert (Hc : content w s !! n = None).
      { rewrite (content_lookup _ _ _ _ Hs), Hn. reflexivity. }
      rewrite Hc. simpl. apply map_eq. intros n0.
      rewrite (content_lookup w' s ms') by (rewrite Hsn, decide_True by reflexivity; reflexivity).
      subst ms'. simpl. rewrite !lookup_insert.
      destruct (decide (n = n0)) as [<-|Hne].
      - rewrite Hmt, decide_True by reflexivity. reflexivity.
      - rewrite (content_lookup _ _ _ _ Hs).
        destruct (Metrics ms !! n0) as [l0|] eqn:Hn0; [|reflexivity].
        rewrite Hmt, decide_False; [reflexivity|].
        intros E. eapply Hold; eauto. }
    split.
    { intros s' Hne. rewrite Hsn, decide_False by congruence.
      split; [reflexivity|].
      unfold content. rewrite Hsn, decide_False by congruence.
      destruct (snapshots w !! s') as [ms0|] eqn:Hs0; [|reflexivity].
      apply map_eq. intros n0. rewrite !lookup_omap.
      destruct (Metrics ms0 !! n0) as [l0|] eqn:Hn0; [|reflexivity].
      simpl. rewrite Hmt, decide_False; [reflexivity|].
      intros E. eapply Hold; eauto. }
    split.
    { subst w'. simpl. rewrite dom_insert_L.
      assert (s ∈ dom (snapshots w)) by (apply elem_of_dom; eauto).
      set_solver. }
    repeat split.
Qed.

(** A mutation of a metric held under [n] by the snapshot [s], on the
    content of the snapshots. *)
Lemma update_metric_spec f w s ms n l :
  stamp_only f ->
  heap_wf w -> snapshots w !! s = Some ms -> Metrics ms !! n = Some l ->
  exists w',
    update_metric f l w = Ok tt w' /\
    heap_wf w' /\
    snapshots w' = snapshots w /\
    content w' s = alter (f 0) n (content w s) /\
    (forall s', s' <> s -> content w' s' = content w s') /\
    same_frame w w'.
Proof.
  intros Hf [HA HB] Hs Hn.
  destruct (HA _ _ _ _ Hs Hn) as [o Ho].
  rewrite (update_metric_Ok _ _ _ _ Ho).
  set (w' := set_metrics _ _).
  assert (Hmt : forall l0, metrics w' !! l0 =
             if decide (l = l0) then Some (f (clock w (reads w)) o)
             else metrics w !! l0).
  { intros l0. subst w'. simpl. apply lookup_insert. }
  exists w'. split; [reflexivity|].
  split.
  { split.
    - intros s0 ms0 n0 l0 H1 H2. rewrite Hmt.
      destruct (decide (l = l0)); [eauto|]. eapply HA; eauto.
    - exact HB. }
  split; [reflexivity|].
  split.
  { apply map_eq. intros n0.
    rewrite (content_lookup w' s ms n0 Hs). rewrite lookup_alter.
    rewrite (content_lookup w s ms n0 Hs).
    destruct (decide (n = n0)) as [<-|Hne].
    - rewrite Hn, Hmt, decide_True by reflexivity.
      rewrite (content_lookup w s ms n Hs), Hn, Ho. simpl.
      rewrite Hf. reflexivity.
    - destruct (Metrics ms !! n0) as [l0|] eqn:Hn0; [|reflexivity].
      rewrite Hmt, decide_False; [reflexivity|].
      intros <-. destruct (HB _ _ _ _ _ _ _ Hs Hn Hs Hn0). congruence. }
  split.
  { intros s' Hne. unfold content. change (snapshots w') with (snapshots w).
    destruct (snapshots w !! s') as [ms0|] eqn:Hs0; [|reflexivity].
    apply map_eq. intros n0. rewrite !lookup_omap.
    destruct (Metrics ms0 !! n0) as [l0|] eqn:Hn0; [|reflexivity].
    simpl. rewrite Hmt, decide_False; [reflexivity|].
    intros <-. destruct (HB _ _ _ _ _ _ _ Hs Hn Hs0 Hn0). congruence. }
  repeat split.
Qed.

(** ** [GetMetric] returns the metric first created under a name *)

Lemma update_metric_keeps f m w w' :
  (forall t o, Type_ (f t o) = Type_ o) ->
  update_metric f m w = Ok tt w' ->
  snapshots w' = snapshots w /\
  (forall l o, metrics w !! l = Some o ->
     exists o', metrics w' !! l = Some o' /\ Type_ o' = Type_ o).
Proof.
  intros Hf Hrun.
  destruct (metrics w !! m) as [o|] eqn:Hm.
  - rewrite (update_metric_Ok _ _ _ _ Hm) in Hrun. inversion Hrun; subst w'.
    split; [reflexivity|]. intros l o0 Hl. simpl. rewrite lookup_insert.
    destruct (decide (m = l)) as [<-|].
    + eexists. split; [reflexivity|]. rewrite Hf. congruence.
    + eauto.
  - rewrite (update_metric_Panic _ _ _ Hm) in Hrun. discriminate.
Qed.

Lemma client_do_keeps c w w' ms s name m :
  client_do c w = Ok tt w' ->
  snapshots w !! ms = Some s -> Metrics s !! name = Some m ->
  (exists s', snapshots w' !! ms = Some s' /\ Metrics s' !! name = Some m) /\
  (forall o, metrics w !! m = Some o ->
     exists o', metrics w' !! m = Some o' /\ Type_ o' = Type_ o).
Proof.
  intros Hrun Hs Hn.
  assert (Hupd : forall f m0,
            (forall t o, Type_ (f t o) = Type_ o) ->
            update_metric f m0 w = Ok tt w' ->
            (exists s', snapshots w' !! ms = Some s' /\ Metrics s' !! name = Some m) /\
            (forall o, metrics w !! m = Some o ->
               exists o', metrics w' !! m = Some o' /\ Type_ o' = Type_ o)).
  { intros f m0 Hf Hu. destruct (update_metric_keeps _ _ _ _ Hf Hu) as [E K].
    split; [rewrite E; eauto|]. intros o Ho. eapply K; eauto. }
  destruct c as [ms0 name0 ty|m0|m0 v|m0 v|m0 v|m0 v]; simpl in Hrun;
    try (eapply Hupd; [|exact Hrun]; intros; reflexivity).
  apply bind_Ok_inv in Hrun as (l & w1 & Hget & Hret).
  inversion Hret; subst w1. clear Hret.
  destruct (snapshots w !! ms0) as [s0|] eqn:Hs0;
    [|rewrite (GetMetric_Panic _ _ _ _ Hs0) in Hget; discriminate].
  destruct (Metrics s0 !! name0) as [l0|] eqn:Hn0.
  - rewrite (GetMetric_found _ _ _ _ _ _ Hs0 Hn0) in Hget.
    inversion Hget; subst. split; eauto.
  - rewrite (GetMetric_created _ _ _ _ _ Hs0 Hn0) in Hget.
    inversion Hget; subst w'. simpl. split.
    + rewrite lookup_insert. destruct (decide (ms0 = ms)) as [->|].
      * eexists. split; [reflexivity|]. simpl.
        rewrite Hs in Hs0. inversion Hs0; subst s0.
        rewrite lookup_insert_ne; [exact Hn|]. congruence.
      * eauto.
    + intros o Ho. rewrite lookup_insert_ne; [eauto|].
      intros E. pose proof (fresh_metric_None w) as Hf. rewrite E in Hf. congruence.
Qed.

Lemma client_calls_keep calls : forall w w' ms s name m,
  forEach calls client_do w = Ok tt w' ->
  snapshots w !! ms = Some s -> Metrics s !! name = Some m ->
  (exists s', snapshots w' !! ms = Some s' /\ Metrics s' !! name = Some m) /\
  (forall o, metrics w !! m = Some o ->
     exists o', metrics w' !! m = Some o' /\ Type_ o' = Type_ o).
Proof.
  induction calls as [|c calls IH]; intros w w' ms s name m Hrun Hs Hn.
  - simpl in Hrun. inversion Hrun; subst. split; eauto.
  - simpl in Hrun. apply bind_Ok_inv in Hrun as ([] & w1 & Hc & Hrest).
    destruct (client_do_keeps _ _ _ _ _ _ _ Hc Hs Hn) as [(s1 & Hs1 & Hn1) K1].
    destruct (IH _ _ _ _ _ _ Hrest Hs1 Hn1) as [E2 K2].
    split; [exact E2|]. intros o Ho.
    destruct (K1 _ Ho) as (o1 & Ho1 & T1).
    destruct (K2 _ Ho1) as (o2 & Ho2 & T2).
    exists o2. split; [exact Ho2|congruence].
Qed.

(** C8: after [GetMetric(name, k1)] has returned the metric [m], a later
    [GetMetric(name, k2)], directly or after any calls on metrics and
    snapshots that return, returns the same pointer [m] and leaves the
    world, hence the metric map and the kind of [m], as it was; the kind of
    [m] is [k1] when the first call created it. *)
Theorem C8_GetMetric_idempotent (w : World) (ms : loc) (s : MetricsSnapshot)
    (name : string) (k1 k2 : MetricType)
    (Hs : snapshots w !! ms = Some s) :
  exists m w1,
    GetMetric ms name k1 w = Ok m w1 /\
    GetMetric ms name k2 w1 = Ok m w1 /\
    (Metrics s !! name = None ->
       exists o, metrics w1 !! m = Some o /\ Type_ o = k1 /\ Name o = name) /\
    (forall calls w2,
       forEach calls client_do w1 = Ok tt w2 ->
       GetMetric ms name k2 w2 = Ok m w2 /\
       (forall o, metrics w1 !! m = Some o ->
          exists o2, metrics w2 !! m = Some o2 /\ Type_ o2 = Type_ o)).
Proof.
  assert (Hfirst : exists m w1 s1,
            GetMetric ms name k1 w = Ok m w1 /\
            snapshots w1 !! ms = Some s1 /\ Metrics s1 !! name = Some m /\
            (Metrics s !! name = None ->
               exists o, metrics w1 !! m = Some o /\ Type_ o = k1 /\ Name o = name)).
  { destruct (Metrics s !! name) as [l|] eqn:Hn.
    - exists l, w, s. rewrite (GetMetric_found _ _ _ _ _ _ Hs Hn).
      repeat split; auto. discriminate.
    - rewrite (GetMetric_created _ _ _ _ _ Hs Hn).
      eexists _, _, _. split; [reflexivity|]. simpl.
      split; [apply lookup_insert_eq|]. simpl.
      split; [apply lookup_insert_eq|].
      intros _. eexists. split; [apply lookup_insert_eq|]. split; reflexivity. }
  destruct Hfirst as (m & w1 & s1 & Hrun & Hs1 & Hn1 & Hkind).
  exists m, w1. split; [exact Hrun|].
  split; [apply (GetMetric_found _ _ _ _ _ _ Hs1 Hn1)|].
  split; [exact Hkind|].
  intros calls w2 Hcalls.
  destruct (client_calls_keep _ _ _ _ _ _ _ Hcalls Hs1 Hn1) as [(s2 & Hs2 & Hn2) K].
  split; [apply (GetMetric_found _ _ _ _ _ _ Hs2 Hn2)|exact K].
Qed.

Lemma C8_GetMetric_idempotent_witness :
  let w := set_snapshots (<[0%nat := mkMetricsSnapshot ∅ 0]> ∅)
             (emptyWorld (fun _ => 0)) in
  exists m w1,
    GetMetric 0%nat "pageviews" MetricTypeCounter w = Ok m w1 /\
    GetMetric 0%nat "pageviews" MetricTypeGauge w1 = Ok m w1 /\
    (exists o, metrics w1 !! m = Some o /\ Type_ o = MetricTypeCounter).
Proof.
  intros w.
  destruct (C8_GetMetric_idempotent w 0%nat (mkMetricsSnapshot ∅ 0)
              "pageviews" MetricTypeCounter MetricTypeGauge)
    as (m & w1 & H1 & H2 & H3 & _).
  - reflexivity.
  - exists m, w1. split; [exact H1|]. split; [exact H2|].
    destruct H3 as (o & Ho & Ht & _); [reflexivity|]. eauto.
Defined.

(** ** The window manager *)

Lemma load_window_Ok w l tw : windows w !! l = Some tw -> load_window l w = Ok tw w.
Proof. intros H. unfold load_window. rewrite H. reflexivity. Qed.

Lemma load_manager_Ok w l m : managers w !! l = Some m -> load_manager l w = Ok m w.
Proof. intros H. unfold load_manager. rewrite H. reflexivity. Qed.

Lemma Close_Ok w l tw :
  windows w !! l = Some tw ->
  Close l w = Ok tt (set_windows (<[l := closed_copy tw]> (windows w)) w).
Proof. intros H. unfold Close, bind, load_window. rewrite H. reflexivity. Qed.

Lemma allocated_cons w l ws :
  allocated w (l :: ws) -> is_Some (windows w !! l) /\ allocated w ws.
Proof.
  intros H. split; [apply H; left|]. intros x Hx. apply H. right. exact Hx.
Qed.

Lemma findWindow_Ok ws start w :
  allocated w ws ->
  findWindow ws start w = Ok (List.find (matches w start) ws) w.
Proof.
  induction ws as [|l ws IH]; intros Hall; [reflexivity|].
  apply allocated_cons in Hall as [[tw Htw] Hall].
  simpl. rewrite (bind_Ok _ _ _ _ _ (load_window_Ok _ _ _ Htw)).
  unfold matches at 1. rewrite Htw.
  destruct (Equal (StartTime tw) start && negb (Closed tw)); [reflexivity|].
  apply IH. exact Hall.
Qed.

Lemma matches_true w start l :
  matches w start l = true <->
  exists tw, windows w !! l = Some tw /\ StartTime tw = start /\ Closed tw = false.
Proof.
  unfold matches, Equal. destruct (windows w !! l) as [tw|]; split.
  - intros H. apply andb_true_iff in H as [H1 H2]. apply Z.eqb_eq in H1.
    apply negb_true_iff in H2. eauto.
  - intros (tw' & E & H1 & H2). inversion E; subst tw'.
    apply andb_true_iff. split; [apply Z.eqb_eq; exact H1|].
    apply negb_true_iff. exact H2.
  - discriminate.
  - intros (tw' & E & _). discriminate.
Qed.

Lemma GetOrCreateWindow_Ok wm m t w :
  managers w !! wm = Some m -> allocated w (Windows m) ->
  GetOrCreateWindow wm t w =
    match List.find (matches w (Truncate t (duration m))) (Windows m) with
    | Some l => Ok l w
    | None => Ok (fresh (dom (windows w)))
                (with_new_window wm m (Truncate t (duration m)) w)
    end.
Proof.
  intros Hm Hall. unfold GetOrCreateWindow.
  rewrite (bind_Ok _ _ _ _ _ (load_manager_Ok _ _ _ Hm)).
  rewrite (bind_Ok _ _ _ _ _ (findWindow_Ok _ _ _ Hall)).
  destruct (List.find _ _); reflexivity.
Qed.

Lemma closeLoop_spec t ws : forall acc w,
  allocated w ws ->
  exists closed w',
    closeLoop ws t acc w = Ok (acc ++ closed) w' /\
    w' = set_windows (windows w') w /\
    (forall l, windows w' !! l =
       match windows w !! l with
       | Some tw => Some (if decide (l ∈ closed) then closed_copy tw else tw)
       | None => None
       end) /\
    (forall l, l ∈ closed <-> l ∈ ws /\ expired w t l = true) /\
    NoDup closed /\ sublist closed ws.
Proof.
  induction ws as [|l ws IH]; intros acc w Hall.
  - exists [], w. simpl. rewrite app_nil_r. split; [reflexivity|].
    split; [destruct w; reflexivity|].
    split.
    { intros l. destruct (windows w !! l); reflexivity. }
    split; [intros l; split; [intros H; inversion H|intros [H _]; inversion H]|].
    split; [constructor|constructor].
  - apply allocated_cons in Hall as [[tw Htw] Hall].
    simpl. rewrite (bind_Ok _ _ _ _ _ (load_window_Ok _ _ _ Htw)).
    destruct (ShouldClose tw t) eqn:Hsc.
    + rewrite (bind_Ok _ _ _ _ _ (Close_Ok _ _ _ Htw)).
      set (w1 := set_windows _ w).
      assert (Hw1 : forall x, windows w1 !! x =
                if decide (l = x) then Some (closed_copy tw) else windows w !! x).
      { intros x. subst w1. simpl. apply lookup_insert. }
      destruct (IH (acc ++ [l]) w1) as (closed & w' & Hrun & Hfr & Hwin & Hmem & Hnd & Hsub).
      { intros x Hx. rewrite Hw1. destruct (decide (l = x)); [eauto|apply Hall; exact Hx]. }
      assert (Hl : l ∉ closed).
      { intros Hin. apply Hmem in Hin as [_ He]. unfold expired in He.
        rewrite Hw1, decide_True in He by reflexivity.
        unfold ShouldClose, closed_copy in He. simpl in He. discriminate. }
      exists (l :: closed), w'. rewrite Hrun, <- app_assoc.
      split; [reflexivity|].
      split; [rewrite Hfr; subst w1; reflexivity|].
      split.
      { intros x. rewrite Hwin, Hw1.
        destruct (decide (l = x)) as [<-|Hne].
        - rewrite Htw. rewrite decide_False by exact Hl.
          rewrite decide_True by left. reflexivity.
        - destruct (windows w !! x) as [tx|]; [|reflexivity].
          destruct (decide (x ∈ closed)) as [Hin|Hnin].
          + rewrite decide_True by (right; exact Hin). reflexivity.
          + rewrite decide_False; [reflexivity|].
            intros Hc. apply elem_of_cons in Hc as [->|Hc]; congruence. }
      split.
      { intros x. rewrite elem_of_cons, Hmem. unfold expired. rewrite Hw1.
        destruct (decide (l = x)) as [<-|Hne].
        - rewrite Htw, Hsc. split; [intros _; split; [left|reflexivity]|auto].
        - rewrite elem_of_cons. split.
          + intros [->|[H1 H2]]; [congruence|]. auto.
          + intros [[->|H1] H2]; [congruence|]. auto. }
      split; [constructor; assumption|].
      constructor. exact Hsub.
    + destruct (IH acc w Hall) as (closed & w' & Hrun & Hfr & Hwin & Hmem & Hnd & Hsub).
      exists closed, w'. split; [exact Hrun|]. split; [exact Hfr|].
      split; [exact Hwin|].
      split.
      { intros x. rewrite Hmem, elem_of_cons. split.
        - intros [H1 H2]; auto.
        - intros [[->|H1] H2]; [|auto].
          unfold expired in H2. rewrite Htw in H2. congruence. }
      split; [exact Hnd|]. apply sublist_cons. exact Hsub.
Qed.

Lemma cleanupLoop_Ok now keep ws : forall acc w,
  allocated w ws ->
  cleanupLoop ws now keep acc w = Ok (acc ++ List.filter (kept w now keep) ws) w.
Proof.
  induction ws as [|l ws IH]; intros acc w Hall.
  - simpl. rewrite app_nil_r. reflexivity.
  - apply allocated_cons in Hall as [[tw Htw] Hall].
    simpl. rewrite (bind_Ok _ _ _ _ _ (load_window_Ok _ _ _ Htw)).
    unfold kept at 1. rewrite Htw.
    destruct (negb (Closed tw) || (Sub now (EndTime tw) <? keep)).
    + rewrite IH by exact Hall. rewrite <- app_assoc. reflexivity.
    + apply IH. exact Hall.
Qed.

Lemma activeLoop_Ok ws : forall acc w,
  allocated w ws ->
  activeLoop ws acc w = Ok (acc ++ List.filter (open_window w) ws) w.
Proof.
  induction ws as [|l ws IH]; intros acc w Hall.
  - simpl. rewrite app_nil_r. reflexivity.
  - apply allocated_cons in Hall as [[tw Htw] Hall].
    simpl. rewrite (bind_Ok _ _ _ _ _ (load_window_Ok _ _ _ Htw)).
    unfold open_window at 1. rewrite Htw.
    destruct (negb (Closed tw)).
    + rewrite IH by exact Hall. rewrite <- app_assoc. reflexivity.
    + apply IH. exact Hall.
Qed.

Lemma Cleanup_Ok wm m keep w :
  managers w !! wm = Some m -> allocated w (Windows m) ->
  Cleanup wm keep w =
    Ok tt (set_managers
             (<[wm := mkWindowManager
                        (List.filter (kept w (clock w (reads w)) keep) (Windows m))
                        (duration m)]> (managers w))
             (set_reads (S (reads w)) w)).
Proof.
  intros Hm Hall. unfold Cleanup.
  rewrite (bind_Ok _ _ _ _ _ (load_manager_Ok _ _ _ Hm)).
  unfold bind at 1. unfold timeNow.
  rewrite (bind_Ok _ _ _ _ _ (cleanupLoop_Ok _ _ _ [] (set_reads (S (reads w)) w) Hall)).
  reflexivity.
Qed.

Lemma CloseExpiredWindows_spec wm m t w :
  managers w !! wm = Some m -> allocated w (Windows m) ->
  exists closed w',
    CloseExpiredWindows wm t w = Ok closed w' /\
    w' = set_windows (windows w') w /\
    (forall l, windows w' !! l =
       match windows w !! l with
       | Some tw => Some (if decide (l ∈ closed) then closed_copy tw else tw)
       | None => None
       end) /\
    (forall l, l ∈ closed <-> l ∈ Windows m /\ expired w t l = true) /\
    NoDup closed /\ sublist closed (Windows m).
Proof.
  intros Hm Hall. unfold CloseExpiredWindows.
  rewrite (bind_Ok _ _ _ _ _ (load_manager_Ok _ _ _ Hm)).
  destruct (closeLoop_spec t (Windows m) [] w Hall) as (closed & w' & Hrun & H).
  exists closed, w'. split; [exact Hrun|exact H].
Qed.

Lemma GetActiveWindows_Ok wm m w :
  managers w !! wm = Some m -> allocated w (Windows m) ->
  GetActiveWindows wm w = Ok (List.filter (open_window w) (Windows m)) w.
Proof.
  intros Hm Hall. unfold GetActiveWindows.
  rewrite (bind_Ok _ _ _ _ _ (load_manager_Ok _ _ _ Hm)).
  apply (activeLoop_Ok _ [] _ Hall).
Qed.

(** ** The invariant of the window manager *)

Lemma Truncate_idem t d : Truncate (Truncate t d) d = Truncate t d.
Proof.
  unfold Truncate. destruct (Z.leb_spec d 0) as [H|H]; [reflexivity|].
  assert (E : t - t mod d = (t / d) * d).
  { pose proof (Z.div_mod t d). lia. }
  rewrite E, Z.mod_mul by lia. lia.
Qed.


Lemma wm_inv_allocated wm d w m :
  wm_inv wm d w -> managers w !! wm = Some m -> allocated w (Windows m).
Proof.
  intros (m' & Hm & _ & Hal & _) Hm2. rewrite Hm in Hm2. inversion Hm2; subst m'.
  intros l Hl. destruct (Hal l Hl) as (tw & Htw & _). eauto.
Qed.

Lemma open_starts_unique w ws : 
  NoDup (open_starts w ws) ->
  forall i j l1 l2 s,
    ws !! i = Some l1 -> ws !! j = Some l2 ->
    open_start w l1 = Some s -> open_start w l2 = Some s -> i = j.
Proof.
  unfold open_starts.
  induction ws as [|l ws IH]; intros Hnd i j l1 l2 s Hi Hj H1 H2.
  - rewrite lookup_nil in Hi. discriminate.
  - simpl in Hnd.
    assert (Hin : forall k x, ws !! k = Some x -> open_start w x = Some s ->
                    s ∈ omap (open_start w) ws).
    { intros k x Hk Hx. apply list_elem_of_omap. exists x.
      split; [eapply list_elem_of_lookup_2; eauto|exact Hx]. }
    destruct i as [|i], j as [|j]; simpl in Hi, Hj.
    + reflexivity.
    + inversion Hi; subst l1. rewrite H1 in Hnd. apply NoDup_cons in Hnd as [Hn _].
      exfalso. apply Hn. eapply Hin; eauto.
    + inversion Hj; subst l2. rewrite H2 in Hnd. apply NoDup_cons in Hnd as [Hn _].
      exfalso. apply Hn. eapply Hin; eauto.
    + f_equal. eapply IH; eauto.
      destruct (open_start w l); [apply NoDup_cons in Hnd as [_ Hnd]|]; exact Hnd.
Qed.

Lemma wm_inv_one_open wm d w :
  wm_inv wm d w -> one_open_window_per_start wm w.
Proof.
  intros (m & Hm & _ & _ & Hnd) i j tw1 tw2 H1 H2 C1 C2 Hs.
  unfold window_at in H1, H2. rewrite Hm in H1, H2.
  destruct (Windows m !! i) as [l1|] eqn:Hi; [|discriminate].
  destruct (Windows m !! j) as [l2|] eqn:Hj; [|discriminate].
  eapply (open_starts_unique _ _ Hnd i j l1 l2 (StartTime tw1)); eauto.
  - unfold open_start. rewrite H1, C1. reflexivity.
  - unfold open_start. rewrite H2, C2, Hs. reflexivity.
Qed.

Lemma omap_cons_eq {A B} (f : A -> option B) x l :
  omap f (x :: l) = match f x with Some y => y :: omap f l | None => omap f l end.
Proof. reflexivity. Qed.

Lemma open_starts_ext w w' ws :
  (forall l, l ∈ ws -> open_start w' l = open_start w l) ->
  open_starts w' ws = open_starts w ws.
Proof.
  unfold open_starts. induction ws as [|l ws IH]; intros H; [reflexivity|].
  rewrite !omap_cons_eq. rewrite (H l) by left. rewrite IH; [reflexivity|].
  intros x Hx. apply H. right. exact Hx.
Qed.

Lemma open_starts_shrink w w' ws :
  (forall l, l ∈ ws -> open_start w' l = open_start w l \/ open_start w' l = None) ->
  sublist (open_starts w' ws) (open_starts w ws).
Proof.
  unfold open_starts. induction ws as [|l ws IH]; intros H; [constructor|].
  rewrite !omap_cons_eq.
  assert (IH' : sublist (omap (open_start w') ws) (omap (open_start w) ws)).
  { apply IH. intros x Hx. apply H. right. exact Hx. }
  destruct (H l) as [E|E]; [left| |]; rewrite E.
  - destruct (open_start w l); [apply sublist_skip|]; exact IH'.
  - destruct (open_start w l); [apply sublist_cons|]; exact IH'.
Qed.

Lemma open_starts_filter w (P : loc -> bool) ws :
  sublist (open_starts w (List.filter P ws)) (open_starts w ws).
Proof.
  unfold open_starts. induction ws as [|l ws IH]; [constructor|].
  simpl List.filter. destruct (P l); rewrite !omap_cons_eq.
  - destruct (open_start w l); [apply sublist_skip|]; exact IH.
  - destruct (open_start w l); [apply sublist_cons|]; exact IH.
Qed.

Lemma find_none_matches w start ws :
  List.find (matches w start) ws = None ->
  start ∉ open_starts w ws.
Proof.
  intros Hf Hin. unfold open_starts in Hin.
  apply list_elem_of_omap in Hin as (l & Hl & Ho).
  apply list_elem_of_In in Hl.
  pose proof (List.find_none _ _ Hf l Hl) as Hm.
  unfold open_start in Ho. unfold matches, Equal in Hm.
  destruct (windows w !! l) as [tw|]; [|discriminate].
  destruct (Closed tw); [discriminate|]. inversion Ho; subst start.
  rewrite Z.eqb_refl in Hm. discriminate.
Qed.

Lemma fresh_window_None (w : World) : windows w !! fresh (dom (windows w)) = None.
Proof. apply not_elem_of_dom. apply is_fresh. Qed.

Lemma fresh_snapshot_None (w : World) : snapshots w !! fresh (dom (snapshots w)) = None.
Proof. apply not_elem_of_dom. apply is_fresh. Qed.

Lemma GetOrCreateWindow_inv wm d t w :
  wm_inv wm d w ->
  exists l w' tw,
    GetOrCreateWindow wm t w = Ok l w' /\ wm_inv wm d w' /\
    windows w' !! l = Some tw /\ StartTime tw = Truncate t d /\
    Closed tw = false /\
    (exists m', managers w' !! wm = Some m' /\ l ∈ Windows m').
Proof.
  intros Hinv. pose proof Hinv as (m & Hm & Hd & Hal & Hnd).
  rewrite (GetOrCreateWindow_Ok _ _ _ _ Hm (wm_inv_allocated _ _ _ _ Hinv Hm)).
  rewrite Hd.
  destruct (List.find _ _) as [l|] eqn:Hf.
  - apply List.find_some in Hf as [Hin Hmatch].
    apply matches_true in Hmatch as (tw & Htw & Hs & Hc).
    exists l, w, tw. repeat split; try assumption.
    exists m. split; [exact Hm|]. apply list_elem_of_In. exact Hin.
  - set (lw := fresh (dom (windows w))).
    set (start := Truncate t d) in *.
    set (tw := mkTimeWindow start (Add start (duration m)) (duration m)
                 (fresh (dom (snapshots w))) false).
    assert (Hw' : forall x, windows (with_new_window wm m start w) !! x =
              if decide (lw = x) then Some tw else windows w !! x).
    { intros x. unfold with_new_window. simpl. apply lookup_insert. }
    assert (Hold : forall x, x ∈ Windows m -> x <> lw).
    { intros x Hx ->. destruct (Hal _ Hx) as (tx & Htx & _).
      pose proof (fresh_window_None w). subst lw. congruence. }
    exists lw, (with_new_window wm m start w), tw.
    split; [reflexivity|].
    split.
    { exists (mkWindowManager (Windows m ++ [lw]) (duration m)).
      split; [unfold with_new_window; simpl; apply lookup_insert_eq|].
      split; [exact Hd|]. simpl. split.
      - intros x Hx. rewrite Hw'. apply elem_of_app in Hx as [Hx|Hx].
        + rewrite decide_False by (intros E; eapply Hold; eauto).
          apply Hal. exact Hx.
        + apply list_elem_of_singleton in Hx. subst x.
          rewrite decide_True by reflexivity.
          exists tw. split; [reflexivity|]. subst tw. simpl.
          split; [subst start; symmetry; apply Truncate_idem|].
          split; [unfold Add; rewrite Hd; reflexivity|exact Hd].
      - unfold open_starts. rewrite omap_app. simpl.
        assert (E1 : omap (open_start (with_new_window wm m start w)) (Windows m)
                     = open_starts w (Windows m)).
        { apply open_starts_ext. intros x Hx. unfold open_start.
          rewrite Hw', decide_False by (intros E; eapply Hold; eauto). reflexivity. }
        rewrite E1. unfold open_start at 1. rewrite Hw', decide_True by reflexivity.
        simpl. apply NoDup_app. split; [exact Hnd|].
        split; [|apply NoDup_singleton].
        intros x Hx Hx2. apply list_elem_of_singleton in Hx2. subst x.
        eapply find_none_matches; eauto. }
    split; [rewrite Hw', decide_True by reflexivity; reflexivity|].
    split; [reflexivity|]. split; [reflexivity|].
    eexists. split; [unfold with_new_window; simpl; apply lookup_insert_eq|].
    simpl. apply elem_of_app. right. apply list_elem_of_singleton. reflexivity.
Qed.

Lemma CloseExpiredWindows_inv wm d t w :
  wm_inv wm d w ->
  exists closed w',
    CloseExpiredWindows wm t w = Ok closed w' /\ wm_inv wm d w'.
Proof.
  intros Hinv. pose proof Hinv as (m & Hm & Hd & Hal & Hnd).
  destruct (CloseExpiredWindows_spec _ _ t _ Hm (wm_inv_allocated _ _ _ _ Hinv Hm))
    as (closed & w' & Hrun & Hfr & Hwin & Hmem & _).
  exists closed, w'. split; [exact Hrun|].
  exists m. split; [rewrite Hfr; exact Hm|]. split; [exact Hd|]. split.
  - intros l Hl. destruct (Hal l Hl) as (tw & Htw & H1 & H2 & H3).
    rewrite Hwin, Htw. eexists. split; [reflexivity|].
    destruct (decide (l ∈ closed)); simpl; auto.
  - eapply sublist_NoDup; [exact Hnd|].
    apply open_starts_shrink. intros l Hl. unfold open_start.
    rewrite Hwin. destruct (windows w !! l) as [tw|]; [|left; reflexivity].
    destruct (decide (l ∈ closed)); [right|left]; reflexivity.
Qed.

Lemma Cleanup_inv wm d keep w :
  wm_inv wm d w ->
  exists w', Cleanup wm keep w = Ok tt w' /\ wm_inv wm d w'.
Proof.
  intros Hinv. pose proof Hinv as (m & Hm & Hd & Hal & Hnd).
  rewrite (Cleanup_Ok _ _ _ _ Hm (wm_inv_allocated _ _ _ _ Hinv Hm)).
  eexists. split; [reflexivity|].
  eexists. split; [simpl; apply lookup_insert_eq|]. simpl.
  split; [exact Hd|]. split.
  - intros l Hl. apply list_elem_of_In, List.filter_In in Hl as [Hl _].
    apply Hal. apply list_elem_of_In. exact Hl.
  - eapply sublist_NoDup; [exact Hnd|].
    apply (open_starts_filter w).
Qed.

Lemma wm_do_inv wm d c w :
  wm_inv wm d w -> exists w', wm_do wm c w = Ok tt w' /\ wm_inv wm d w'.
Proof.
  intros Hinv. destruct c as [t|t|keep]; simpl.
  - destruct (GetOrCreateWindow_inv wm d t w Hinv) as (l & w' & tw & Hrun & Hinv' & _).
    exists w'. rewrite (bind_Ok _ _ _ _ _ Hrun). auto.
  - destruct (CloseExpiredWindows_inv wm d t w Hinv) as (l & w' & Hrun & Hinv').
    exists w'. rewrite (bind_Ok _ _ _ _ _ Hrun). auto.
  - apply Cleanup_inv. exact Hinv.
Qed.

Lemma wm_calls_inv wm d calls : forall w,
  wm_inv wm d w ->
  exists w', forEach calls (wm_do wm) w = Ok tt w' /\ wm_inv wm d w'.
Proof.
  induction calls as [|c calls IH]; intros w Hinv.
  - exists w. split; [reflexivity|exact Hinv].
  - destruct (wm_do_inv wm d c w Hinv) as (w1 & Hc & Hinv1).
    destruct (IH w1 Hinv1) as (w' & Hrest & Hinv').
    exists w'. simpl. rewrite (bind_Ok _ _ _ _ _ Hc). auto.
Qed.

Lemma NewWindowManager_inv d w :
  wm_inv (fresh (dom (managers w))) d
    (set_managers (<[fresh (dom (managers w)) := mkWindowManager [] d]> (managers w)) w).
Proof.
  eexists. split; [simpl; apply lookup_insert_eq|]. simpl.
  split; [reflexivity|]. split; [intros l Hl; inversion Hl|constructor].
Qed.

Lemma wm_reachable_inv wm d w : wm_reachable wm d w -> wm_inv wm d w.
Proof.
  intros (w0 & calls & Hrun).
  apply bind_Ok_inv in Hrun as (wm' & w1 & Hnew & Hrest).
  unfold NewWindowManager, alloc_manager in Hnew. inversion Hnew; subst wm' w1.
  destruct (wm_calls_inv _ d calls _ (NewWindowManager_inv d w0)) as (w' & Hc & Hinv).
  rewrite (bind_Ok _ _ _ _ _ Hc) in Hrest. inversion Hrest; subst. exact Hinv.
Qed.

(** Any sequence of calls on a fresh manager returns. *)
Lemma wm_calls_return d calls w0 :
  exists wm w,
    (wm' <- NewWindowManager d ;; forEach calls (wm_do wm') ;;; ret wm') w0
    = Ok wm w.
Proof.
  destruct (wm_calls_inv _ d calls _ (NewWindowManager_inv d w0)) as (w' & Hc & _).
  eexists _, w'. unfold NewWindowManager, alloc_manager.
  unfold bind at 1. rewrite (bind_Ok _ _ _ _ _ Hc). reflexivity.
Qed.

(** ** Properties of windows and of the window manager *)

(** C3, as stated: at most one window, open or closed, per start.  It fails
    when an event arrives for a bucket whose window a sweep has closed:
    [GetOrCreateWindow] skips closed windows and appends a second window
    with the same start. *)
Lemma C3_counterexample :
  ~ (forall wm d w, wm_reachable wm d w -> one_window_per_start wm w).
Proof.
  intros H.
  destruct ((wm' <- NewWindowManager Minute ;;
             forEach lateEventCalls (wm_do wm') ;;; ret wm')
              (emptyWorld (fun _ => 0))) as [wm w|w] eqn:Hrun;
    vm_compute in Hrun; [|discriminate].
  inversion Hrun as [[Hwm Hw]]. clear Hrun.
  assert (Hreach : wm_reachable 0%nat Minute w).
  { exists (emptyWorld (fun _ => 0)), lateEventCalls.
    rewrite <- Hw. vm_compute. reflexivity. }
  specialize (H 0%nat Minute w Hreach 0%nat 1%nat).
  rewrite <- Hw in H.
  assert (E : 0%nat = 1%nat) by (eapply H; vm_compute; reflexivity).
  discriminate.
Qed.

(** C3, amended: in every reachable state of a window manager there is at
    most one open window per start. *)
Theorem C3_one_open_window_per_start (wm : loc) (d : Duration) (w : World) :
  wm_reachable wm d w -> one_open_window_per_start wm w.
Proof.
  intros Hreach. eapply wm_inv_one_open. apply wm_reachable_inv. exact Hreach.
Qed.

Lemma C3_one_open_window_per_start_witness :
  exists wm w,
    (wm' <- NewWindowManager Minute ;;
     forEach lateEventCalls (wm_do wm') ;;; ret wm') (emptyWorld (fun _ => 0))
      = Ok wm w /\
    one_open_window_per_start wm w.
Proof.
  eexists _, _. split.
  - vm_compute. reflexivity.
  - apply (C3_one_open_window_per_start _ Minute).
    exists (emptyWorld (fun _ => 0)), lateEventCalls. vm_compute. reflexivity.
Defined.



(** ** The batch handler *)

Section Batch.
Import Server.

Lemma batchStep_cases cap clk now i e st :
  let st' := batchStep cap clk now i e st in
  (emptyType e = true ∧ queue st' = queue st ∧ accepted st' = accepted st
     ∧ rejected st' = rejected st + 1) ∨
  (emptyType e = false ∧ queue st' = queue st ∧ accepted st' = accepted st
     ∧ rejected st' = rejected st + 1 ∧ (cap ≤ length (queue st))%nat) ∨
  (emptyType e = false ∧ (∃ e', queue st' = queue st ++ [e'] ∧ Type_ e' = Type_ e)
     ∧ accepted st' = accepted st + 1 ∧ rejected st' = rejected st
     ∧ (length (queue st) < cap)%nat).
Proof.
  unfold batchStep, emptyType.
  set (e1 := if IsZero (Timestamp e) then _ else e).
  assert (He1 : Type_ e1 = Type_ e) by (subst e1; destruct (IsZero _); reflexivity).
  set (p := if String.eqb (ID e1) "" then _ else _).
  assert (Hp : Type_ (fst p) = Type_ e).
  { subst p. destruct (String.eqb (ID e1) ""); cbn [fst Type_]; exact He1. }
  destruct p as [e2 r]. cbn [fst] in Hp. rewrite Hp.
  destruct (String.eqb (Type_ e) "") eqn:Ht.
  { left. cbn [queue accepted rejected]. repeat split. }
  right.
  destruct (Nat.ltb_spec (length (queue st)) cap) as [Hlt|Hge].
  - right. cbn [queue accepted rejected]. split; [reflexivity|].
    split; [exists e2; split; [reflexivity|exact Hp]|].
    repeat split. exact Hlt.
  - left. cbn [queue accepted rejected]. repeat split. exact Hge.
Qed.

Lemma batchLoop_spec cap clk now events : ∀ i st,
  let st' := batchLoop cap clk now i events st in
  ∃ sent,
    queue st' = queue st ++ sent ∧
    accepted st' = accepted st + Z.of_nat (length sent) ∧
    rejected st' = rejected st + Z.of_nat (length events) - Z.of_nat (length sent) ∧
    Forall (λ e, Type_ e ≠ "") sent ∧
    (length sent + length (filter (λ e, emptyType e = true) events) ≤ length events)%nat.
Proof.
  induction events as [|e rest IH]; intros i st; simpl.
  - exists []. rewrite app_nil_r. simpl. repeat split; auto; lia.
  - destruct (IH (S i) (batchStep cap clk now i e st)) as (sent & Hq & Ha & Hr & Hf & Hl).
    destruct (batchStep_cases cap clk now i e st)
      as [(He & Hq1 & Ha1 & Hr1) | [(He & Hq1 & Ha1 & Hr1 & _) | (He & (e' & Hq1 & Ht) & Ha1 & Hr1 & _)]].
    + exists sent. rewrite Hq, Ha, Hr, Hq1, Ha1, Hr1.
      rewrite filter_cons_True by done. simpl. repeat split; auto; lia.
    + exists sent. rewrite Hq, Ha, Hr, Hq1, Ha1, Hr1.
      rewrite filter_cons_False by (rewrite He; done).
      repeat split; auto; lia.
    + exists (e' :: sent). rewrite Hq, Ha, Hr, Hq1, Ha1, Hr1.
      rewrite filter_cons_False by (rewrite He; done).
      rewrite <- app_assoc. simpl. repeat split; auto; try lia.
      constructor; auto. rewrite Ht. unfold emptyType in He.
      apply String.eqb_neq in He. exact He.
Qed.

Lemma ShouldBindJSON_untyped invalid events :
  (exists e, e ∈ events /\ Type_ e = ""%string) ->
  ShouldBindJSON invalid (inr events) = inl (invalid events).
Proof.
  intros (e & He & Ht). unfold ShouldBindJSON.
  replace (existsb _ events) with true; [reflexivity|].
  symmetry. apply existsb_exists. exists e.
  split; [apply list_elem_of_In; exact He|]. rewrite Ht. reflexivity.
Qed.

Lemma ShouldBindJSON_typed invalid events :
  Forall (fun e => Type_ e <> ""%string) events ->
  ShouldBindJSON invalid (inr events) = inr events.
Proof.
  intros Hall. unfold ShouldBindJSON.
  replace (existsb _ events) with false; [reflexivity|].
  symmetry. apply not_true_is_false. intros H.
  apply existsb_exists in H as (e & He & Ht).
  apply list_elem_of_In in He. rewrite Forall_forall in Hall.
  apply (Hall e He). apply String.eqb_eq. exact Ht.
Qed.

(** C9: the bind validates every element of the decoded slice, so a batch
    that holds an item with an empty type is answered 400 with the error of
    the bind and the server is left as it was: the branch of the loop that
    counts such an item as rejected is never reached, and no such batch is
    answered 202.  A batch whose items all carry a type is answered 400,
    with no change, when its length is 0 or above 1000, and otherwise 202
    with counts such that accepted + rejected = total, the accepted items
    being those appended to the queue. *)
Theorem C9_untyped_item_refuses_batch (s : Server) (clk : nat -> Time)
    (invalid : list Event -> string) (events : list Event) :
  ((exists e, e ∈ events /\ Type_ e = ""%string) ->
   handleBatchEvents s clk invalid (inr events) =
     (mkResponse 400
        (ErrorResponse true ("invalid batch data: " +:+ invalid events)), s)) /\
  (Forall (fun e => Type_ e <> ""%string) events ->
   ((length events = 0 \/ 1000 < length events)%nat ->
    code (fst (handleBatchEvents s clk invalid (inr events))) = 400 /\
    snd (handleBatchEvents s clk invalid (inr events)) = s) /\
   ((1 <= length events <= 1000)%nat ->
    code (fst (handleBatchEvents s clk invalid (inr events))) = 202 /\
    exists msg acc rej sent,
      payload (fst (handleBatchEvents s clk invalid (inr events))) =
        SuccessResponse "accepted" msg
          (<["total" := Z.of_nat (length events)]>
          (<["accepted" := acc]> (<["rejected" := rej]> ∅))) /\
      acc + rej = Z.of_nat (length events) /\
      acc = Z.of_nat (length sent) /\
      eventQueue (snd (handleBatchEvents s clk invalid (inr events)))
        = eventQueue s ++ sent /\
      Forall (fun e => Type_ e <> ""%string) sent /\
      capacity (snd (handleBatchEvents s clk invalid (inr events))) = capacity s /\
      aggregator (snd (handleBatchEvents s clk invalid (inr events)))
        = aggregator s)).
Proof.
  split.
  - intros Hun. unfold handleBatchEvents.
    rewrite (ShouldBindJSON_untyped invalid events Hun). reflexivity.
  - intros Hty. unfold handleBatchEvents.
    rewrite (ShouldBindJSON_typed invalid events Hty). split.
    + intros [H|H].
      * rewrite H. split; reflexivity.
      * destruct (Nat.eqb_spec (length events) 0); [split; reflexivity|].
        destruct (Nat.ltb_spec 1000 (length events)); [split; reflexivity|lia].
    + intros H.
      destruct (Nat.eqb_spec (length events) 0); [lia|].
      destruct (Nat.ltb_spec 1000 (length events)); [lia|].
      cbn [fst snd code payload eventQueue capacity aggregator].
      split; [reflexivity|].
      destruct (batchLoop_spec (capacity s) clk (clk 0%nat) events 0
                  (mkLoop (eventQueue s) 0 0 1))
        as (sent & Hq & Ha & Hr & Hf & Hl).
      cbn [queue accepted rejected] in Hq, Ha, Hr.
      eexists _, _, _, sent. split; [reflexivity|].
      rewrite Ha, Hr, Hq. repeat split; auto; lia.
Qed.

Lemma C9_untyped_item_refuses_batch_witness :
  let s := mkServer [] 10 None in
  let events := [mkEvent "a" "click" 5 "u" "" ∅;
                 mkEvent "b" "" 5 "u" "" ∅] in
  handleBatchEvents s (fun _ => 7) (fun _ => "required"%string) (inr events) =
    (mkResponse 400
       (ErrorResponse true ("invalid batch data: " +:+ "required")), s) /\
  code (fst (handleBatchEvents s (fun _ => 7) (fun _ => "required"%string)
               (inr [mkEvent "a" "click" 5 "u" "" ∅]))) = 202.
Proof.
  intros s events.
  destruct (C9_untyped_item_refuses_batch s (fun _ => 7)
              (fun _ => "required"%string) events) as [H1 _].
  destruct (C9_untyped_item_refuses_batch s (fun _ => 7)
              (fun _ => "required"%string) [mkEvent "a" "click" 5 "u" "" ∅])
    as [_ H2].
  split.
  - apply H1. exists (mkEvent "b" "" 5 "u" "" ∅). split; [|reflexivity].
    right. left.
  - destruct H2 as [_ H2].
    + constructor; [discriminate|constructor].
    + destruct H2 as [Hc _]; [simpl; lia|]. exact Hc.
Defined.

End Batch.

(** ** The flush loop *)

Lemma startLoop_ticks a rest : forall (ticks : nat) w,
  startLoop a (replicate ticks TickerC ++ CtxDone :: rest) w =
    match startLoop a (replicate ticks TickerC) w with
    | Ok _ w' => Ok Returned w'
    | Panic w' => Panic w'
    end.
Proof.
  induction ticks as [|k IH]; intros w; [reflexivity|].
  simpl. unfold bind.
  destruct (flushExpiredWindows a w) as [[] w1|w1]; [|reflexivity].
  destruct (cleanup a w1) as [[] w2|w2]; [|reflexivity].
  apply IH.
Qed.

(** C1, as stated, fails: on cancellation [Start] returns at once, and the
    window of the second minute, which a sweep would collect, stays open
    and is never handed to the callback. *)
Lemma C1_counterexample : ~ final_sweep_on_cancel.
Proof.
  intros H.
  destruct (flushScenario recordWindow (emptyWorld lateClock)) as [a w|w] eqn:Hrun;
    vm_compute in Hrun; [|discriminate].
  inversion Hrun as [[Ha Hw]]. clear Hrun.
  edestruct (H a w w) as [Hin _].
  - rewrite <- Ha. reflexivity.
  - rewrite <- Ha. reflexivity.
  - rewrite <- Ha, <- Hw. vm_compute. reflexivity.
  - left.
  - rewrite <- Hw. vm_compute. reflexivity.
  - rewrite <- Hw. vm_compute. reflexivity.
  - rewrite <- Hw in Hin. vm_compute in Hin. inversion Hin.
Qed.

(** C1, amended: when the cancellation case of the [select] fires, [Start]
    returns at once, leaving the world as the last tick left it: there is
    no final sweep, and windows are closed and handed to the callback only
    on ticks. *)
Theorem C1_cancel_returns_at_once (a : Aggregator) (ticks : nat)
    (rest : list select_case) (w : World) :
  Start a (replicate ticks TickerC ++ CtxDone :: rest) w =
    match Start a (replicate ticks TickerC) w with
    | Ok _ w' => Ok Returned w'
    | Panic w' => Panic w'
    end /\
  Start a (CtxDone :: rest) w =
    if flushInterval a <=? 0 then Panic w else Ok Returned w.
Proof.
  unfold Start. split.
  - destruct (flushInterval a <=? 0); [reflexivity|]. apply startLoop_ticks.
  - destruct (flushInterval a <=? 0); reflexivity.
Qed.

(** C2, as stated, fails: with a callback that panics, the first tick that
    closes a window ends [Start] with a panic. *)
Lemma C2_counterexample : ~ callback_panic_recovered.
Proof.
  intros H.
  destruct (flushScenario panicking (emptyWorld lateClock)) as [a w|w] eqn:Hrun;
    [|vm_compute in Hrun; discriminate].
  destruct (H a w [TickerC; CtxDone] Hrun) as (r & w' & Hstart).
  vm_compute in Hrun. inversion Hrun as [[Ha Hw]].
  rewrite <- Ha, <- Hw in Hstart. vm_compute in Hstart. discriminate.
Qed.

(** C2, amended: a panic of the callback is not recovered.  If the sweep of
    a tick closes the windows [pre ++ x :: post] and the callback panics on
    [x], then [flushExpiredWindows] and [Start] end with that panic, in the
    world where it happened: the windows of [post], already closed, are not
    handed to the callback, and no later tick runs. *)
Theorem C2_callback_panic_propagates (a : Aggregator) (w w1 w2 w3 : World)
    (pre post : list loc) (x : loc) (rest : list select_case) :
  0 < flushInterval a ->
  (now <- timeNow ;; CloseExpiredWindows (windowManager a) now) w
    = Ok (pre ++ x :: post) w1 ->
  forEach pre (flushWindow a) w1 = Ok tt w2 ->
  flushWindow a x w2 = Panic w3 ->
  flushExpiredWindows a w = Panic w3 /\
  Start a (TickerC :: rest) w = Panic w3.
Proof.
  intros Hfi Hclose Hpre Hx.
  assert (Hflush : flushExpiredWindows a w = Panic w3).
  { unfold flushExpiredWindows.
    unfold bind at 1. unfold bind at 1 in Hclose.
    destruct (timeNow w) as [now w0|w0]; [|discriminate].
    unfold bind at 1. rewrite Hclose.
    replace (0 <? length (pre ++ x :: post))%nat with true.
    2:{ symmetry. apply Nat.ltb_lt. rewrite length_app. simpl. lia. }
    eapply forEach_panic; eauto. }
  split; [exact Hflush|].
  unfold Start. destruct (Z.leb_spec (flushInterval a) 0); [lia|].
  simpl. apply bind_Panic. exact Hflush.
Qed.

Lemma C2_callback_panic_propagates_witness :
  exists a w w3,
    flushScenario panicking (emptyWorld lateClock) = Ok a w /\
    flushExpiredWindows a w = Panic w3 /\
    Start a [TickerC; TickerC; CtxDone] w = Panic w3.
Proof.
  eexists _, _, _. split; [vm_compute; reflexivity|].
  eapply (C2_callback_panic_propagates _ _ _ _ _ [] [1%nat] 0%nat).
  - vm_compute. reflexivity.
  - vm_compute. reflexivity.
  - reflexivity.
  - vm_compute. reflexivity.
Defined.

(** ** The aggregator on the content of its snapshots *)

Lemma refines_ret s : refines s (ret tt) id.
Proof.
  intros w Hwf Hs. exists w. split; [reflexivity|].
  split; [exact Hwf|]. split; [exact Hs|]. split; [reflexivity|].
  split; [intros; split; reflexivity|]. split; [reflexivity|apply same_frame_refl].
Qed.

Lemma refines_ext s prog F F' :
  refines s prog F -> (forall c, F c = F' c) -> refines s prog F'.
Proof.
  intros H E w Hwf Hs. destruct (H w Hwf Hs) as (w' & H1 & H2 & H3 & H4 & H5).
  exists w'. rewrite <- E. auto.
Qed.

Lemma refines_seq s p q F G :
  refines s p F -> refines s q G -> refines s (p ;;; q) (fun c => G (F c)).
Proof.
  intros Hp Hq w Hwf Hs.
  destruct (Hp w Hwf Hs) as (w1 & R1 & W1 & S1 & C1 & O1 & D1 & F1).
  destruct (Hq w1 W1 S1) as (w2 & R2 & W2 & S2 & C2 & O2 & D2 & F2).
  exists w2. rewrite (bind_Ok _ _ _ _ _ R1).
  split; [exact R2|]. split; [exact W2|]. split; [exact S2|].
  split; [rewrite C2, C1; reflexivity|].
  split.
  { intros s' Hne. destruct (O1 s' Hne) as [A1 B1]. destruct (O2 s' Hne) as [A2 B2].
    split; congruence. }
  split; [congruence|]. eapply same_frame_trans; eauto.
Qed.

(** [m := s.GetMetric(n, k); body m; rest] where [body] mutates [m] as [f]
    says, or leaves it alone. *)
Lemma refines_get s n k (body : loc -> M unit) (g : Metric -> Metric) rest G :
  (body = (fun _ => ret tt) /\ g = id \/
   exists f, stamp_only f /\ body = update_metric f /\ g = f 0) ->
  refines s rest G ->
  refines s (m <- GetMetric s n k ;; body m ;;; rest)
    (fun c => G (touch n k g c)).
Proof.
  intros Hbody Hrest w Hwf [ms Hs].
  destruct (GetMetric_spec w s ms n k Hwf Hs)
    as (l & w1 & ms1 & R1 & W1 & S1 & N1 & _ & C1 & O1 & D1 & F1).
  rewrite (bind_Ok _ _ _ _ _ R1).
  assert (Hb : exists w2,
            body l w1 = Ok tt w2 /\ heap_wf w2 /\ is_Some (snapshots w2 !! s) /\
            content w2 s = touch n k g (content w s) /\
            (forall s', s' <> s ->
               snapshots w2 !! s' = snapshots w !! s' /\
               content w2 s' = content w s') /\
            dom (snapshots w2) = dom (snapshots w) /\ same_frame w w2).
  { destruct Hbody as [[-> ->]|(f & Hf & -> & ->)].
    - exists w1. split; [reflexivity|]. split; [exact W1|]. split; [eauto|].
      split; [exact C1|]. split; [exact O1|]. split; [exact D1|exact F1].
    - destruct (update_metric_spec f w1 s ms1 n l Hf W1 S1 N1)
        as (w2 & R2 & W2 & S2 & C2 & O2 & F2).
      exists w2. split; [exact R2|]. split; [exact W2|].
      split; [rewrite S2; eauto|].
      split.
      { rewrite C2, C1. unfold touch. rewrite alter_insert_eq. reflexivity. }
      split.
      { intros s' Hne. destruct (O1 s' Hne) as [A1 B1].
        split; [rewrite S2; exact A1|rewrite (O2 s' Hne); exact B1]. }
      split; [rewrite S2; exact D1|]. eapply same_frame_trans; eauto. }
  destruct Hb as (w2 & R2 & W2 & S2 & C2 & O2 & D2 & F2).
  rewrite (bind_Ok _ _ _ _ _ R2).
  destruct (Hrest w2 W2 S2) as (w3 & R3 & W3 & S3 & C3 & O3 & D3 & F3).
  exists w3. split; [exact R3|]. split; [exact W3|]. split; [exact S3|].
  split; [rewrite C3, C2; reflexivity|].
  split.
  { intros s' Hne. destruct (O2 s' Hne) as [A2 B2]. destruct (O3 s' Hne) as [A3 B3].
    split; congruence. }
  split; [congruence|]. eapply same_frame_trans; eauto.
Qed.

Lemma refines_get_last s n k (body : loc -> M unit) (g : Metric -> Metric) :
  (body = (fun _ => ret tt) /\ g = id \/
   exists f, stamp_only f /\ body = update_metric f /\ g = f 0) ->
  refines s (m <- GetMetric s n k ;; body m) (touch n k g).
Proof.
  intros Hbody w Hwf Hs.
  destruct (refines_get s n k body g (ret tt) id Hbody (refines_ret s) w Hwf Hs)
    as (w' & R & H).
  exists w'. split; [|exact H].
  unfold bind in *. destruct (GetMetric s n k w) as [l w1|]; [|discriminate].
  destruct (body l w1) as [[] w2|]; [|discriminate]. exact R.
Qed.

Ltac solve_body :=
  first
    [ left; split; reflexivity
    | right; exists incremented; split;
        [apply stamp_only_incremented | split; reflexivity]
    | right; eexists (withUnique _); split;
        [apply stamp_only_withUnique | split; reflexivity]
    | right; eexists (incrementedBy _); split;
        [apply stamp_only_incrementedBy | split; reflexivity]
    | right; eexists (observed _); split;
        [apply stamp_only_observed | split; reflexivity] ].

Ltac refine_steps :=
  repeat first
    [ eapply refines_get; [solve_body|]
    | eapply refines_get_last; solve_body
    | apply refines_ret ].

Ltac refine_with :=
  eapply refines_ext; [refine_steps | intros c; reflexivity].

Lemma processPageviewMetrics_refines a e :
  refines (globalMetrics a) (processPageviewMetrics a e) (absPageview e).
Proof.
  unfold processPageviewMetrics, absPageview.
  destruct (assertString _); refine_with.
Qed.

Lemma processClickMetrics_refines a e :
  refines (globalMetrics a) (processClickMetrics a e) (absClick e).
Proof.
  unfold processClickMetrics, absClick.
  destruct (assertString _); refine_with.
Qed.

Lemma processPurchaseMetrics_refines a e :
  refines (globalMetrics a) (processPurchaseMetrics a e) (absPurchase e).
Proof.
  unfold processPurchaseMetrics, absPurchase.
  destruct (assertFloat64 _); refine_with.
Qed.

Lemma byType_refines a e :
  refines (globalMetrics a)
    (if String.eqb (ev_Type e) "pageview" then processPageviewMetrics a e
     else if String.eqb (ev_Type e) "click" then processClickMetrics a e
     else if String.eqb (ev_Type e) "purchase" then processPurchaseMetrics a e
     else ret tt)
    (absByType e).
Proof.
  unfold absByType.
  destruct (String.eqb (ev_Type e) "pageview");
    [apply processPageviewMetrics_refines|].
  destruct (String.eqb (ev_Type e) "click");
    [apply processClickMetrics_refines|].
  destruct (String.eqb (ev_Type e) "purchase");
    [apply processPurchaseMetrics_refines|].
  apply refines_ret.
Qed.

Lemma updateGlobalMetrics_refines a e :
  refines (globalMetrics a) (updateGlobalMetrics a e) (absGlobal e).
Proof.
  unfold updateGlobalMetrics, absGlobal, absCommon.
  destruct (String.eqb (UserID e) ""); destruct (String.eqb (SessionID e) "");
    (eapply refines_ext;
     [ repeat (eapply refines_get; [solve_body|]); apply byType_refines
     | intros c; reflexivity ]).
Qed.

Lemma updateWindowMetrics_spec window e w tw :
  heap_wf w -> windows w !! window = Some tw ->
  is_Some (snapshots w !! tw_Metrics tw) ->
  exists w',
    updateWindowMetrics window e w = Ok tt w' /\
    heap_wf w' /\
    is_Some (snapshots w' !! tw_Metrics tw) /\
    content w' (tw_Metrics tw) = absWindow e (content w (tw_Metrics tw)) /\
    (forall s', s' <> tw_Metrics tw ->
       snapshots w' !! s' = snapshots w !! s' /\ content w' s' = content w s') /\
    dom (snapshots w') = dom (snapshots w) /\
    same_frame w w'.
Proof.
  intros Hwf Htw Hs. unfold updateWindowMetrics.
  rewrite (bind_Ok _ _ _ _ _ (load_window_Ok _ _ _ Htw)).
  revert w Hwf Hs Htw.
  match goal with
  | |- forall w, _ -> _ -> _ -> exists w', ?prog w = _ /\ _ =>
      assert (Href : refines (tw_Metrics tw) prog (absWindow e))
  end.
  { unfold absWindow. destruct (String.eqb (UserID e) ""); refine_with. }
  intros w Hwf Hs _. exact (Href w Hwf Hs).
Qed.

Lemma timeNow_Ok w : timeNow w = Ok (clock w (reads w)) (set_reads (S (reads w)) w).
Proof. reflexivity. Qed.

Lemma content_set_reads n w s : content (set_reads n w) s = content w s.
Proof. reflexivity. Qed.

Lemma agg_inv_set_reads a n w : agg_inv a w -> agg_inv a (set_reads n w).
Proof. intros H. exact H. Qed.

(** [GetOrCreateWindow] under the invariant of the aggregator. *)
Lemma GetOrCreateWindow_agg a t w :
  agg_inv a w ->
  exists l w' tw,
    GetOrCreateWindow (windowManager a) t w = Ok l w' /\
    agg_inv a w' /\
    windows w' !! l = Some tw /\
    is_Some (snapshots w' !! tw_Metrics tw) /\
    tw_Metrics tw <> globalMetrics a /\
    content w' (globalMetrics a) = content w (globalMetrics a) /\
    external w' = external w /\ clock w' = clock w.
Proof.
  intros (Hwf & Hgm & m & Hm & Hal).
  assert (Hall : allocated w (Windows m)).
  { intros l Hl. destruct (Hal l Hl) as (tw & Htw & _). eauto. }
  rewrite (GetOrCreateWindow_Ok _ _ t _ Hm Hall).
  destruct (List.find _ _) as [l|] eqn:Hf.
  - apply List.find_some in Hf as [Hin _]. apply list_elem_of_In in Hin.
    destruct (Hal l Hin) as (tw & Htw & Hs & Hne).
    exists l, w, tw. split; [reflexivity|].
    split; [split; [exact Hwf|split; [exact Hgm|eauto]]|].
    repeat split; assumption.
  - set (start := Truncate t (duration m)).
    set (lw := fresh (dom (windows w))).
    set (ls := fresh (dom (snapshots w))).
    set (w' := with_new_window _ _ _ _).
    set (tw := mkTimeWindow start (Add start (duration m)) (duration m) ls false).
    assert (Hls : snapshots w !! ls = None) by apply fresh_snapshot_None.
    assert (Hlw : windows w !! lw = None) by apply fresh_window_None.
    assert (Hsn : forall s, snapshots w' !! s =
              if decide (ls = s) then Some (mkMetricsSnapshot ∅ (clock w (reads w)))
              else snapshots w !! s).
    { intros s. subst w'. unfold with_new_window. simpl. apply lookup_insert. }
    assert (Hwn : forall x, windows w' !! x =
              if decide (lw = x) then Some tw else windows w !! x).
    { intros x. subst w'. unfold with_new_window. simpl. apply lookup_insert. }
    assert (Hne : ls <> globalMetrics a).
    { intros E. destruct Hgm as [x Hx]. congruence. }
    assert (Hwf' : heap_wf w').
    { destruct Hwf as [HA HB]. split.
      - intros s ms n l H1 H2. rewrite Hsn in H1.
        destruct (decide (ls = s)).
        + inversion H1; subst ms. simpl in H2. rewrite lookup_empty in H2. discriminate.
        + exact (HA _ _ _ _ H1 H2).
      - intros s1 ms1 n1 s2 ms2 n2 l H1 H2 H3 H4. rewrite Hsn in H1, H3.
        destruct (decide (ls = s1)).
        { inversion H1; subst ms1. simpl in H2. rewrite lookup_empty in H2. discriminate. }
        destruct (decide (ls = s2)).
        { inversion H3; subst ms2. simpl in H4. rewrite lookup_empty in H4. discriminate. }
        exact (HB _ _ _ _ _ _ _ H1 H2 H3 H4). }
    exists lw, w', tw. split; [reflexivity|].
    split.
    { split; [exact Hwf'|].
      split; [rewrite Hsn, decide_False by exact Hne; exact Hgm|].
      eexists. split; [subst w'; unfold with_new_window; simpl; apply lookup_insert_eq|].
      simpl. intros l Hl. rewrite Hwn. apply elem_of_app in Hl as [Hl|Hl].
      - destruct (Hal l Hl) as (tw0 & Htw0 & [x Hx] & Hne0).
        rewrite decide_False by congruence.
        exists tw0. split; [exact Htw0|]. split; [|exact Hne0].
        rewrite Hsn. destruct (decide (ls = tw_Metrics tw0)); eauto.
      - apply list_elem_of_singleton in Hl. subst l.
        rewrite decide_True by reflexivity. exists tw. split; [reflexivity|].
        subst tw. simpl. split; [|exact Hne].
        rewrite Hsn, decide_True by reflexivity. eauto. }
    split; [rewrite Hwn, decide_True by reflexivity; reflexivity|].
    split; [subst tw; simpl; rewrite Hsn, decide_True by reflexivity; eauto|].
    split; [exact Hne|].
    split; [|split; reflexivity].
    unfold content. rewrite Hsn, decide_False by exact Hne. reflexivity.
Qed.

Lemma ProcessEvent_spec a e w :
  agg_inv a w ->
  exists w',
    ProcessEvent a e w = Ok tt w' /\
    agg_inv a w' /\
    content w' (globalMetrics a) = absGlobal e (content w (globalMetrics a)) /\
    external w' = external w /\ clock w' = clock w.
Proof.
  intros Hinv. unfold ProcessEvent.
  rewrite (bind_Ok _ _ _ _ _ (timeNow_Ok w)).
  set (w0 := set_reads _ w).
  assert (Hinv0 : agg_inv a w0) by exact Hinv.
  destruct Hinv0 as (Hwf0 & Hgm0 & m & Hm & Hal).
  destruct (updateGlobalMetrics_refines a e w0 Hwf0 Hgm0)
    as (w1 & R1 & W1 & S1 & C1 & O1 & D1 & (F1a & F1b & F1c & F1d)).
  rewrite (bind_Ok _ _ _ _ _ R1).
  assert (Hinv1 : agg_inv a w1).
  { split; [exact W1|]. split; [exact S1|].
    exists m. split; [rewrite F1b; exact Hm|].
    intros l Hl. destruct (Hal l Hl) as (tw & Htw & Hs & Hne).
    exists tw. rewrite F1a. split; [exact Htw|]. split; [|exact Hne].
    destruct (O1 _ Hne) as [E _]. rewrite E. exact Hs. }
  destruct (GetOrCreateWindow_agg a (ev_Timestamp e) w1 Hinv1)
    as (l & w2 & tw & R2 & Hinv2 & Htw & Hs2 & Hne2 & C2 & E2 & K2).
  rewrite (bind_Ok _ _ _ _ _ R2).
  destruct Hinv2 as (W2 & G2 & m2 & Hm2 & Hal2).
  destruct (updateWindowMetrics_spec l e w2 tw W2 Htw Hs2)
    as (w3 & R3 & W3 & S3 & C3 & O3 & D3 & (F3a & F3b & F3c & F3d)).
  rewrite (bind_Ok _ _ _ _ _ R3).
  rewrite (bind_Ok _ _ _ _ _ (timeNow_Ok w3)).
  eexists. split; [reflexivity|].
  assert (Hgne : globalMetrics a <> tw_Metrics tw) by congruence.
  destruct (O3 _ Hgne) as [E3 C3'].
  split.
  { split; [exact W3|]. split; [simpl; rewrite E3; exact G2|].
    exists m2. split; [simpl; rewrite F3b; exact Hm2|].
    intros x Hx. destruct (Hal2 x Hx) as (tx & Htx & [y Hy] & Hnx).
    exists tx. simpl. rewrite F3a. split; [exact Htx|]. split; [|exact Hnx].
    apply elem_of_dom. rewrite D3. apply elem_of_dom. eauto. }
  split.
  { rewrite content_set_reads, C3', C2, C1. reflexivity. }
  assert (external w0 = external w) by reflexivity.
  assert (clock w0 = clock w) by reflexivity.
  simpl. split; congruence.
Qed.

(** ** Counting events *)

Ltac name_neq :=
  let H := fresh in
  intros H; cbn [String.append] in H; (discriminate H || congruence).

Ltac lookup_touches :=
  unfold touch;
  repeat (rewrite lookup_insert_ne by name_neq).

Lemma absByType_total e c :
  absByType e c !! "total_events" = c !! "total_events".
Proof.
  unfold absByType, absPageview, absClick, absPurchase.
  repeat match goal with
         | |- context [if ?b then _ else _] => destruct b
         | |- context [match ?x with Some _ => _ | None => _ end] => destruct x
         end; lookup_touches; reflexivity.
Qed.

Lemma absByType_by_type e c t :
  absByType e c !! ("events_by_type:" +:+ t) = c !! ("events_by_type:" +:+ t).
Proof.
  unfold absByType, absPageview, absClick, absPurchase.
  repeat match goal with
         | |- context [if ?b then _ else _] => destruct b
         | |- context [match ?x with Some _ => _ | None => _ end] => destruct x
         end; lookup_touches; reflexivity.
Qed.

Lemma absByType_users e c :
  absByType e c !! "unique_users" = c !! "unique_users".
Proof.
  unfold absByType, absPageview, absClick, absPurchase.
  repeat match goal with
         | |- context [if ?b then _ else _] => destruct b
         | |- context [match ?x with Some _ => _ | None => _ end] => destruct x
         end; lookup_touches; reflexivity.
Qed.

Lemma absByType_sessions e c :
  absByType e c !! "unique_sessions" = c !! "unique_sessions".
Proof.
  unfold absByType, absPageview, absClick, absPurchase.
  repeat match goal with
         | |- context [if ?b then _ else _] => destruct b
         | |- context [match ?x with Some _ => _ | None => _ end] => destruct x
         end; lookup_touches; reflexivity.
Qed.

Lemma absGlobal_total e c :
  absGlobal e c !! "total_events" =
    Some (incremented 0
            (default (newm "total_events" MetricTypeCounter) (c !! "total_events"))).
Proof.
  unfold absGlobal. rewrite absByType_total. unfold absCommon.
  lookup_touches. apply lookup_insert_eq.
Qed.

Lemma append_inj_r (p t1 t2 : string) : p +:+ t1 = p +:+ t2 -> t1 = t2.
Proof.
  induction p as [|a p IH]; simpl; intros H; [exact H|].
  injection H as H. apply IH. exact H.
Qed.

Lemma by_type_key_inj t1 t2 :
  "events_by_type:" +:+ t1 = "events_by_type:" +:+ t2 -> t1 = t2.
Proof. apply append_inj_r. Qed.

Lemma absGlobal_by_type e c t :
  absGlobal e c !! ("events_by_type:" +:+ t) =
    if decide (ev_Type e = t)
    then Some (incremented 0
                 (default (newm ("events_by_type:" +:+ t) MetricTypeCounter)
                    (c !! ("events_by_type:" +:+ t))))
    else c !! ("events_by_type:" +:+ t).
Proof.
  unfold absGlobal. rewrite absByType_by_type. unfold absCommon.
  unfold touch at 1. rewrite lookup_insert_ne by name_neq.
  unfold touch at 1. rewrite lookup_insert_ne by name_neq.
  unfold touch at 1. rewrite lookup_insert.
  destruct (decide (ev_Type e = t)) as [->|Hne].
  - rewrite decide_True by reflexivity.
    unfold touch. rewrite lookup_insert_ne by name_neq. reflexivity.
  - rewrite decide_False by (intros E; apply Hne; apply by_type_key_inj; exact E).
    unfold touch. rewrite lookup_insert_ne by name_neq. reflexivity.
Qed.

Lemma absGlobal_users e c :
  absGlobal e c !! "unique_users" =
    Some ((if String.eqb (UserID e) "" then id else withUnique (UserID e) 0)
            (default (newm "unique_users" MetricTypeSet) (c !! "unique_users"))).
Proof.
  unfold absGlobal. rewrite absByType_users. unfold absCommon.
  unfold touch at 1. rewrite lookup_insert_ne by name_neq.
  unfold touch at 1. rewrite lookup_insert_eq.
  unfold touch. rewrite !lookup_insert_ne by name_neq. reflexivity.
Qed.

Lemma absGlobal_sessions e c :
  absGlobal e c !! "unique_sessions" =
    Some ((if String.eqb (SessionID e) "" then id else withUnique (SessionID e) 0)
            (default (newm "unique_sessions" MetricTypeSet) (c !! "unique_sessions"))).
Proof.
  unfold absGlobal. rewrite absByType_sessions. unfold absCommon.
  unfold touch at 1. rewrite lookup_insert_eq.
  unfold touch. rewrite !lookup_insert_ne by name_neq. reflexivity.
Qed.

Lemma NewAggregator_spec wd fi w0 :
  heap_wf w0 ->
  exists a w,
    NewAggregator wd fi w0 = Ok a w /\
    agg_inv a w /\
    content w (globalMetrics a) = ∅ /\
    windowDuration a = wd /\ flushInterval a = fi /\ onWindowClosed a = None /\
    managers w !! windowManager a = Some (mkWindowManager [] wd) /\
    external w = external w0 /\ clock w = clock w0.
Proof.
  intros [HA HB]. eexists _, _. split; [reflexivity|]. simpl.
  assert (Hls : snapshots w0 !! fresh (dom (snapshots w0)) = None)
    by apply fresh_snapshot_None.
  split.
  { split.
    - split.
      + intros s ms n l H1 H2. simpl in H1. rewrite lookup_insert in H1. simpl.
        destruct (decide (fresh (dom (snapshots w0)) = s)).
        * inversion H1; subst ms. simpl in H2. rewrite lookup_empty in H2. discriminate.
        * exact (HA _ _ _ _ H1 H2).
      + intros s1 ms1 n1 s2 ms2 n2 l H1 H2 H3 H4. simpl in H1, H3.
        rewrite lookup_insert in H1, H3.
        destruct (decide (fresh (dom (snapshots w0)) = s1)).
        { inversion H1; subst ms1. simpl in H2. rewrite lookup_empty in H2. discriminate. }
        destruct (decide (fresh (dom (snapshots w0)) = s2)).
        { inversion H3; subst ms2. simpl in H4. rewrite lookup_empty in H4. discriminate. }
        exact (HB _ _ _ _ _ _ _ H1 H2 H3 H4).
    - split; [simpl; rewrite lookup_insert_eq; eauto|].
      eexists. split; [simpl; apply lookup_insert_eq|].
      simpl. intros l Hl. inversion Hl. }
  split.
  { unfold content. simpl. rewrite lookup_insert_eq. simpl. apply omap_empty. }
  repeat split. apply lookup_insert_eq.
Qed.

Lemma processAll_spec a events : forall w,
  agg_inv a w ->
  exists w',
    processAll a events w = Ok tt w' /\
    agg_inv a w' /\
    content w' (globalMetrics a) =
      foldl (fun c e => absGlobal e c) (content w (globalMetrics a)) events /\
    external w' = external w /\ clock w' = clock w.
Proof.
  unfold processAll.
  induction events as [|e events IH]; intros w Hinv.
  - exists w. split; [reflexivity|]. split; [exact Hinv|].
    split; [reflexivity|]. split; reflexivity.
  - destruct (ProcessEvent_spec a e w Hinv) as (w1 & R1 & I1 & C1 & E1 & K1).
    destruct (IH w1 I1) as (w' & R' & I' & C' & E' & K').
    exists w'. simpl. rewrite (bind_Ok _ _ _ _ _ R1).
    split; [exact R'|]. split; [exact I'|].
    split; [rewrite C', C1; reflexivity|]. split; congruence.
Qed.

(** The content of the global snapshot of a fresh aggregator after a
    sequence of events. *)
Lemma aggregate_spec wd fi events w0 :
  heap_wf w0 ->
  exists a w,
    (a <- NewAggregator wd fi ;; processAll a events ;;; ret a) w0 = Ok a w /\
    agg_inv a w /\
    content w (globalMetrics a) = foldl (fun c e => absGlobal e c) ∅ events.
Proof.
  intros Hwf.
  destruct (NewAggregator_spec wd fi w0 Hwf) as (a & w1 & R1 & I1 & C1 & _).
  destruct (processAll_spec a events w1 I1) as (w & R & I & C & _).
  exists a, w. rewrite (bind_Ok _ _ _ _ _ R1), (bind_Ok _ _ _ _ _ R).
  split; [reflexivity|]. split; [exact I|]. rewrite C, C1. reflexivity.
Qed.

Lemma count_of_content w s n :
  count_of w s n = default 0 (Count <$> content w s !! n).
Proof.
  unfold count_of. rewrite content_metric_of.
  destruct (metric_of w s n); reflexivity.
Qed.

Lemma occurrences_snoc t events e :
  occurrences t (events ++ [e]) =
    occurrences t events + (if decide (ev_Type e = t) then 1 else 0).
Proof.
  unfold occurrences. rewrite filter_app, length_app.
  destruct (decide (ev_Type e = t)) as [H|H].
  - rewrite (filter_cons_True (fun e0 => ev_Type e0 = t)) by exact H. simpl. lia.
  - rewrite (filter_cons_False (fun e0 => ev_Type e0 = t)) by exact H. simpl. lia.
Qed.

Lemma occurrences_le t events : 0 <= occurrences t events <= Z.of_nat (length events).
Proof.
  unfold occurrences. pose proof (length_filter (fun e => ev_Type e = t) events). lia.
Qed.

Lemma counters_after events :
  Z.of_nat (length events) < 2 ^ 63 ->
  let c := foldl (fun c e => absGlobal e c) ∅ events in
  default 0 (Count <$> c !! "total_events") = Z.of_nat (length events) /\
  forall t, default 0 (Count <$> c !! ("events_by_type:" +:+ t)) = occurrences t events.
Proof.
  induction events as [|e events IH] using rev_ind; intros Hlen.
  - simpl. split; [reflexivity|]. intros t. rewrite lookup_empty. reflexivity.
  - rewrite length_app in Hlen. simpl in Hlen.
    destruct IH as [IH1 IH2]; [lia|].
    rewrite foldl_app. simpl. set (c := foldl _ ∅ events) in *.
    split.
    + rewrite absGlobal_total. rewrite length_app, Nat2Z.inj_add. simpl.
      destruct (c !! "total_events") as [o|]; simpl in *;
        rewrite int64_small by lia; lia.
    + intros t. rewrite absGlobal_by_type, occurrences_snoc.
      pose proof (occurrences_le t events) as Hle.
      specialize (IH2 t).
      destruct (decide (ev_Type e = t)); [|rewrite IH2; lia].
      cbn [fmap option_fmap option_map default incremented Count].
      destruct (c !! ("events_by_type:" +:+ t)) as [o|];
        cbn [fmap option_fmap option_map default newm Count] in *.
      all: unfold id in *; rewrite int64_small by lia; lia.
Qed.

Lemma sumZ_fmap_cons {A} (f : A -> Z) (x : A) (l : list A) :
  sumZ (f <$> x :: l) = f x + sumZ (f <$> l).
Proof. reflexivity. Qed.

Lemma sum_indicator (x : string) (ts : list string) :
  NoDup ts ->
  sumZ ((fun t => if decide (x = t) then 1 else 0) <$> ts) =
    if decide (x ∈ ts) then 1 else 0.
Proof.
  induction ts as [|t ts IH]; intros Hnd.
  - reflexivity.
  - apply NoDup_cons in Hnd as [Hnin Hnd]. rewrite sumZ_fmap_cons, (IH Hnd).
    destruct (decide (x = t)) as [->|Hne].
    + rewrite decide_False by exact Hnin. rewrite decide_True by left. reflexivity.
    + destruct (decide (x ∈ ts)) as [Hin|Hnin'].
      * rewrite decide_True by (right; exact Hin). reflexivity.
      * rewrite decide_False; [reflexivity|].
        intros H. apply elem_of_cons in H as [H|H]; congruence.
Qed.

Lemma sumZ_add {A} (f g : A -> Z) (l : list A) :
  sumZ ((fun t => f t + g t) <$> l) = sumZ (f <$> l) + sumZ (g <$> l).
Proof.
  induction l as [|x l IH]; [reflexivity|].
  rewrite !sumZ_fmap_cons, IH. lia.
Qed.

Lemma sum_occurrences events (ts : list string) :
  NoDup ts -> (forall e, e ∈ events -> ev_Type e ∈ ts) ->
  sumZ ((fun t => occurrences t events) <$> ts) = Z.of_nat (length events).
Proof.
  intros Hnd. induction events as [|e events IH] using rev_ind; intros Hin.
  - clear Hin. induction ts as [|t ts IHt]; [reflexivity|].
    apply NoDup_cons in Hnd as [_ Hnd]. rewrite sumZ_fmap_cons, (IHt Hnd).
    reflexivity.
  - rewrite length_app. simpl.
    erewrite (list_fmap_ext _ (fun t => occurrences t events +
                                 (if decide (ev_Type e = t) then 1 else 0)));
      [|intros i t _; apply occurrences_snoc].
    rewrite sumZ_add, IH, (sum_indicator _ _ Hnd).
    + rewrite decide_True; [lia|]. apply Hin. apply elem_of_app. right. left.
    + intros e' He'. apply Hin. apply elem_of_app. left. exact He'.
Qed.

(** C5: after any finite sequence of [ProcessEvent] calls on a fresh
    aggregator (fewer than [2^63], so that no counter wraps), the count of
    [total_events] is the number of events, and it equals the sum, over the
    event types that occurred, of the counts of [events_by_type:<type>]. *)
Theorem C5_total_is_sum_by_type (w0 : World) (wd fi : Duration)
    (events : list Event)
    (Hwf : heap_wf w0)
    (Hlen : Z.of_nat (length events) < 2 ^ 63) :
  exists a w,
    (a <- NewAggregator wd fi ;; processAll a events ;;; ret a) w0 = Ok a w /\
    count_of w (globalMetrics a) "total_events" = Z.of_nat (length events) /\
    count_of w (globalMetrics a) "total_events" =
      sumZ ((fun t => count_of w (globalMetrics a) ("events_by_type:" +:+ t))
              <$> eventTypes events).
Proof.
  destruct (aggregate_spec wd fi events w0 Hwf) as (a & w & Hrun & _ & Hc).
  destruct (counters_after events Hlen) as [Ht Hb].
  exists a, w. split; [exact Hrun|].
  assert (Htotal : count_of w (globalMetrics a) "total_events"
                   = Z.of_nat (length events)).
  { rewrite count_of_content, Hc. exact Ht. }
  split; [exact Htotal|]. rewrite Htotal.
  erewrite (list_fmap_ext _ (fun t => occurrences t events));
    [|intros i t _; rewrite count_of_content, Hc; apply Hb].
  symmetry. apply sum_occurrences.
  - apply NoDup_remove_dups.
  - intros e He. unfold eventTypes. apply elem_of_remove_dups.
    apply list_elem_of_fmap. exists e. split; [reflexivity|exact He].
Qed.

Lemma C5_total_is_sum_by_type_witness :
  exists a w,
    (a <- NewAggregator Minute (5 * Second) ;; processAll a sampleEvents ;;; ret a)
      (emptyWorld lateClock) = Ok a w /\
    count_of w (globalMetrics a) "total_events" = 4 /\
    count_of w (globalMetrics a) "total_events" =
      sumZ ((fun t => count_of w (globalMetrics a) ("events_by_type:" +:+ t))
              <$> eventTypes sampleEvents).
Proof.
  apply (C5_total_is_sum_by_type (emptyWorld lateClock) Minute (5 * Second)
           sampleEvents).
  - split.
    + intros s ms n l H. simpl in H. rewrite lookup_empty in H. discriminate.
    + intros s1 ms1 n1 s2 ms2 n2 l H. simpl in H. rewrite lookup_empty in H.
      discriminate.
  - simpl. lia.
Defined.

(** ** Unique users and sessions *)

Lemma unique_after (key : string) (proj : Event -> string) :
  (forall e c,
     absGlobal e c !! key =
       Some ((if String.eqb (proj e) "" then id else withUnique (proj e) 0)
               (default (newm key MetricTypeSet) (c !! key)))) ->
  forall events,
    match foldl (fun c e => absGlobal e c) ∅ events !! key with
    | Some o =>
        events <> [] /\ Value o = 0%float /\ Type_ o = MetricTypeSet /\
        UniqueSet o = list_to_set (filter (fun s => s <> ""%string) (proj <$> events)) /\
        Count o = Z.of_nat (size (UniqueSet o))
    | None => events = []
    end.
Proof.
  intros Hkey events. induction events as [|e events IH] using rev_ind.
  - simpl. rewrite lookup_empty. reflexivity.
  - rewrite foldl_app. simpl. set (c := foldl _ ∅ events) in *.
    rewrite Hkey.
    assert (Hold : exists o,
              default (newm key MetricTypeSet) (c !! key) = o /\
              Value o = 0%float /\ Type_ o = MetricTypeSet /\
              UniqueSet o = list_to_set (filter (fun s => s <> ""%string) (proj <$> events)) /\
              Count o = Z.of_nat (size (UniqueSet o))).
    { destruct (c !! key) as [o|].
      - exists o. split; [reflexivity|]. tauto.
      - subst events. exists (newm key MetricTypeSet). repeat split. }
    destruct Hold as (o & -> & HV & HT & HU & HC).
    split; [intros E; apply app_eq_nil in E as [_ E]; discriminate|].
    rewrite fmap_app, filter_app. simpl.
    destruct (String.eqb_spec (proj e) "") as [E|E].
    + rewrite (filter_cons_False (fun s => s <> ""%string)) by (intros H; apply H; exact E).
      rewrite filter_nil, app_nil_r. unfold id. tauto.
    + rewrite (filter_cons_True (fun s => s <> ""%string)) by exact E.
      rewrite filter_nil. unfold withUnique. cbn [Value Type_ UniqueSet Count].
      split; [exact HV|]. split; [exact HT|]. split; [|reflexivity].
      rewrite HU, list_to_set_app_L. set_solver.
Qed.

Lemma GetMetricValue_Ok w s ms n :
  heap_wf w -> snapshots w !! s = Some ms ->
  GetMetricValue s n w =
    Ok (match metric_of w s n with
        | Some o => (Value o, true)
        | None => (0%float, false)
        end) w.
Proof.
  intros [HA _] Hs. unfold GetMetricValue, metric_of.
  unfold bind at 1. unfold load_snapshot. rewrite Hs.
  destruct (Metrics ms !! n) as [l|] eqn:Hn; [|reflexivity].
  destruct (HA _ _ _ _ Hs Hn) as [o Ho].
  unfold bind, load_metric. rewrite Ho. reflexivity.
Qed.

Lemma GetStats_Ok a w :
  agg_inv a w ->
  exists stats w',
    GetStats a w = Ok stats w' /\
    stats !! "total_events" =
      Some (StatFloat64 (match metric_of w (globalMetrics a) "total_events" with
                         | Some o => Value o | None => 0%float end)) /\
    stats !! "unique_users" =
      Some (StatFloat64 (match metric_of w (globalMetrics a) "unique_users" with
                         | Some o => Value o | None => 0%float end)) /\
    stats !! "unique_sessions" =
      Some (StatFloat64 (match metric_of w (globalMetrics a) "unique_sessions" with
                         | Some o => Value o | None => 0%float end)) /\
    (exists m, managers w !! windowManager a = Some m /\
       stats !! "active_windows" =
         Some (StatInt (Z.of_nat (length (List.filter (open_window w) (Windows m)))))) /\
    (exists s, snapshots w !! globalMetrics a = Some s /\
       stats !! "metrics_count" = Some (StatInt (Z.of_nat (size (Metrics s)))) /\
       stats !! "uptime" =
         Some (StatDuration (Sub (clock w (reads w)) (ms_Timestamp s)))) /\
    w' = set_reads (S (reads w)) w.
Proof.
  intros (Hwf & [s Hs] & m & Hm & Hal).
  assert (Hall : allocated w (Windows m)).
  { intros l Hl. destruct (Hal l Hl) as (tw & Htw & _). eauto. }
  unfold GetStats.
  rewrite (bind_Ok _ _ _ _ _ (GetMetricValue_Ok _ _ _ "total_events" Hwf Hs)).
  rewrite (bind_Ok _ _ _ _ _ (GetMetricValue_Ok _ _ _ "unique_users" Hwf Hs)).
  rewrite (bind_Ok _ _ _ _ _ (GetMetricValue_Ok _ _ _ "unique_sessions" Hwf Hs)).
  rewrite (bind_Ok _ _ _ _ _ (GetActiveWindows_Ok _ _ _ Hm Hall)).
  unfold bind at 1. unfold load_snapshot. rewrite Hs.
  rewrite (bind_Ok _ _ _ _ _ (timeNow_Ok w)).
  eexists _, _. split; [reflexivity|].
  split.
  { rewrite lookup_insert_eq. destruct (metric_of _ _ _); reflexivity. }
  split.
  { rewrite lookup_insert_ne by discriminate. rewrite lookup_insert_eq.
    destruct (metric_of w _ "unique_users"); reflexivity. }
  split.
  { do 2 rewrite lookup_insert_ne by discriminate. rewrite lookup_insert_eq.
    destruct (metric_of w _ "unique_sessions"); reflexivity. }
  split.
  { exists m. split; [exact Hm|].
    do 3 rewrite lookup_insert_ne by discriminate. apply lookup_insert_eq. }
  split; [|reflexivity].
  exists s. split; [reflexivity|]. split.
  - do 4 rewrite lookup_insert_ne by discriminate. apply lookup_insert_eq.
  - do 5 rewrite lookup_insert_ne by discriminate. apply lookup_insert_eq.
Qed.

Lemma metric_of_content w s n o :
  metric_of w s n = Some o -> content w s !! n = Some (erase o).
Proof. intros H. rewrite content_metric_of, H. reflexivity. Qed.

Lemma content_metric_of_None w s n :
  content w s !! n = None -> metric_of w s n = None.
Proof.
  rewrite content_metric_of. destruct (metric_of w s n); [discriminate|reflexivity].
Qed.

(** C4: the [unique_users] and [unique_sessions] entries of [GetStats] are
    the [Value] fields of the two set metrics; [AddUnique] changes [Count]
    and never [Value]; so both entries are 0.0 whatever events were
    processed, while the [Count] of each metric is the number of distinct
    non-empty identifiers. *)
Theorem C4_unique_stats_are_zero (w0 : World) (wd fi : Duration)
    (events : list Event) (Hwf : heap_wf w0) :
  (forall w m o v, metrics w !! m = Some o ->
     exists w' o', AddUnique m v w = Ok tt w' /\ metrics w' !! m = Some o' /\
       Value o' = Value o /\ Count o' = Z.of_nat (size (UniqueSet o'))) /\
  exists a w stats w',
    (a <- NewAggregator wd fi ;; processAll a events ;;; ret a) w0 = Ok a w /\
    GetStats a w = Ok stats w' /\
    stats !! "unique_users" =
      Some (StatFloat64 (match metric_of w (globalMetrics a) "unique_users" with
                         | Some o => Value o | None => 0%float end)) /\
    stats !! "unique_sessions" =
      Some (StatFloat64 (match metric_of w (globalMetrics a) "unique_sessions" with
                         | Some o => Value o | None => 0%float end)) /\
    stats !! "unique_users" = Some (StatFloat64 0%float) /\
    stats !! "unique_sessions" = Some (StatFloat64 0%float) /\
    (events <> [] ->
     exists ou os,
       metric_of w (globalMetrics a) "unique_users" = Some ou /\
       metric_of w (globalMetrics a) "unique_sessions" = Some os /\
       Type_ ou = MetricTypeSet /\ Type_ os = MetricTypeSet /\
       Count ou = Z.of_nat (size (list_to_set (userIDs events) : gset string)) /\
       Count os = Z.of_nat (size (list_to_set (sessionIDs events) : gset string))).
Proof.
  split.
  { intros w m o v Hm. rewrite AddUnique_update, (update_metric_Ok _ _ _ _ Hm).
    eexists _, _. split; [reflexivity|]. simpl. rewrite lookup_insert_eq.
    split; [reflexivity|]. split; reflexivity. }
  destruct (aggregate_spec wd fi events w0 Hwf) as (a & w & Hrun & Hinv & Hc).
  destruct (GetStats_Ok a w Hinv) as (stats & w' & Hstats & _ & Hu & Hs & _).
  pose proof (unique_after "unique_users" UserID absGlobal_users events) as Pu.
  pose proof (unique_after "unique_sessions" SessionID absGlobal_sessions events) as Ps.
  rewrite <- Hc in Pu, Ps.
  rewrite content_metric_of in Pu, Ps.
  exists a, w, stats, w'. split; [exact Hrun|]. split; [exact Hstats|].
  split; [exact Hu|]. split; [exact Hs|].
  destruct (metric_of w (globalMetrics a) "unique_users") as [ou|];
    destruct (metric_of w (globalMetrics a) "unique_sessions") as [os|];
    simpl in Pu, Ps.
  - destruct Pu as (_ & PV & PT & PU & PC). destruct Ps as (_ & SV & ST & SU & SC).
    split; [rewrite Hu, PV; reflexivity|]. split; [rewrite Hs, SV; reflexivity|].
    intros _. exists ou, os. repeat split; auto.
    + rewrite PC, PU. reflexivity.
    + rewrite SC, SU. reflexivity.
  - destruct Pu as (Hne & _). contradiction.
  - destruct Ps as (Hne & _). contradiction.
  - split; [exact Hu|]. split; [exact Hs|]. intros Hne. contradiction.
Qed.

Lemma C4_unique_stats_are_zero_witness :
  exists a w stats w',
    (a <- NewAggregator Minute (5 * Second) ;; processAll a sampleEvents ;;; ret a)
      (emptyWorld lateClock) = Ok a w /\
    GetStats a w = Ok stats w' /\
    stats !! "unique_users" = Some (StatFloat64 0%float) /\
    stats !! "unique_sessions" = Some (StatFloat64 0%float) /\
    exists ou os,
      metric_of w (globalMetrics a) "unique_users" = Some ou /\
      metric_of w (globalMetrics a) "unique_sessions" = Some os /\
      Count ou = 2 /\ Count os = 1.
Proof.
  destruct (C4_unique_stats_are_zero (emptyWorld lateClock) Minute (5 * Second)
              sampleEvents)
    as [_ (a & w & stats & w' & Hrun & Hstats & _ & _ & Hu & Hs & Hcount)].
  - split.
    + intros s ms n l H. simpl in H. rewrite lookup_empty in H. discriminate.
    + intros s1 ms1 n1 s2 ms2 n2 l H. simpl in H. rewrite lookup_empty in H.
      discriminate.
  - destruct Hcount as (ou & os & Hou & Hos & _ & _ & Cu & Cs); [discriminate|].
    exists a, w, stats, w'. repeat split; try assumption.
    exists ou, os. repeat split; assumption.
Defined.

(** ** Further properties of the window manager *)

Lemma set_windows_same w : set_windows (windows w) w = w.
Proof. destruct w; reflexivity. Qed.

Lemma wm_reachable_manager wm d w :
  wm_reachable wm d w ->
  exists m, managers w !! wm = Some m /\ duration m = d /\ allocated w (Windows m).
Proof.
  intros Hr. pose proof (wm_reachable_inv _ _ _ Hr) as Hinv.
  pose proof Hinv as (m & Hm & Hd & _).
  exists m. split; [exact Hm|]. split; [exact Hd|].
  eapply wm_inv_allocated; eauto.
Qed.

(** X1: [CloseExpiredWindows(t)] returns the open windows of the manager that
    end before [t], each once and in the order of the list, marks exactly
    those closed, and changes nothing else. *)
Theorem CloseExpiredWindows_collects (wm : loc) (d : Duration) (w : World)
    (t : Time) :
  wm_reachable wm d w ->
  exists m closed w',
    managers w !! wm = Some m /\
    CloseExpiredWindows wm t w = Ok closed w' /\
    (forall l, l ∈ closed <->
       l ∈ Windows m /\
       exists tw, windows w !! l = Some tw /\ Closed tw = false /\ EndTime tw < t) /\
    NoDup closed /\ sublist closed (Windows m) /\
    (forall l tw, windows w !! l = Some tw ->
       windows w' !! l = Some (if decide (l ∈ closed) then closed_copy tw else tw)) /\
    w' = set_windows (windows w') w.
Proof.
  intros Hr. destruct (wm_reachable_manager _ _ _ Hr) as (m & Hm & _ & Hall).
  destruct (CloseExpiredWindows_spec wm m t w Hm Hall)
    as (closed & w' & Hrun & Hfr & Hwin & Hmem & Hnd & Hsub).
  exists m, closed, w'. split; [exact Hm|]. split; [exact Hrun|].
  split.
  { intros l. rewrite Hmem. unfold expired, ShouldClose, After. split.
    - intros [Hl He]. split; [exact Hl|].
      destruct (windows w !! l) as [tw|]; [|discriminate].
      exists tw. apply andb_true_iff in He as [H1 H2].
      apply negb_true_iff in H1. apply Z.ltb_lt in H2. auto.
    - intros [Hl (tw & Htw & Hc & He)]. split; [exact Hl|].
      rewrite Htw, Hc. simpl. apply Z.ltb_lt. exact He. }
  split; [exact Hnd|]. split; [exact Hsub|].
  split; [|exact Hfr].
  intros l tw Htw. rewrite Hwin, Htw. reflexivity.
Qed.

(** X2: A second sweep at the same instant, or an earlier one, collects nothing
    and leaves the world as it is. *)
Theorem CloseExpiredWindows_twice (wm : loc) (d : Duration) (w : World)
    (t t' : Time) :
  wm_reachable wm d w -> t' <= t ->
  exists closed w',
    CloseExpiredWindows wm t w = Ok closed w' /\
    CloseExpiredWindows wm t' w' = Ok [] w'.
Proof.
  intros Hr Hle. destruct (wm_reachable_manager _ _ _ Hr) as (m & Hm & _ & Hall).
  destruct (CloseExpiredWindows_spec wm m t w Hm Hall)
    as (closed & w' & Hrun & Hfr & Hwin & Hmem & _).
  exists closed, w'. split; [exact Hrun|].
  assert (Hm' : managers w' !! wm = Some m) by (rewrite Hfr; exact Hm).
  assert (Hall' : allocated w' (Windows m)).
  { intros l Hl. destruct (Hall l Hl) as [tw Htw]. rewrite Hwin, Htw. eauto. }
  destruct (CloseExpiredWindows_spec wm m t' w' Hm' Hall')
    as (closed2 & w2 & Hrun2 & Hfr2 & Hwin2 & Hmem2 & _).
  assert (Hnone : forall l, l ∉ closed2).
  { intros l Hin. apply Hmem2 in Hin as [Hl He].
    unfold expired in He. rewrite Hwin in He.
    destruct (Hall l Hl) as [tw Htw]. rewrite Htw in He.
    destruct (decide (l ∈ closed)) as [Hc|Hc].
    - unfold ShouldClose, closed_copy in He. simpl in He. discriminate.
    - assert (Hexp : expired w t l = false).
      { destruct (expired w t l) eqn:E; [|reflexivity].
        exfalso. apply Hc. apply Hmem. auto. }
      unfold expired in Hexp. rewrite Htw in Hexp.
      unfold ShouldClose, After in He, Hexp.
      apply andb_true_iff in He as [H1 H2]. rewrite H1 in Hexp. simpl in Hexp.
      apply Z.ltb_lt in H2. apply Z.ltb_ge in Hexp. lia. }
  assert (closed2 = []).
  { destruct closed2 as [|x xs]; [reflexivity|]. exfalso. apply (Hnone x). left. }
  subst closed2. rewrite Hrun2. f_equal.
  rewrite Hfr2. rewrite <- (set_windows_same w') at 2. f_equal.
  apply map_eq. intros l. rewrite Hwin2.
  destruct (windows w' !! l); reflexivity.
Qed.

(** X3: Two calls of [GetOrCreateWindow] for instants of the same bucket return
    the same window, and the second call changes nothing. *)
Theorem GetOrCreateWindow_same_bucket (wm : loc) (d : Duration) (w : World)
    (t1 t2 : Time) :
  wm_reachable wm d w -> Truncate t1 d = Truncate t2 d ->
  exists l w',
    GetOrCreateWindow wm t1 w = Ok l w' /\
    GetOrCreateWindow wm t2 w' = Ok l w'.
Proof.
  intros Hr Hb. pose proof (wm_reachable_inv _ _ _ Hr) as Hinv.
  destruct (GetOrCreateWindow_inv wm d t1 w Hinv)
    as (l & w' & tw & Hrun & Hinv' & Htw & Hs & Hc & m' & Hm' & Hin).
  exists l, w'. split; [exact Hrun|].
  pose proof Hinv' as (m2 & Hm2 & Hd2 & _ & Hnd).
  rewrite Hm' in Hm2. inversion Hm2; subst m2.
  rewrite (GetOrCreateWindow_Ok _ _ t2 _ Hm' (wm_inv_allocated _ _ _ _ Hinv' Hm')).
  rewrite Hd2, <- Hb.
  destruct (List.find _ _) as [l'|] eqn:Hf.
  - apply List.find_some in Hf as [Hin' Hmatch].
    apply matches_true in Hmatch as (tw' & Htw' & Hs' & Hc').
    apply list_elem_of_In in Hin'.
    apply list_elem_of_lookup in Hin as [i Hi].
    apply list_elem_of_lookup in Hin' as [j Hj].
    assert (i = j).
    { eapply (open_starts_unique _ _ Hnd i j l l' (Truncate t1 d)); eauto.
      - unfold open_start. rewrite Htw, Hc, Hs. reflexivity.
      - unfold open_start. rewrite Htw', Hc', Hs'. reflexivity. }
    subst j. rewrite Hi in Hj. inversion Hj. reflexivity.
  - exfalso. apply list_elem_of_In in Hin.
    pose proof (List.find_none _ _ Hf l Hin) as Hno.
    assert (matches w' (Truncate t1 d) l = true).
    { apply matches_true. exists tw. auto. }
    congruence.
Qed.

(** X4: With a positive width, the window returned for [t] is open and its
    bounds enclose [t]: [start <= t < end = start + d]. *)
Theorem GetOrCreateWindow_encloses (wm : loc) (d : Duration) (w : World)
    (t : Time) :
  wm_reachable wm d w -> 0 < d ->
  exists l w' tw,
    GetOrCreateWindow wm t w = Ok l w' /\
    windows w' !! l = Some tw /\
    StartTime tw <= t < EndTime tw /\
    EndTime tw = StartTime tw + d /\
    StartTime tw mod d = 0 /\
    IsActive tw t = true.
Proof.
  intros Hr Hd. pose proof (wm_reachable_inv _ _ _ Hr) as Hinv.
  destruct (GetOrCreateWindow_inv wm d t w Hinv)
    as (l & w' & tw & Hrun & Hinv' & Htw & Hs & Hc & m' & Hm' & Hin).
  destruct Hinv' as (m2 & Hm2 & Hd2 & Hal & _).
  rewrite Hm' in Hm2. inversion Hm2; subst m2.
  destruct (Hal l Hin) as (tw2 & Htw2 & _ & He & _).
  rewrite Htw in Htw2. inversion Htw2; subst tw2.
  exists l, w', tw. split; [exact Hrun|]. split; [exact Htw|].
  assert (Hb : Truncate t d <= t < Truncate t d + d).
  { unfold Truncate. destruct (Z.leb_spec d 0); [lia|].
    pose proof (Z.mod_pos_bound t d Hd). lia. }
  assert (Hm0 : Truncate t d mod d = 0).
  { unfold Truncate. destruct (Z.leb_spec d 0); [lia|].
    replace (t - t mod d) with ((t / d) * d)
      by (pose proof (Z.div_mod t d); lia).
    apply Z.mod_mul. lia. }
  rewrite He, Hs. repeat split; try lia; try exact Hm0.
  unfold IsActive, Before. rewrite Hc, He, Hs. simpl. apply Z.ltb_lt. lia.
Qed.

(** X5: [Cleanup(keep)] keeps, in order, the windows that are open or whose end
    is less than [keep] before the clock, drops the others from the list,
    and changes no window. *)
Theorem Cleanup_retains (wm : loc) (d : Duration) (w : World) (keep : Duration) :
  wm_reachable wm d w ->
  exists m m' w',
    managers w !! wm = Some m /\
    Cleanup wm keep w = Ok tt w' /\
    managers w' !! wm = Some m' /\ duration m' = duration m /\
    windows w' = windows w /\
    sublist (Windows m') (Windows m) /\
    (forall l, l ∈ Windows m' <->
       l ∈ Windows m /\
       exists tw, windows w !! l = Some tw /\
         (Closed tw = false \/ Sub (clock w (reads w)) (EndTime tw) < keep)).
Proof.
  intros Hr. destruct (wm_reachable_manager _ _ _ Hr) as (m & Hm & _ & Hall).
  rewrite (Cleanup_Ok _ _ keep _ Hm Hall).
  eexists m, _, _. split; [exact Hm|]. split; [reflexivity|].
  split; [simpl; apply lookup_insert_eq|]. simpl.
  split; [reflexivity|]. split; [reflexivity|].
  split.
  { clear. induction (Windows m) as [|x xs IH]; [constructor|].
    simpl. destruct (kept _ _ _ x); [apply sublist_skip|apply sublist_cons]; exact IH. }
  intros l. rewrite list_elem_of_In, List.filter_In, <- list_elem_of_In.
  unfold kept. split.
  - intros [Hl Hk]. split; [exact Hl|].
    destruct (windows w !! l) as [tw|]; [|discriminate].
    exists tw. split; [reflexivity|].
    apply orb_true_iff in Hk as [H|H].
    + left. apply negb_true_iff. exact H.
    + right. apply Z.ltb_lt. exact H.
  - intros [Hl (tw & Htw & Hk)]. split; [exact Hl|]. rewrite Htw.
    apply orb_true_iff. destruct Hk as [H|H].
    + left. apply negb_true_iff. exact H.
    + right. apply Z.ltb_lt. exact H.
Qed.

(** X6: [GetActiveWindows] lists the open windows of the manager in order, and
    a window collected by a sweep is in no later listing. *)
Theorem closed_windows_not_active (wm : loc) (d : Duration) (w : World)
    (t : Time) :
  wm_reachable wm d w ->
  exists closed w' active,
    CloseExpiredWindows wm t w = Ok closed w' /\
    GetActiveWindows wm w' = Ok active w' /\
    (forall l, l ∈ closed -> l ∉ active) /\
    (forall l, l ∈ active <->
       exists m tw, managers w' !! wm = Some m /\ l ∈ Windows m /\
         windows w' !! l = Some tw /\ Closed tw = false).
Proof.
  intros Hr. destruct (wm_reachable_manager _ _ _ Hr) as (m & Hm & _ & Hall).
  destruct (CloseExpiredWindows_spec wm m t w Hm Hall)
    as (closed & w' & Hrun & Hfr & Hwin & Hmem & _).
  assert (Hm' : managers w' !! wm = Some m) by (rewrite Hfr; exact Hm).
  assert (Hall' : allocated w' (Windows m)).
  { intros l Hl. destruct (Hall l Hl) as [tw Htw]. rewrite Hwin, Htw. eauto. }
  exists closed, w', (List.filter (open_window w') (Windows m)).
  split; [exact Hrun|]. split; [apply GetActiveWindows_Ok; assumption|].
  assert (Hact : forall l, l ∈ List.filter (open_window w') (Windows m) <->
            l ∈ Windows m /\ exists tw, windows w' !! l = Some tw /\ Closed tw = false).
  { intros l. rewrite list_elem_of_In, List.filter_In, <- list_elem_of_In.
    unfold open_window. split.
    - intros [Hl Ho]. split; [exact Hl|].
      destruct (windows w' !! l) as [tw|]; [|discriminate].
      exists tw. split; [reflexivity|]. apply negb_true_iff. exact Ho.
    - intros [Hl (tw & Htw & Hc)]. split; [exact Hl|]. rewrite Htw, Hc. reflexivity. }
  split.
  - intros l Hc Ha. apply Hact in Ha as [Hl (tw & Htw & Hopen)].
    rewrite Hwin in Htw. destruct (windows w !! l) as [tw0|]; [|discriminate].
    rewrite decide_True in Htw by exact Hc. inversion Htw; subst tw.
    discriminate.
  - intros l. rewrite Hact. split.
    + intros [Hl (tw & Htw & Hc)]. exists m, tw. auto.
    + intros (m2 & tw & Hm2 & Hl & Htw & Hc). rewrite Hm' in Hm2.
      inversion Hm2; subst m2. eauto.
Qed.

(** X7: A window that is closed is never changed again by the manager. *)
Theorem closed_window_is_final (wm : loc) (d : Duration) (w : World)
    (calls : list wm_call) (l : loc) (tw : TimeWindow) :
  wm_reachable wm d w ->
  windows w !! l = Some tw -> Closed tw = true ->
  exists w', forEach calls (wm_do wm) w = Ok tt w' /\ windows w' !! l = Some tw.
Proof.
  intros Hr. pose proof (wm_reachable_inv _ _ _ Hr) as Hinv. clear Hr.
  revert w Hinv. induction calls as [|c calls IH]; intros w Hinv Htw Hc.
  - exists w. split; [reflexivity|exact Htw].
  - assert (Hstep : exists w1, wm_do wm c w = Ok tt w1 /\ wm_inv wm d w1 /\
                      windows w1 !! l = Some tw).
    { pose proof Hinv as (m & Hm & Hd & _).
      pose proof (wm_inv_allocated _ _ _ _ Hinv Hm) as Hall.
      destruct c as [t|t|keep]; simpl.
      - destruct (GetOrCreateWindow_inv wm d t w Hinv) as (l1 & w1 & tw1 & Hrun & Hinv1 & _).
        exists w1. rewrite (bind_Ok _ _ _ _ _ Hrun). split; [reflexivity|].
        split; [exact Hinv1|].
        rewrite (GetOrCreateWindow_Ok _ _ t _ Hm Hall) in Hrun.
        destruct (List.find _ _); inversion Hrun; subst; [exact Htw|].
        unfold with_new_window. simpl. rewrite lookup_insert_ne; [exact Htw|].
        intros E. pose proof (fresh_window_None w). rewrite E in H. congruence.
      - destruct (CloseExpiredWindows_inv wm d t w Hinv) as (cl & w1 & Hrun & Hinv1).
        exists w1. rewrite (bind_Ok _ _ _ _ _ Hrun). split; [reflexivity|].
        split; [exact Hinv1|].
        destruct (CloseExpiredWindows_spec wm m t w Hm Hall)
          as (cl2 & w2 & Hrun2 & _ & Hwin & Hmem & _).
        rewrite Hrun in Hrun2. inversion Hrun2; subst cl2 w2.
        rewrite Hwin, Htw. destruct (decide (l ∈ cl)) as [Hin|]; [|reflexivity].
        apply Hmem in Hin as [_ He]. unfold expired, ShouldClose in He.
        rewrite Htw, Hc in He. discriminate.
      - destruct (Cleanup_inv wm d keep w Hinv) as (w1 & Hrun & Hinv1).
        exists w1. split; [exact Hrun|]. split; [exact Hinv1|].
        rewrite (Cleanup_Ok _ _ keep _ Hm Hall) in Hrun. inversion Hrun. exact Htw. }
    destruct Hstep as (w1 & Hrun1 & Hinv1 & Htw1).
    destruct (IH w1 Hinv1 Htw1 Hc) as (w' & Hrun' & Htw').
    exists w'. simpl. rewrite (bind_Ok _ _ _ _ _ Hrun1). auto.
Qed.

(** X8: Every window of a manager starts on a multiple of the width and ends
    one width later. *)
Theorem windows_are_aligned (wm : loc) (d : Duration) (w : World) (i : nat)
    (tw : TimeWindow) :
  wm_reachable wm d w -> window_at w wm i = Some tw ->
  StartTime tw = Truncate (StartTime tw) d /\
  EndTime tw = StartTime tw + d /\
  tw_Duration tw = d /\
  (0 < d -> StartTime tw mod d = 0 /\ StartTime tw < EndTime tw).
Proof.
  intros Hr Hat. pose proof (wm_reachable_inv _ _ _ Hr) as Hinv.
  pose proof Hinv as (m & Hm & Hd & Hal & _).
  unfold window_at in Hat. rewrite Hm in Hat.
  destruct (Windows m !! i) as [l|] eqn:Hi; [|discriminate].
  destruct (Hal l) as (tw0 & Htw0 & Hs & He & Hdu).
  { eapply list_elem_of_lookup_2; eauto. }
  rewrite Hat in Htw0. inversion Htw0; subst tw0.
  split; [exact Hs|]. split; [exact He|]. split; [exact Hdu|].
  intros Hpos. split; [|lia].
  rewrite Hs. unfold Truncate. destruct (Z.leb_spec d 0); [lia|].
  replace (StartTime tw - StartTime tw mod d) with ((StartTime tw / d) * d)
    by (pose proof (Z.div_mod (StartTime tw) d); lia).
  apply Z.mod_mul. lia.
Qed.

Lemma CloseExpiredWindows_collects_witness :
  exists wm w,
    (wm' <- NewWindowManager Minute ;;
     forEach lateEventCalls (wm_do wm') ;;; ret wm') (emptyWorld (fun _ => 0))
      = Ok wm w /\
    exists m closed w',
      managers w !! wm = Some m /\
      CloseExpiredWindows wm (300 * Second) w = Ok closed w' /\
      (forall l, l ∈ closed <->
         l ∈ Windows m /\
         exists tw, windows w !! l = Some tw /\ Closed tw = false /\
                    EndTime tw < 300 * Second) /\
      NoDup closed /\ sublist closed (Windows m) /\
      (forall l tw, windows w !! l = Some tw ->
         windows w' !! l = Some (if decide (l ∈ closed) then closed_copy tw else tw)) /\
      w' = set_windows (windows w') w.
Proof.
  eexists _, _. split.
  - vm_compute. reflexivity.
  - apply (CloseExpiredWindows_collects _ Minute).
    exists (emptyWorld (fun _ => 0)), lateEventCalls. vm_compute. reflexivity.
Defined.

Lemma CloseExpiredWindows_twice_witness :
  exists wm w,
    (wm' <- NewWindowManager Minute ;;
     forEach lateEventCalls (wm_do wm') ;;; ret wm') (emptyWorld (fun _ => 0))
      = Ok wm w /\
    300 * Second <= 300 * Second /\
    exists closed w',
      CloseExpiredWindows wm (300 * Second) w = Ok closed w' /\
      CloseExpiredWindows wm (300 * Second) w' = Ok [] w'.
Proof.
  eexists _, _. split; [vm_compute; reflexivity|].
  split; [unfold Second; lia|].
  apply (CloseExpiredWindows_twice _ Minute).
  - exists (emptyWorld (fun _ => 0)), lateEventCalls. vm_compute. reflexivity.
  - unfold Second; lia.
Defined.

Lemma GetOrCreateWindow_same_bucket_witness :
  exists wm w,
    (wm' <- NewWindowManager Minute ;;
     forEach lateEventCalls (wm_do wm') ;;; ret wm') (emptyWorld (fun _ => 0))
      = Ok wm w /\
    Truncate (125 * Second) Minute = Truncate (170 * Second) Minute /\
    exists l w',
      GetOrCreateWindow wm (125 * Second) w = Ok l w' /\
      GetOrCreateWindow wm (170 * Second) w' = Ok l w'.
Proof.
  eexists _, _. split; [vm_compute; reflexivity|].
  split; [vm_compute; reflexivity|].
  apply (GetOrCreateWindow_same_bucket _ Minute).
  - exists (emptyWorld (fun _ => 0)), lateEventCalls. vm_compute. reflexivity.
  - vm_compute. reflexivity.
Defined.

Lemma GetOrCreateWindow_encloses_witness :
  exists wm w,
    (wm' <- NewWindowManager Minute ;;
     forEach lateEventCalls (wm_do wm') ;;; ret wm') (emptyWorld (fun _ => 0))
      = Ok wm w /\
    0 < Minute /\
    exists l w' tw,
      GetOrCreateWindow wm (125 * Second) w = Ok l w' /\
      windows w' !! l = Some tw /\
      StartTime tw <= 125 * Second < EndTime tw /\
      EndTime tw = StartTime tw + Minute /\
      StartTime tw mod Minute = 0 /\
      IsActive tw (125 * Second) = true.
Proof.
  eexists _, _. split; [vm_compute; reflexivity|].
  split; [vm_compute; reflexivity|].
  apply (GetOrCreateWindow_encloses _ Minute).
  - exists (emptyWorld (fun _ => 0)), lateEventCalls. vm_compute. reflexivity.
  - vm_compute. reflexivity.
Defined.

Lemma Cleanup_retains_witness :
  exists wm w,
    (wm' <- NewWindowManager Minute ;;
     forEach lateEventCalls (wm_do wm') ;;; ret wm') (emptyWorld lateClock)
      = Ok wm w /\
    exists m m' w',
      managers w !! wm = Some m /\
      Cleanup wm (5 * Minute) w = Ok tt w' /\
      managers w' !! wm = Some m' /\ duration m' = duration m /\
      windows w' = windows w /\
      sublist (Windows m') (Windows m) /\
      (forall l, l ∈ Windows m' <->
         l ∈ Windows m /\
         exists tw, windows w !! l = Some tw /\
           (Closed tw = false \/
            Sub (clock w (reads w)) (EndTime tw) < 5 * Minute)).
Proof.
  eexists _, _. split; [vm_compute; reflexivity|].
  apply (Cleanup_retains _ Minute).
  exists (emptyWorld lateClock), lateEventCalls. vm_compute. reflexivity.
Defined.

Lemma closed_windows_not_active_witness :
  exists wm w,
    (wm' <- NewWindowManager Minute ;;
     forEach lateEventCalls (wm_do wm') ;;; ret wm') (emptyWorld (fun _ => 0))
      = Ok wm w /\
    exists closed w' active,
      CloseExpiredWindows wm (300 * Second) w = Ok closed w' /\
      GetActiveWindows wm w' = Ok active w' /\
      (forall l, l ∈ closed -> l ∉ active) /\
      (forall l, l ∈ active <->
         exists m tw, managers w' !! wm = Some m /\ l ∈ Windows m /\
           windows w' !! l = Some tw /\ Closed tw = false).
Proof.
  eexists _, _. split; [vm_compute; reflexivity|].
  apply (closed_windows_not_active _ Minute).
  exists (emptyWorld (fun _ => 0)), lateEventCalls. vm_compute. reflexivity.
Defined.

Lemma closed_window_is_final_witness :
  exists wm w l tw,
    (wm' <- NewWindowManager Minute ;;
     forEach lateEventCalls (wm_do wm') ;;; ret wm') (emptyWorld (fun _ => 0))
      = Ok wm w /\
    windows w !! l = Some tw /\ Closed tw = true /\
    exists w',
      forEach [CallGetOrCreateWindow (70 * Second);
               CallCloseExpiredWindows (500 * Second);
               CallCleanup 0] (wm_do wm) w = Ok tt w' /\
      windows w' !! l = Some tw.
Proof.
  eexists _, _, 0%nat, _. split; [vm_compute; reflexivity|].
  split; [vm_compute; reflexivity|].
  split; [reflexivity|].
  apply (closed_window_is_final _ Minute).
  - exists (emptyWorld (fun _ => 0)), lateEventCalls. vm_compute. reflexivity.
  - vm_compute. reflexivity.
  - reflexivity.
Defined.

Lemma windows_are_aligned_witness :
  exists wm w tw,
    (wm' <- NewWindowManager Minute ;;
     forEach lateEventCalls (wm_do wm') ;;; ret wm') (emptyWorld (fun _ => 0))
      = Ok wm w /\
    window_at w wm 1 = Some tw /\
    StartTime tw = Truncate (StartTime tw) Minute /\
    EndTime tw = StartTime tw + Minute /\
    tw_Duration tw = Minute /\
    (0 < Minute -> StartTime tw mod Minute = 0 /\ StartTime tw < EndTime tw).
Proof.
  eexists _, _, _. split; [vm_compute; reflexivity|].
  split; [vm_compute; reflexivity|].
  eapply (windows_are_aligned _ Minute _ 1%nat).
  - exists (emptyWorld (fun _ => 0)), lateEventCalls. vm_compute. reflexivity.
  - vm_compute. reflexivity.
Defined.

(** ** Further properties of the global metrics *)

Ltac by_type_cases :=
  unfold absByType, absPageview, absClick, absPurchase;
  repeat match goal with
         | |- context [if String.eqb ?a ?b then _ else _] =>
             destruct (String.eqb_spec a b)
         | |- context [match assertString ?x with Some _ => _ | None => _ end] =>
             destruct (assertString x)
         end.

Lemma absCommon_other e c k :
  k <> "total_events"%string -> (forall t, k <> "events_by_type:" +:+ t) ->
  k <> "unique_users"%string -> k <> "unique_sessions"%string ->
  absCommon e c !! k = c !! k.
Proof.
  intros H1 H2 H3 H4. unfold absCommon, touch.
  rewrite !lookup_insert_ne by (try apply not_eq_sym; auto). reflexivity.
Qed.

Lemma absGlobal_kind (k t : string) :
  (k = "pageviews" /\ t = "pageview" \/ k = "clicks" /\ t = "click" \/
   k = "purchases" /\ t = "purchase")%string ->
  forall e c,
    absGlobal e c !! k =
      if decide (ev_Type e = t)
      then Some (incremented 0 (default (newm k MetricTypeCounter) (c !! k)))
      else c !! k.
Proof.
  intros Hk e c.
  assert (Hc : absCommon e c !! k = c !! k).
  { apply absCommon_other; destruct Hk as [[-> _]|[[-> _]|[-> _]]].
    all: first [name_neq | intros ?; name_neq]. }
  rewrite <- Hc. unfold absGlobal. generalize (absCommon e c). clear Hc c. intros c.
  destruct Hk as [[-> ->]|[[-> ->]|[-> ->]]].
  all: by_type_cases.
  all: try match goal with H : ev_Type _ = _ |- _ => rewrite H end.
  all: try (rewrite decide_True by reflexivity).
  all: try (rewrite decide_False by discriminate).
  all: try (rewrite decide_False by assumption).
  all: try destruct (assertFloat64 _).
  all: lookup_touches; try (rewrite lookup_insert_eq); reflexivity.
Qed.

Lemma kind_counter_after (k t : string) :
  (forall e c,
     absGlobal e c !! k =
       if decide (ev_Type e = t)
       then Some (incremented 0 (default (newm k MetricTypeCounter) (c !! k)))
       else c !! k) ->
  forall events,
    Z.of_nat (length events) < 2 ^ 63 ->
    default 0 (Count <$> foldl (fun c e => absGlobal e c) ∅ events !! k)
      = occurrences t events.
Proof.
  intros Hk events. induction events as [|e events IH] using rev_ind; intros Hlen.
  - simpl. rewrite lookup_empty. reflexivity.
  - rewrite length_app in Hlen. simpl in Hlen.
    specialize (IH ltac:(lia)).
    rewrite foldl_app. simpl. set (c := foldl _ ∅ events) in *.
    rewrite Hk, occurrences_snoc.
    pose proof (occurrences_le t events) as Hle.
    destruct (decide (ev_Type e = t)); [|rewrite IH; lia].
    cbn [fmap option_fmap option_map default incremented Count].
    destruct (c !! k) as [o|];
      cbn [fmap option_fmap option_map default newm Count] in *.
    all: unfold id in *; rewrite int64_small by lia; lia.
Qed.

(** X9: The counters [pageviews], [clicks] and [purchases] of the global
    snapshot count the events of these three types. *)
Theorem kind_counters (w0 : World) (wd fi : Duration) (events : list Event) :
  heap_wf w0 -> Z.of_nat (length events) < 2 ^ 63 ->
  exists a w,
    (a <- NewAggregator wd fi ;; processAll a events ;;; ret a) w0 = Ok a w /\
    count_of w (globalMetrics a) "pageviews" = occurrences "pageview" events /\
    count_of w (globalMetrics a) "clicks" = occurrences "click" events /\
    count_of w (globalMetrics a) "purchases" = occurrences "purchase" events.
Proof.
  intros Hwf Hlen.
  destruct (aggregate_spec wd fi events w0 Hwf) as (a & w & Hrun & _ & Hc).
  exists a, w. split; [exact Hrun|].
  rewrite !count_of_content, Hc.
  repeat split; apply kind_counter_after; try exact Hlen; apply absGlobal_kind; auto.
Qed.

Lemma absGlobal_revenue e c :
  absGlobal e c !! "revenue" =
    match amount_of e with
    | Some amount =>
        Some (incrementedBy amount 0
                (default (newm "revenue" MetricTypeCounter) (c !! "revenue")))
    | None => c !! "revenue"
    end.
Proof.
  assert (Hc : absCommon e c !! "revenue" = c !! "revenue").
  { apply absCommon_other; first [name_neq | intros ?; name_neq]. }
  rewrite <- Hc. unfold absGlobal. generalize (absCommon e c). clear Hc c. intros c.
  unfold amount_of. by_type_cases.
  all: try match goal with H : ev_Type _ = _ |- _ => rewrite H end.
  all: cbn [String.eqb Ascii.eqb Bool.eqb].
  all: try destruct (assertFloat64 _).
  all: lookup_touches; try (rewrite lookup_insert_eq); lookup_touches; try reflexivity.
  all: congruence.
Qed.

Lemma absGlobal_revenue_histogram e c :
  absGlobal e c !! "revenue_histogram" =
    match amount_of e with
    | Some amount =>
        Some (observed amount 0
                (default (newm "revenue_histogram" MetricTypeHistogram)
                   (c !! "revenue_histogram")))
    | None => c !! "revenue_histogram"
    end.
Proof.
  assert (Hc : absCommon e c !! "revenue_histogram" = c !! "revenue_histogram").
  { apply absCommon_other; first [name_neq | intros ?; name_neq]. }
  rewrite <- Hc. unfold absGlobal. generalize (absCommon e c). clear Hc c. intros c.
  unfold amount_of. by_type_cases.
  all: try match goal with H : ev_Type _ = _ |- _ => rewrite H end.
  all: cbn [String.eqb Ascii.eqb Bool.eqb].
  all: try destruct (assertFloat64 _).
  all: lookup_touches; try (rewrite lookup_insert_eq); lookup_touches; try reflexivity.
  all: congruence.
Qed.

Lemma amounts_snoc events e :
  amounts (events ++ [e]) =
    amounts events ++ match amount_of e with Some v => [v] | None => [] end.
Proof.
  unfold amounts. rewrite omap_app. simpl. destruct (amount_of e); reflexivity.
Qed.

Lemma amounts_length events : (length (amounts events) <= length events)%nat.
Proof.
  induction events as [|e events IH]; [reflexivity|].
  change (amounts (e :: events))
    with (match amount_of e with
          | Some v => v :: amounts events
          | None => amounts events
          end).
  destruct (amount_of e); simpl; lia.
Qed.

Lemma revenue_after events :
  Z.of_nat (length events) < 2 ^ 63 ->
  let c := foldl (fun c e => absGlobal e c) ∅ events in
  match c !! "revenue", c !! "revenue_histogram" with
  | Some r, Some h =>
      amounts events <> [] /\
      Values h = amounts events /\
      Count h = Z.of_nat (length (amounts events)) /\
      Count r = Z.of_nat (length (amounts events)) /\
      Value r = foldl PrimFloat.add 0%float (amounts events) /\
      Value h = Value r
  | None, None => amounts events = []
  | _, _ => False
  end.
Proof.
  induction events as [|e events IH] using rev_ind; intros Hlen.
  - simpl. rewrite !lookup_empty. reflexivity.
  - rewrite length_app in Hlen. simpl in Hlen.
    specialize (IH ltac:(lia)). cbn zeta in *.
    rewrite foldl_app. simpl. set (c := foldl _ ∅ events) in *.
    rewrite absGlobal_revenue, absGlobal_revenue_histogram, amounts_snoc.
    pose proof (amounts_length events) as Hal.
    destruct (amount_of e) as [v|]; [|rewrite app_nil_r; exact IH].
    destruct (c !! "revenue") as [r|], (c !! "revenue_histogram") as [h|];
      try contradiction.
    + destruct IH as (Hne & HV & HCh & HCr & HVr & HVh).
      cbn [default incrementedBy observed Values Count Value].
      rewrite length_app, foldl_app. simpl.
      split; [intros E; apply app_eq_nil in E as [_ E]; discriminate|].
      split; [rewrite HV; reflexivity|].
      split; [rewrite HCh, int64_small by lia; lia|].
      split; [rewrite HCr, int64_small by lia; lia|].
      split; [rewrite HVr; reflexivity|]. rewrite HVh. reflexivity.
    + rewrite IH.
      cbn [default incrementedBy observed newm Values Count Value].
      simpl. split; [discriminate|]. repeat split.
Qed.

(** X10: [revenue] and [revenue_histogram] exist once a purchase carried a
    [float64] amount; then the histogram lists these amounts in order of
    arrival, both counts are their number, and both values are their sum
    taken from left to right. *)
Theorem revenue_follows_purchases (w0 : World) (wd fi : Duration)
    (events : list Event) :
  heap_wf w0 -> Z.of_nat (length events) < 2 ^ 63 ->
  exists a w,
    (a <- NewAggregator wd fi ;; processAll a events ;;; ret a) w0 = Ok a w /\
    (amounts events = [] ->
     metric_of w (globalMetrics a) "revenue" = None /\
     metric_of w (globalMetrics a) "revenue_histogram" = None) /\
    (amounts events <> [] ->
     exists r h,
       metric_of w (globalMetrics a) "revenue" = Some r /\
       metric_of w (globalMetrics a) "revenue_histogram" = Some h /\
       Values h = amounts events /\
       Count h = Z.of_nat (length (amounts events)) /\
       Count r = Z.of_nat (length (amounts events)) /\
       Value r = foldl PrimFloat.add 0%float (amounts events) /\
       Value h = Value r).
Proof.
  intros Hwf Hlen.
  destruct (aggregate_spec wd fi events w0 Hwf) as (a & w & Hrun & _ & Hc).
  exists a, w. split; [exact Hrun|].
  pose proof (revenue_after events Hlen) as H. cbn zeta in H.
  rewrite <- Hc, !content_metric_of in H.
  destruct (metric_of w (globalMetrics a) "revenue") as [r|],
           (metric_of w (globalMetrics a) "revenue_histogram") as [h|];
    simpl in H; try contradiction.
  - destruct H as (Hne & H1 & H2 & H3 & H4 & H5).
    split; [intros E; contradiction|]. intros _. exists r, h. auto 10.
  - split; [auto|]. intros Hne. contradiction.
Qed.

(** X11: Whatever the events carry, processing them on a fresh aggregator does
    not panic, hands nothing to the callback, and leaves an aggregator on
    which [GetStats] returns. *)
Theorem processing_never_panics (w0 : World) (wd fi : Duration)
    (events : list Event) :
  heap_wf w0 ->
  exists a w stats w',
    (a <- NewAggregator wd fi ;; processAll a events ;;; ret a) w0 = Ok a w /\
    external w = external w0 /\
    GetStats a w = Ok stats w' /\
    dom stats = list_to_set ["total_events"; "unique_users"; "unique_sessions";
                             "active_windows"; "metrics_count"; "uptime"]%string.
Proof.
  intros Hwf.
  destruct (NewAggregator_spec wd fi w0 Hwf)
    as (a & w1 & R1 & I1 & _ & _ & _ & _ & _ & E1 & _).
  destruct (processAll_spec a events w1 I1) as (w & R & I & _ & E & _).
  destruct I as (Hwf' & [s Hs] & m & Hm & Hal).
  assert (Hall : allocated w (Windows m)).
  { intros l Hl. destruct (Hal l Hl) as (tw & Htw & _). eauto. }
  eexists a, w, _, _. rewrite (bind_Ok _ _ _ _ _ R1), (bind_Ok _ _ _ _ _ R).
  split; [reflexivity|]. split; [congruence|].
  split.
  { unfold GetStats.
    rewrite (bind_Ok _ _ _ _ _ (GetMetricValue_Ok _ _ _ "total_events" Hwf' Hs)).
    rewrite (bind_Ok _ _ _ _ _ (GetMetricValue_Ok _ _ _ "unique_users" Hwf' Hs)).
    rewrite (bind_Ok _ _ _ _ _ (GetMetricValue_Ok _ _ _ "unique_sessions" Hwf' Hs)).
    rewrite (bind_Ok _ _ _ _ _ (GetActiveWindows_Ok _ _ _ Hm Hall)).
    unfold bind at 1. unfold load_snapshot. rewrite Hs.
    rewrite (bind_Ok _ _ _ _ _ (timeNow_Ok w)). reflexivity. }
  rewrite !dom_insert_L, dom_empty_L. simpl. set_solver.
Qed.

(** ** [ProcessEvent] and the window of the event *)

Lemma content_absent w s : snapshots w !! s = None -> content w s = ∅.
Proof. intros H. unfold content. rewrite H. reflexivity. Qed.

Lemma ProcessEvent_window a e w m :
  agg_inv a w -> managers w !! windowManager a = Some m ->
  let start := Truncate (ev_Timestamp e) (duration m) in
  exists l tw w',
    ProcessEvent a e w = Ok tt w' /\ agg_inv a w' /\
    external w' = external w /\ clock w' = clock w /\
    windows w' !! l = Some tw /\
    StartTime tw = start /\ Closed tw = false /\
    content w' (tw_Metrics tw) = absWindow e (content w (tw_Metrics tw)) /\
    (forall s, s <> globalMetrics a -> s <> tw_Metrics tw ->
       content w' s = content w s) /\
    ((List.find (matches w start) (Windows m) = Some l /\
      managers w' = managers w /\ windows w' = windows w) \/
     (List.find (matches w start) (Windows m) = None /\
      windows w !! l = None /\ snapshots w !! tw_Metrics tw = None /\
      managers w' =
        <[windowManager a := mkWindowManager (Windows m ++ [l]) (duration m)]>
          (managers w) /\
      windows w' = <[l := tw]> (windows w) /\
      EndTime tw = Add start (duration m) /\ tw_Duration tw = duration m)).
Proof.
  intros Hinv Hm0 start. unfold ProcessEvent.
  rewrite (bind_Ok _ _ _ _ _ (timeNow_Ok w)).
  set (w0 := set_reads _ w).
  assert (Hinv0 : agg_inv a w0) by exact Hinv.
  destruct Hinv0 as (Hwf0 & Hgm0 & m' & Hm & Hal).
  assert (m' = m) by (change (managers w0) with (managers w) in Hm; congruence).
  subst m'.
  destruct (updateGlobalMetrics_refines a e w0 Hwf0 Hgm0)
    as (w1 & R1 & W1 & S1 & C1 & O1 & D1 & (F1a & F1b & F1c & F1d)).
  rewrite (bind_Ok _ _ _ _ _ R1).
  assert (Hinv1 : agg_inv a w1).
  { split; [exact W1|]. split; [exact S1|].
    exists m. split; [rewrite F1b; exact Hm|].
    intros l Hl. destruct (Hal l Hl) as (tw & Htw & Hs & Hne).
    exists tw. rewrite F1a. split; [exact Htw|]. split; [|exact Hne].
    destruct (O1 _ Hne) as [E _]. rewrite E. exact Hs. }
  assert (Hm1 : managers w1 !! windowManager a = Some m) by (rewrite F1b; exact Hm).
  assert (Hall1 : allocated w1 (Windows m)).
  { intros l Hl. destruct (Hal l Hl) as (tw & Htw & _). rewrite F1a. eauto. }
  destruct (GetOrCreateWindow_agg a (ev_Timestamp e) w1 Hinv1)
    as (l & w2 & tw & R2 & Hinv2 & Htw & Hs2 & Hne2 & C2 & E2 & K2).
  rewrite (bind_Ok _ _ _ _ _ R2).
  rewrite (GetOrCreateWindow_Ok _ _ _ _ Hm1 Hall1) in R2.
  fold start in R2.
  assert (Hmatch : matches w1 start = matches w start).
  { unfold matches. rewrite F1a. reflexivity. }
  rewrite Hmatch in R2.
  destruct Hinv2 as (W2 & G2 & m2 & Hm2 & Hal2).
  destruct (updateWindowMetrics_spec l e w2 tw W2 Htw Hs2)
    as (w3 & R3 & W3 & S3 & C3 & O3 & D3 & (F3a & F3b & F3c & F3d)).
  rewrite (bind_Ok _ _ _ _ _ R3).
  rewrite (bind_Ok _ _ _ _ _ (timeNow_Ok w3)).
  assert (Hgne : globalMetrics a <> tw_Metrics tw) by congruence.
  destruct (O3 _ Hgne) as [E3 C3'].
  exists l, tw. eexists. split; [reflexivity|].
  split.
  { split; [exact W3|]. split; [simpl; rewrite E3; exact G2|].
    exists m2. split; [simpl; rewrite F3b; exact Hm2|].
    intros x Hx. destruct (Hal2 x Hx) as (tx & Htx & [y Hy] & Hnx).
    exists tx. simpl. rewrite F3a. split; [exact Htx|]. split; [|exact Hnx].
    apply elem_of_dom. rewrite D3. apply elem_of_dom. eauto. }
  assert (Hext : external w0 = external w) by reflexivity.
  assert (Hclk : clock w0 = clock w) by reflexivity.
  split; [simpl; congruence|]. split; [simpl; congruence|].
  split; [simpl; rewrite F3a; exact Htw|].
  assert (Hwin0 : windows w0 = windows w) by reflexivity.
  assert (Hman0 : managers w0 = managers w) by reflexivity.
  assert (Hcon0 : forall s, content w0 s = content w s) by reflexivity.
  assert (Hsn0 : snapshots w0 = snapshots w) by reflexivity.
  destruct (List.find (matches w start) (Windows m)) as [l0|] eqn:Hf.
  - inversion R2; subst l0 w2. clear R2.
    apply List.find_some in Hf as [Hin Hmt].
    apply matches_true in Hmt as (tw0 & Htw0 & Hst & Hcl).
    rewrite F1a, Hwin0, Htw0 in Htw. inversion Htw; subst tw0.
    split; [exact Hst|]. split; [exact Hcl|].
    split.
    { rewrite content_set_reads, C3.
      destruct (O1 _ Hne2) as [_ E]. rewrite E, Hcon0. reflexivity. }
    split.
    { intros s Hs1 Hs2'. rewrite content_set_reads.
      destruct (O3 s Hs2') as [_ E]. rewrite E.
      destruct (O1 s Hs1) as [_ E']. rewrite E'. apply Hcon0. }
    left. split; [reflexivity|]. simpl. split; congruence.
  - inversion R2 as [[Hl Hw2]]. clear R2. subst l.
    assert (Htwe : tw = mkTimeWindow start (Add start (duration m)) (duration m)
                          (fresh (dom (snapshots w1))) false).
    { rewrite <- Hw2 in Htw. unfold with_new_window in Htw. simpl in Htw.
      rewrite lookup_insert_eq in Htw. inversion Htw. reflexivity. }
    assert (Hfs : snapshots w1 !! tw_Metrics tw = None).
    { rewrite Htwe. simpl. apply fresh_snapshot_None. }
    assert (Hfs0 : snapshots w !! tw_Metrics tw = None).
    { apply not_elem_of_dom. rewrite <- Hsn0, <- D1. apply not_elem_of_dom. exact Hfs. }
    split; [rewrite Htwe; reflexivity|]. split; [rewrite Htwe; reflexivity|].
    assert (Hc2 : forall s, s <> tw_Metrics tw -> content w2 s = content w1 s).
    { intros s Hs. rewrite <- Hw2. unfold content, with_new_window. simpl.
      rewrite lookup_insert_ne; [reflexivity|].
      intros E. apply Hs. rewrite Htwe. simpl. symmetry. exact E. }
    split.
    { rewrite content_set_reads, C3. f_equal.
      rewrite (content_absent w _ Hfs0).
      rewrite <- Hw2. unfold content, with_new_window. simpl.
      rewrite Htwe. simpl. rewrite lookup_insert_eq. simpl. apply omap_empty. }
    split.
    { intros s Hs1 Hs2'. rewrite content_set_reads.
      destruct (O3 s Hs2') as [_ E]. rewrite E, (Hc2 s Hs2').
      destruct (O1 s Hs1) as [_ E']. rewrite E'. apply Hcon0. }
    right. split; [reflexivity|].
    split.
    { rewrite <- Hwin0, <- F1a. apply fresh_window_None. }
    split; [exact Hfs0|].
    split.
    { simpl. rewrite F3b, <- Hw2. unfold with_new_window. simpl.
      rewrite F1b. reflexivity. }
    split.
    { simpl. rewrite F3a, <- Hw2. unfold with_new_window. simpl.
      rewrite F1a, <- Htwe. reflexivity. }
    rewrite Htwe. split; reflexivity.
Qed.

Lemma bucket_snoc d start events e :
  bucket d start (events ++ [e]) =
    bucket d start events ++
      (if decide (Truncate (ev_Timestamp e) d = start) then [e] else []).
Proof.
  unfold bucket. rewrite filter_app. reflexivity.
Qed.

Lemma find_none_open w start ws l tw :
  List.find (matches w start) ws = None ->
  l ∈ ws -> windows w !! l = Some tw -> Closed tw = false ->
  StartTime tw <> start.
Proof.
  intros Hf Hl Htw Hc E. apply list_elem_of_In in Hl.
  pose proof (List.find_none _ _ Hf l Hl) as Hno.
  assert (matches w start l = true) by (apply matches_true; eauto).
  congruence.
Qed.

Lemma ProcessEvent_window_inv a d events e w :
  agg_inv a w -> window_inv a d events w ->
  exists w',
    ProcessEvent a e w = Ok tt w' /\ agg_inv a w' /\
    window_inv a d (events ++ [e]) w' /\
    external w' = external w /\ clock w' = clock w.
Proof.
  intros Hinv (m & Hm & Hd & Hnd & Hwin & Huniq & Hcov).
  destruct (ProcessEvent_window a e w m Hinv Hm)
    as (l & tw & w' & Hrun & Hinv' & Hext & Hclk & Htw & Hst & Hcl & Hcon & Hoth & Hcase).
  rewrite Hd in *.
  exists w'. split; [exact Hrun|]. split; [exact Hinv'|].
  split; [|split; assumption].
  destruct Hinv as (_ & _ & m0 & Hm0 & Hal).
  rewrite Hm in Hm0. inversion Hm0; subst m0. clear Hm0.
  destruct Hcase as [(Hf & Hman & Hws) | (Hf & Hnew & Hsnap & Hman & Hws & Hend & Hdur)].
  - (* the window was there *)
    apply List.find_some in Hf as [Hin _]. apply list_elem_of_In in Hin.
    rewrite Hws in Htw.
    exists m. split; [rewrite Hman; exact Hm|]. split; [exact Hd|].
    split; [exact Hnd|]. rewrite Hws.
    split; [|split].
    + intros l' Hl'. destruct (Hwin l' Hl') as (tw' & Htw' & Hc' & He' & Hne' & Hcon').
      exists tw'. split; [exact Htw'|]. split; [exact Hc'|]. split; [exact He'|].
      rewrite bucket_snoc.
      destruct (decide (Truncate (ev_Timestamp e) d = StartTime tw')) as [E|E].
      * assert (l' = l) by (eapply Huniq; eauto; left; congruence). subst l'.
        rewrite Htw in Htw'. inversion Htw'; subst tw'.
        split; [intros H; apply app_eq_nil in H as [_ H]; discriminate|].
        rewrite foldl_app. simpl. rewrite Hcon, Hcon'. reflexivity.
      * rewrite app_nil_r. split; [exact Hne'|].
        rewrite <- Hcon'. apply Hoth.
        -- destruct (Hal l' Hl') as (tw2 & Htw2 & _ & Hne2).
           rewrite Htw' in Htw2. inversion Htw2; subst tw2. exact Hne2.
        -- intros E'. apply E. rewrite <- Hst.
           assert (l' = l) by (eapply Huniq; eauto).
           subst l'. rewrite Htw in Htw'. inversion Htw'. reflexivity.
    + exact Huniq.
    + intros e' He'. apply elem_of_app in He' as [He'|He'].
      * apply Hcov. exact He'.
      * apply list_elem_of_singleton in He'. subst e'. exists l, tw. auto.
  - (* a window was created *)
    assert (Hfresh : l ∉ Windows m).
    { intros Hl. destruct (Hwin l Hl) as (tw' & Htw' & _). congruence. }
    assert (Hold : forall l', l' ∈ Windows m -> windows w' !! l' = windows w !! l').
    { intros l' Hl'. rewrite Hws. apply lookup_insert_ne. intros E. subst l'.
      contradiction. }
    assert (Hstart : forall l' tw', l' ∈ Windows m -> windows w !! l' = Some tw' ->
              StartTime tw' <> Truncate (ev_Timestamp e) d /\
              tw_Metrics tw' <> tw_Metrics tw).
    { intros l' tw' Hl' Htw'. destruct (Hwin l' Hl') as (tw2 & Htw2 & Hc2 & _).
      rewrite Htw' in Htw2. inversion Htw2; subst tw2. split.
      - eapply find_none_open; eauto.
      - intros E. destruct (Hal l' Hl') as (tw3 & Htw3 & [x Hx] & _).
        rewrite Htw' in Htw3. inversion Htw3; subst tw3. congruence. }
    assert (Hempty : bucket d (Truncate (ev_Timestamp e) d) events = []).
    { destruct (bucket d _ events) as [|e0 rest] eqn:Hb; [reflexivity|].
      assert (He0 : e0 ∈ bucket d (Truncate (ev_Timestamp e) d) events)
        by (rewrite Hb; left).
      unfold bucket in He0. apply list_elem_of_filter in He0 as [Hb0 He0].
      destruct (Hcov e0 He0) as (l0 & tw0 & Hl0 & Htw0 & Hs0).
      destruct (Hstart l0 tw0 Hl0 Htw0) as [Hno _]. congruence. }
    eexists. split; [rewrite Hman; apply lookup_insert_eq|].
    cbn [duration Windows]. split; [reflexivity|].
    split.
    { apply NoDup_app. split; [exact Hnd|]. split.
      - intros x Hx Hx'. apply list_elem_of_singleton in Hx'. subst x. contradiction.
      - apply NoDup_singleton. }
    split; [|split].
    + intros l' Hl'. apply elem_of_app in Hl' as [Hl'|Hl'].
      * destruct (Hwin l' Hl') as (tw' & Htw' & Hc' & He' & Hne' & Hcon').
        destruct (Hstart l' tw' Hl' Htw') as [Hs1 Hs2].
        exists tw'. rewrite (Hold l' Hl'). split; [exact Htw'|].
        split; [exact Hc'|]. split; [exact He'|].
        rewrite bucket_snoc, decide_False by congruence.
        rewrite app_nil_r. split; [exact Hne'|].
        rewrite <- Hcon'. apply Hoth; [|exact Hs2].
        destruct (Hal l' Hl') as (tw2 & Htw2 & _ & Hne2).
        rewrite Htw' in Htw2. inversion Htw2; subst tw2. exact Hne2.
      * apply list_elem_of_singleton in Hl'. subst l'.
        exists tw. split; [exact Htw|]. split; [exact Hcl|].
        split; [rewrite Hend, Hst; reflexivity|].
        rewrite Hst, bucket_snoc, Hempty, decide_True by reflexivity.
        split; [discriminate|].
        simpl. rewrite Hcon, (content_absent w _ Hsnap). reflexivity.
    + intros l1 l2 tw1 tw2 H1 H2 T1 T2 Heq.
      apply elem_of_app in H1 as [H1|H1]; apply elem_of_app in H2 as [H2|H2].
      * rewrite (Hold l1 H1) in T1. rewrite (Hold l2 H2) in T2.
        eapply Huniq; eauto.
      * apply list_elem_of_singleton in H2. subst l2.
        rewrite (Hold l1 H1) in T1. rewrite Htw in T2. inversion T2; subst tw2.
        destruct (Hstart l1 tw1 H1 T1) as [Hs1 Hs2].
        exfalso. destruct Heq; congruence.
      * apply list_elem_of_singleton in H1. subst l1.
        rewrite (Hold l2 H2) in T2. rewrite Htw in T1. inversion T1; subst tw1.
        destruct (Hstart l2 tw2 H2 T2) as [Hs1 Hs2].
        exfalso. destruct Heq; congruence.
      * apply list_elem_of_singleton in H1. apply list_elem_of_singleton in H2.
        congruence.
    + intros e' He'. apply elem_of_app in He' as [He'|He'].
      * destruct (Hcov e' He') as (l0 & tw0 & Hl0 & Htw0 & Hs0).
        exists l0, tw0. split; [apply elem_of_app; left; exact Hl0|].
        rewrite (Hold l0 Hl0). auto.
      * apply list_elem_of_singleton in He'. subst e'. exists l, tw.
        split; [apply elem_of_app; right; apply list_elem_of_singleton; reflexivity|].
        auto.
Qed.

Lemma processAll_window_inv a d more : forall events w,
  agg_inv a w -> window_inv a d events w ->
  exists w',
    processAll a more w = Ok tt w' /\ agg_inv a w' /\
    window_inv a d (events ++ more) w' /\
    external w' = external w /\ clock w' = clock w.
Proof.
  unfold processAll. induction more as [|e more IH]; intros events w Hinv Hw.
  - exists w. rewrite app_nil_r. split; [reflexivity|]. split; [exact Hinv|].
    split; [exact Hw|]. split; reflexivity.
  - destruct (ProcessEvent_window_inv a d events e w Hinv Hw)
      as (w1 & R1 & I1 & W1 & E1 & K1).
    destruct (IH (events ++ [e]) w1 I1 W1) as (w' & R' & I' & W' & E' & K').
    exists w'. simpl. rewrite (bind_Ok _ _ _ _ _ R1).
    split; [exact R'|]. split; [exact I'|].
    split; [rewrite <- app_assoc in W'; exact W'|]. split; congruence.
Qed.

Lemma aggregate_window_inv wd fi events w0 :
  heap_wf w0 ->
  exists a w,
    (a <- NewAggregator wd fi ;; processAll a events ;;; ret a) w0 = Ok a w /\
    agg_inv a w /\ window_inv a wd events w /\
    external w = external w0 /\ clock w = clock w0.
Proof.
  intros Hwf.
  destruct (NewAggregator_spec wd fi w0 Hwf)
    as (a & w1 & R1 & I1 & C1 & _ & _ & _ & Hm & E1 & K1).
  assert (W1 : window_inv a wd [] w1).
  { exists (mkWindowManager [] wd). split; [exact Hm|]. split; [reflexivity|].
    split; [constructor|]. simpl.
    split; [intros l Hl; inversion Hl|].
    split; [intros l1 l2 tw1 tw2 Hl; inversion Hl|].
    intros e He. inversion He. }
  destruct (processAll_window_inv a wd events [] w1 I1 W1)
    as (w & R & I & W & E & K).
  exists a, w. rewrite (bind_Ok _ _ _ _ _ R1), (bind_Ok _ _ _ _ _ R).
  split; [reflexivity|]. split; [exact I|]. split; [exact W|]. split; congruence.
Qed.

Lemma absWindow_events e c :
  absWindow e c !! "events" =
    Some (incremented 0 (default (newm "events" MetricTypeCounter) (c !! "events"))).
Proof.
  unfold absWindow. lookup_touches. apply lookup_insert_eq.
Qed.

Lemma absWindow_by_type e c t :
  absWindow e c !! ("events:" +:+ t) =
    if decide (ev_Type e = t)
    then Some (incremented 0
                 (default (newm ("events:" +:+ t) MetricTypeCounter)
                    (c !! ("events:" +:+ t))))
    else c !! ("events:" +:+ t).
Proof.
  unfold absWindow.
  unfold touch at 1. rewrite lookup_insert_ne by name_neq.
  unfold touch at 1. rewrite lookup_insert.
  destruct (decide (ev_Type e = t)) as [->|Hne].
  - rewrite decide_True by reflexivity.
    unfold touch. rewrite lookup_insert_ne by name_neq. reflexivity.
  - rewrite decide_False
      by (intros E; apply Hne; apply (append_inj_r "events:"); exact E).
    unfold touch. rewrite lookup_insert_ne by name_neq. reflexivity.
Qed.

Lemma absWindow_users e c :
  absWindow e c !! "active_users" =
    Some ((if String.eqb (UserID e) "" then id else withUnique (UserID e) 0)
            (default (newm "active_users" MetricTypeSet) (c !! "active_users"))).
Proof.
  unfold absWindow. unfold touch at 1. rewrite lookup_insert_eq.
  unfold touch. rewrite !lookup_insert_ne by name_neq. reflexivity.
Qed.

Lemma counters_fold (F : Event -> gmap string Metric -> gmap string Metric)
    (total prefix : string) :
  (forall e c,
     F e c !! total =
       Some (incremented 0 (default (newm total MetricTypeCounter) (c !! total)))) ->
  (forall e c t,
     F e c !! (prefix +:+ t) =
       if decide (ev_Type e = t)
       then Some (incremented 0
                    (default (newm (prefix +:+ t) MetricTypeCounter)
                       (c !! (prefix +:+ t))))
       else c !! (prefix +:+ t)) ->
  forall events,
    Z.of_nat (length events) < 2 ^ 63 ->
    let c := foldl (fun c e => F e c) ∅ events in
    default 0 (Count <$> c !! total) = Z.of_nat (length events) /\
    forall t, default 0 (Count <$> c !! (prefix +:+ t)) = occurrences t events.
Proof.
  intros Htot Hby events.
  induction events as [|e events IH] using rev_ind; intros Hlen.
  - simpl. split; [reflexivity|]. intros t. rewrite lookup_empty. reflexivity.
  - rewrite length_app in Hlen. simpl in Hlen.
    destruct IH as [IH1 IH2]; [lia|].
    rewrite foldl_app. simpl. set (c := foldl _ ∅ events) in *.
    split.
    + rewrite Htot. rewrite length_app, Nat2Z.inj_add. simpl.
      destruct (c !! total) as [o|]; simpl in *;
        rewrite int64_small by lia; lia.
    + intros t. rewrite Hby, occurrences_snoc.
      pose proof (occurrences_le t events) as Hle.
      specialize (IH2 t).
      destruct (decide (ev_Type e = t)); [|rewrite IH2; lia].
      cbn [fmap option_fmap option_map default incremented Count].
      destruct (c !! (prefix +:+ t)) as [o|];
        cbn [fmap option_fmap option_map default newm Count] in *.
      all: unfold id in *; rewrite int64_small by lia; lia.
Qed.

Lemma set_fold (F : Event -> gmap string Metric -> gmap string Metric)
    (key : string) (proj : Event -> string) :
  (forall e c,
     F e c !! key =
       Some ((if String.eqb (proj e) "" then id else withUnique (proj e) 0)
               (default (newm key MetricTypeSet) (c !! key)))) ->
  forall events,
    match foldl (fun c e => F e c) ∅ events !! key with
    | Some o =>
        events <> [] /\ Value o = 0%float /\ Type_ o = MetricTypeSet /\
        UniqueSet o = list_to_set (filter (fun s => s <> ""%string) (proj <$> events)) /\
        Count o = Z.of_nat (size (UniqueSet o))
    | None => events = []
    end.
Proof.
  intros Hkey events. induction events as [|e events IH] using rev_ind.
  - simpl. rewrite lookup_empty. reflexivity.
  - rewrite foldl_app. simpl. set (c := foldl _ ∅ events) in *.
    rewrite Hkey.
    assert (Hold : exists o,
              default (newm key MetricTypeSet) (c !! key) = o /\
              Value o = 0%float /\ Type_ o = MetricTypeSet /\
              UniqueSet o = list_to_set (filter (fun s => s <> ""%string) (proj <$> events)) /\
              Count o = Z.of_nat (size (UniqueSet o))).
    { destruct (c !! key) as [o|].
      - exists o. split; [reflexivity|]. tauto.
      - subst events. exists (newm key MetricTypeSet). repeat split. }
    destruct Hold as (o & -> & HV & HT & HU & HC).
    split; [intros E; apply app_eq_nil in E as [_ E]; discriminate|].
    rewrite fmap_app, filter_app. simpl.
    destruct (String.eqb_spec (proj e) "") as [E|E].
    + rewrite (filter_cons_False (fun s => s <> ""%string)) by (intros H; apply H; exact E).
      rewrite filter_nil, app_nil_r. unfold id. tauto.
    + rewrite (filter_cons_True (fun s => s <> ""%string)) by exact E.
      rewrite filter_nil. unfold withUnique. cbn [Value Type_ UniqueSet Count].
      split; [exact HV|]. split; [exact HT|]. split; [|reflexivity].
      rewrite HU, list_to_set_app_L. set_solver.
Qed.

Lemma bucket_length d start events :
  (length (bucket d start events) <= length events)%nat.
Proof. unfold bucket. apply length_filter. Qed.

(** X12: After a sequence of events on a fresh aggregator there is exactly one
    window for each bucket that received an event: every event has an open
    window whose start is the truncation of its timestamp, no two windows
    share a start, no window is empty, and all are listed as active. *)
Theorem one_window_per_bucket (w0 : World) (wd fi : Duration)
    (events : list Event) :
  heap_wf w0 ->
  exists a w m,
    (a <- NewAggregator wd fi ;; processAll a events ;;; ret a) w0 = Ok a w /\
    managers w !! windowManager a = Some m /\
    NoDup (Windows m) /\
    Aggregator_GetActiveWindows a w = Ok (Windows m) w /\
    (forall e, e ∈ events ->
       exists l tw, l ∈ Windows m /\ windows w !! l = Some tw /\
         Closed tw = false /\
         StartTime tw = Truncate (ev_Timestamp e) wd /\
         EndTime tw = Add (StartTime tw) wd) /\
    (forall l, l ∈ Windows m ->
       exists tw e, windows w !! l = Some tw /\ e ∈ events /\
         StartTime tw = Truncate (ev_Timestamp e) wd) /\
    (forall l1 l2 tw1 tw2,
       l1 ∈ Windows m -> l2 ∈ Windows m ->
       windows w !! l1 = Some tw1 -> windows w !! l2 = Some tw2 ->
       StartTime tw1 = StartTime tw2 -> l1 = l2).
Proof.
  intros Hwf.
  destruct (aggregate_window_inv wd fi events w0 Hwf)
    as (a & w & Hrun & Hinv & (m & Hm & Hd & Hnd & Hwin & Huniq & Hcov) & _).
  exists a, w, m. split; [exact Hrun|]. split; [exact Hm|]. split; [exact Hnd|].
  split.
  { unfold Aggregator_GetActiveWindows.
    rewrite (GetActiveWindows_Ok _ m).
    - f_equal. clear Hnd Huniq Hcov.
      induction (Windows m) as [|l ls IH]; [reflexivity|].
      simpl. destruct (Hwin l) as (tw & Htw & Hc & _); [left|].
      unfold open_window at 1. rewrite Htw, Hc. simpl. f_equal.
      apply IH. intros l' Hl'. apply Hwin. right. exact Hl'.
    - exact Hm.
    - intros l Hl. destruct (Hwin l Hl) as (tw & Htw & _). eauto. }
  split.
  { intros e He. destruct (Hcov e He) as (l & tw & Hl & Htw & Hs).
    destruct (Hwin l Hl) as (tw' & Htw' & Hc & Hend & _).
    rewrite Htw in Htw'. inversion Htw'; subst tw'.
    exists l, tw. auto. }
  split.
  { intros l Hl. destruct (Hwin l Hl) as (tw & Htw & _ & _ & Hne & _).
    destruct (bucket wd (StartTime tw) events) as [|e rest] eqn:Hb; [congruence|].
    assert (He : e ∈ bucket wd (StartTime tw) events) by (rewrite Hb; left).
    unfold bucket in He. apply list_elem_of_filter in He as [Hs He].
    exists tw, e. auto. }
  intros l1 l2 tw1 tw2 H1 H2 T1 T2 Hs. eapply Huniq; eauto.
Qed.

(** X13: The snapshot of each window counts the events of its bucket: [events]
    is their number, [events:<type>] the number of those of the type, and
    [active_users] holds their distinct non-empty user identifiers. *)
Theorem window_metrics_count_bucket (w0 : World) (wd fi : Duration)
    (events : list Event) :
  heap_wf w0 -> Z.of_nat (length events) < 2 ^ 63 ->
  exists a w m,
    (a <- NewAggregator wd fi ;; processAll a events ;;; ret a) w0 = Ok a w /\
    managers w !! windowManager a = Some m /\
    forall l, l ∈ Windows m ->
      exists tw users,
        windows w !! l = Some tw /\
        let inside := bucket wd (StartTime tw) events in
        count_of w (tw_Metrics tw) "events" = Z.of_nat (length inside) /\
        (forall t, count_of w (tw_Metrics tw) ("events:" +:+ t)
                   = occurrences t inside) /\
        metric_of w (tw_Metrics tw) "active_users" = Some users /\
        UniqueSet users = list_to_set (userIDs inside) /\
        Count users = Z.of_nat (size (UniqueSet users)).
Proof.
  intros Hwf Hlen.
  destruct (aggregate_window_inv wd fi events w0 Hwf)
    as (a & w & Hrun & Hinv & (m & Hm & Hd & Hnd & Hwin & Huniq & Hcov) & _).
  exists a, w, m. split; [exact Hrun|]. split; [exact Hm|].
  intros l Hl. destruct (Hwin l Hl) as (tw & Htw & _ & _ & Hne & Hcon).
  pose proof (bucket_length wd (StartTime tw) events) as Hbl.
  destruct (counters_fold absWindow "events" "events:"
              absWindow_events absWindow_by_type
              (bucket wd (StartTime tw) events)) as [Ht Hb]; [lia|].
  pose proof (set_fold absWindow "active_users" UserID
                absWindow_users (bucket wd (StartTime tw) events)) as Hu.
  rewrite <- Hcon in Ht, Hb, Hu.
  rewrite content_metric_of in Hu.
  destruct (metric_of w (tw_Metrics tw) "active_users") as [o|] eqn:Ho;
    [|simpl in Hu; congruence].
  exists tw, o. split; [exact Htw|]. cbn zeta.
  split; [rewrite count_of_content; exact Ht|].
  split; [intros t; rewrite count_of_content; apply Hb|].
  split; [exact Ho|].
  simpl in Hu. destruct Hu as (_ & _ & _ & HU & HC).
  split; [exact HU|exact HC].
Qed.

(** ** Delivery of closed windows *)

Lemma set_external_same w : set_external (external w) w = w.
Proof. destruct w; reflexivity. Qed.

Lemma flush_record a : forall closed w,
  onWindowClosed a = Some recordWindow ->
  (forall l, l ∈ closed ->
     exists tw, windows w !! l = Some tw /\ is_Some (snapshots w !! tw_Metrics tw)) ->
  forEach closed (flushWindow a) w = Ok tt (set_external (external w ++ closed) w).
Proof.
  induction closed as [|l closed IH]; intros w Hcb Hall.
  - simpl. rewrite app_nil_r, set_external_same. reflexivity.
  - destruct (Hall l) as (tw & Htw & [s Hs]); [left|].
    assert (Hone : flushWindow a l w = Ok tt (set_external (external w ++ [l]) w)).
    { unfold flushWindow.
      rewrite (bind_Ok _ _ _ _ _ (load_window_Ok _ _ _ Htw)).
      unfold bind, load_snapshot. rewrite Hs, Hcb. reflexivity. }
    simpl. rewrite (bind_Ok _ _ _ _ _ Hone).
    rewrite IH.
    + simpl. rewrite <- app_assoc. reflexivity.
    + exact Hcb.
    + intros l' Hl'. simpl. apply Hall. right. exact Hl'.
Qed.

Lemma tick_spec a w :
  agg_inv a w -> onWindowClosed a = Some recordWindow -> delivered_inv w ->
  exists w',
    (flushExpiredWindows a ;;; cleanup a) w = Ok tt w' /\
    agg_inv a w' /\ delivered_inv w' /\ clock w' = clock w.
Proof.
  intros (Hwf & Hgm & m & Hm & Hal) Hcb [Hnd Hcl].
  assert (Hall : allocated w (Windows m)).
  { intros l Hl. destruct (Hal l Hl) as (tw & Htw & _). eauto. }
  set (w0 := set_reads (S (reads w)) w).
  destruct (CloseExpiredWindows_spec (windowManager a) m (clock w (reads w)) w0 Hm Hall)
    as (closed & w1 & Hrun & Hfr & Hwin & Hmem & Hndc & _).
  assert (Hflush : flushExpiredWindows a w =
                   Ok tt (set_external (external w1 ++ closed) w1)).
  { unfold flushExpiredWindows.
    rewrite (bind_Ok _ _ _ _ _ (timeNow_Ok w)). fold w0.
    rewrite (bind_Ok _ _ _ _ _ Hrun).
    destruct closed as [|c cs] eqn:Hc.
    - simpl. rewrite app_nil_r, set_external_same. reflexivity.
    - rewrite <- Hc in *. replace (0 <? length closed)%nat with true
        by (rewrite Hc; reflexivity).
      apply flush_record; [exact Hcb|].
      intros l Hl. apply Hmem in Hl as [Hl _].
      destruct (Hal l Hl) as (tw & Htw & Hs & _).
      change (windows w0) with (windows w) in Hwin.
      rewrite Hwin, Htw. eexists. split; [reflexivity|].
      rewrite Hfr. simpl. destruct (decide (l ∈ closed)); exact Hs. }
  remember (set_external (external w1 ++ closed) w1) as w2 eqn:Hw2.
  assert (Hwin2 : forall l, windows w2 !! l =
            match windows w !! l with
            | Some tw => Some (if decide (l ∈ closed) then closed_copy tw else tw)
            | None => None
            end) by (rewrite Hw2; exact Hwin).
  assert (Hm2 : managers w2 !! windowManager a = Some m).
  { rewrite Hw2. simpl. rewrite Hfr. exact Hm. }
  assert (Hsn2 : snapshots w2 = snapshots w) by (rewrite Hw2; simpl; rewrite Hfr; reflexivity).
  assert (Hme2 : metrics w2 = metrics w) by (rewrite Hw2; simpl; rewrite Hfr; reflexivity).
  assert (Hex2 : external w2 = external w ++ closed)
    by (rewrite Hw2; simpl; rewrite Hfr; reflexivity).
  assert (Hck2 : clock w2 = clock w) by (rewrite Hw2; simpl; rewrite Hfr; reflexivity).
  clear Hw2.
  assert (Hall2 : allocated w2 (Windows m)).
  { intros l Hl. destruct (Hall l Hl) as [tw Htw]. rewrite Hwin2, Htw. eauto. }
  unfold bind. rewrite Hflush. unfold cleanup.
  rewrite (Cleanup_Ok _ _ _ _ Hm2 Hall2).
  eexists. split; [reflexivity|].
  split.
  { split.
    - destruct Hwf as [HA HB]. split.
      + intros s ms n l H1 H2. simpl in H1 |- *. rewrite Hsn2 in H1.
        rewrite Hme2. exact (HA _ _ _ _ H1 H2).
      + intros s1 ms1 n1 s2 ms2 n2 l H1 H2 H3 H4. simpl in H1, H3.
        rewrite Hsn2 in H1, H3. exact (HB _ _ _ _ _ _ _ H1 H2 H3 H4).
    - split; [simpl; rewrite Hsn2; exact Hgm|].
      eexists. split; [simpl; apply lookup_insert_eq|]. simpl.
      intros l Hl. apply list_elem_of_In, List.filter_In in Hl as [Hl _].
      apply list_elem_of_In in Hl.
      destruct (Hal l Hl) as (tw & Htw & Hs & Hne).
      rewrite Hwin2, Htw, Hsn2. eexists. split; [reflexivity|].
      destruct (decide (l ∈ closed)); simpl; auto. }
  split; [|simpl; exact Hck2].
  split; simpl.
  - rewrite Hex2. apply NoDup_app. split; [exact Hnd|]. split; [|exact Hndc].
    intros l Hl Hl'. destruct (Hcl l Hl) as (tw & Htw & Hc).
    apply Hmem in Hl' as [_ He]. unfold expired, ShouldClose in He.
    change (windows w0) with (windows w) in He. rewrite Htw, Hc in He. discriminate.
  - intros l Hl. rewrite Hwin2. rewrite Hex2 in Hl.
    apply elem_of_app in Hl as [Hl|Hl].
    + destruct (Hcl l Hl) as (tw & Htw & Hc). rewrite Htw.
      eexists. split; [reflexivity|]. destruct (decide (l ∈ closed)); auto.
    + pose proof Hl as Hl2. apply Hmem in Hl2 as [Hin _].
      destruct (Hall l Hin) as [tw Htw]. rewrite Htw, decide_True by exact Hl.
      eexists. split; reflexivity.
Qed.

Lemma ProcessEvent_delivered a e w :
  agg_inv a w -> delivered_inv w ->
  exists w',
    ProcessEvent a e w = Ok tt w' /\ agg_inv a w' /\ delivered_inv w' /\
    clock w' = clock w.
Proof.
  intros Hinv [Hnd Hcl]. pose proof Hinv as (_ & _ & m & Hm & _).
  destruct (ProcessEvent_window a e w m Hinv Hm)
    as (l & tw & w' & Hrun & Hinv' & Hext & Hclk & _ & _ & _ & _ & _ & Hcase).
  exists w'. split; [exact Hrun|]. split; [exact Hinv'|]. split; [|exact Hclk].
  split; rewrite Hext; [exact Hnd|].
  intros x Hx. destruct (Hcl x Hx) as (tx & Htx & Hc).
  destruct Hcase as [(_ & _ & Hws) | (_ & Hnew & _ & _ & Hws & _)]; rewrite Hws.
  - eauto.
  - rewrite lookup_insert_ne by congruence. eauto.
Qed.

(** X14: However events and ticks interleave, no call panics, no window is
    handed to the callback twice, and every window handed over is closed. *)
Theorem windows_delivered_once (w0 : World) (wd fi : Duration)
    (calls : list agg_call) :
  heap_wf w0 -> external w0 = [] ->
  exists a w,
    (a0 <- NewAggregator wd fi ;;
     forEach calls (agg_do (SetWindowClosedCallback a0 recordWindow)) ;;;
     ret (SetWindowClosedCallback a0 recordWindow)) w0 = Ok a w /\
    NoDup (external w) /\
    forall l, l ∈ external w ->
      exists tw, windows w !! l = Some tw /\ Closed tw = true.
Proof.
  intros Hwf Hext.
  destruct (NewAggregator_spec wd fi w0 Hwf)
    as (a0 & w1 & R1 & I1 & _ & _ & _ & _ & _ & E1 & _).
  set (a := SetWindowClosedCallback a0 recordWindow).
  assert (Ia : agg_inv a w1) by exact I1.
  assert (D1 : delivered_inv w1).
  { split; rewrite E1, Hext; [constructor|]. intros l Hl. inversion Hl. }
  assert (Hloop : forall cs w, agg_inv a w -> delivered_inv w ->
            exists w', forEach cs (agg_do a) w = Ok tt w' /\ delivered_inv w').
  { induction cs as [|c cs IH]; intros w Hi Hd.
    - exists w. split; [reflexivity|exact Hd].
    - assert (Hstep : exists w2, agg_do a c w = Ok tt w2 /\ agg_inv a w2 /\
                        delivered_inv w2).
      { destruct c as [e|].
        - destruct (ProcessEvent_delivered a e w Hi Hd) as (w2 & R & I & D & _).
          eauto.
        - destruct (tick_spec a w Hi eq_refl Hd) as (w2 & R & I & D & _).
          eauto. }
      destruct Hstep as (w2 & R2 & I2 & D2).
      destruct (IH w2 I2 D2) as (w' & R' & D').
      exists w'. simpl. rewrite (bind_Ok _ _ _ _ _ R2). auto. }
  destruct (Hloop calls w1 Ia D1) as (w & R & [Hnd Hcl]).
  exists a, w. rewrite (bind_Ok _ _ _ _ _ R1). fold a.
  rewrite (bind_Ok _ _ _ _ _ R). split; [reflexivity|]. split; assumption.
Qed.

Lemma sublist_filter_eq (P : loc -> bool) : forall (ws cl : list loc),
  NoDup ws -> sublist cl ws ->
  (forall l, l ∈ cl <-> l ∈ ws /\ P l = true) ->
  cl = List.filter P ws.
Proof.
  induction ws as [|x ws IH]; intros cl Hnd Hsub Hmem.
  - apply sublist_nil_r in Hsub. subst cl. reflexivity.
  - apply NoDup_cons in Hnd as [Hx Hnd]. simpl.
    apply sublist_cons_r in Hsub as [Hsub | (cl' & -> & Hsub)].
    + assert (HP : P x = false).
      { destruct (P x) eqn:E; [|reflexivity]. exfalso. apply Hx.
        eapply elem_of_sublist; [|exact Hsub]. apply Hmem. split; [left|exact E]. }
      rewrite HP. apply IH; [exact Hnd|exact Hsub|].
      intros l. rewrite Hmem. split.
      * intros [Hl HPl]. apply elem_of_cons in Hl as [->|Hl]; [congruence|auto].
      * intros [Hl HPl]. split; [right; exact Hl|exact HPl].
    + assert (HP : P x = true) by (apply Hmem; left).
      rewrite HP. f_equal. apply IH; [exact Hnd|exact Hsub|].
      intros l. split.
      * intros Hl. split; [eapply elem_of_sublist; eauto|].
        apply Hmem. right. exact Hl.
      * intros [Hl HPl]. assert (Hin : l ∈ x :: cl') by (apply Hmem; split; [right|]; auto).
        apply elem_of_cons in Hin as [->|Hin]; [contradiction|exact Hin].
Qed.

(** X15: A tick after a sequence of events hands to the callback exactly the
    windows that end before the instant of the tick, in the order of their
    creation, and closes them. *)
Theorem tick_delivers_expired (w0 : World) (wd fi : Duration)
    (events : list Event) :
  heap_wf w0 -> external w0 = [] ->
  exists a w m w',
    (a0 <- NewAggregator wd fi ;;
     processAll (SetWindowClosedCallback a0 recordWindow) events ;;;
     ret (SetWindowClosedCallback a0 recordWindow)) w0 = Ok a w /\
    managers w !! windowManager a = Some m /\
    (flushExpiredWindows a ;;; cleanup a) w = Ok tt w' /\
    external w' = List.filter (expired w (clock w (reads w))) (Windows m) /\
    (forall l, l ∈ external w' <->
       l ∈ Windows m /\
       exists tw, windows w !! l = Some tw /\ EndTime tw < clock w (reads w)) /\
    (forall l tw, l ∈ external w' -> windows w !! l = Some tw ->
       windows w' !! l = Some (closed_copy tw)).
Proof.
  intros Hwf Hext.
  destruct (aggregate_window_inv wd fi events w0 Hwf)
    as (a0 & w & Hrun & Hinv & (m & Hm & Hd & Hnd & Hwin & _ & _) & E & _).
  set (a := SetWindowClosedCallback a0 recordWindow).
  apply bind_Ok_inv in Hrun as (a1 & w1 & Hnew & Hrun).
  apply bind_Ok_inv in Hrun as ([] & w2 & Hproc & Hret).
  inversion Hret; subst a1 w2. clear Hret.
  exists a, w, m.
  assert (Hrun' : (a0' <- NewAggregator wd fi ;;
                   processAll (SetWindowClosedCallback a0' recordWindow) events ;;;
                   ret (SetWindowClosedCallback a0' recordWindow)) w0 = Ok a w).
  { rewrite (bind_Ok _ _ _ _ _ Hnew).
    change (processAll (SetWindowClosedCallback a0 recordWindow) events)
      with (processAll a0 events).
    rewrite (bind_Ok _ _ _ _ _ Hproc). reflexivity. }
  assert (Ia : agg_inv a w) by exact Hinv.
  destruct Ia as (Hwf' & Hgm & m0 & Hm0 & Hal).
  change (windowManager a) with (windowManager a0) in *.
  rewrite Hm in Hm0. inversion Hm0; subst m0. clear Hm0.
  assert (Hall : allocated w (Windows m)).
  { intros l Hl. destruct (Hal l Hl) as (tw & Htw & _). eauto. }
  set (w00 := set_reads (S (reads w)) w).
  destruct (CloseExpiredWindows_spec (windowManager a0) m (clock w (reads w)) w00 Hm Hall)
    as (closed & wc & Hclose & Hfr & Hwinc & Hmem & Hndc & Hsub).
  assert (Hcl : closed = List.filter (expired w (clock w (reads w))) (Windows m)).
  { apply sublist_filter_eq; [exact Hnd|exact Hsub|exact Hmem]. }
  assert (Hflush : flushExpiredWindows a w =
                   Ok tt (set_external (external wc ++ closed) wc)).
  { unfold flushExpiredWindows.
    rewrite (bind_Ok _ _ _ _ _ (timeNow_Ok w)). fold w00.
    change (windowManager a) with (windowManager a0).
    rewrite (bind_Ok _ _ _ _ _ Hclose).
    destruct closed as [|c cs] eqn:Hc.
    - simpl. rewrite app_nil_r, set_external_same. reflexivity.
    - rewrite <- Hc in *. replace (0 <? length closed)%nat with true
        by (rewrite Hc; reflexivity).
      apply flush_record; [reflexivity|].
      intros l Hl. apply Hmem in Hl as [Hl _].
      destruct (Hal l Hl) as (tw & Htw & Hs & _).
      change (windows w00) with (windows w) in Hwinc.
      rewrite Hwinc, Htw. eexists. split; [reflexivity|].
      rewrite Hfr. simpl. destruct (decide (l ∈ closed)); exact Hs. }
  remember (set_external (external wc ++ closed) wc) as w3 eqn:Hw3.
  assert (Hm3 : managers w3 !! windowManager a0 = Some m).
  { rewrite Hw3. simpl. rewrite Hfr. exact Hm. }
  assert (Hwin3 : forall l, windows w3 !! l =
            match windows w !! l with
            | Some tw => Some (if decide (l ∈ closed) then closed_copy tw else tw)
            | None => None
            end) by (rewrite Hw3; exact Hwinc).
  assert (Hex3 : external w3 = closed).
  { rewrite Hw3. simpl. rewrite Hfr. simpl. rewrite E, Hext. reflexivity. }
  assert (Hall3 : allocated w3 (Windows m)).
  { intros l Hl. destruct (Hall l Hl) as [tw Htw]. rewrite Hwin3, Htw. eauto. }
  clear Hw3.
  eexists. split; [exact Hrun'|]. split; [exact Hm|].
  split.
  { unfold bind. rewrite Hflush. unfold cleanup.
    change (windowManager a) with (windowManager a0).
    rewrite (Cleanup_Ok _ _ _ _ Hm3 Hall3). reflexivity. }
  simpl. rewrite Hex3.
  split; [exact Hcl|].
  split.
  - intros l. rewrite Hmem. unfold expired, ShouldClose, After.
    change (windows w00) with (windows w).
    split.
    + intros [Hl He]. split; [exact Hl|].
      destruct (windows w !! l) as [tw|]; [|discriminate].
      exists tw. split; [reflexivity|].
      apply andb_true_iff in He as [_ He]. apply Z.ltb_lt in He. exact He.
    + intros [Hl (tw & Htw & He)]. split; [exact Hl|].
      destruct (Hwin l Hl) as (tw' & Htw' & Hc & _).
      rewrite Htw in Htw'. inversion Htw'; subst tw'.
      rewrite Htw, Hc. simpl. apply Z.ltb_lt. exact He.
  - intros l tw Hl Htw. rewrite Hwin3, Htw, decide_True by exact Hl. reflexivity.
Qed.

(** X16: [Reset] empties the global snapshot and replaces the window manager by
    an empty one: the windows that were open are left as they are, and no
    later tick hands them to the callback. *)
Theorem Reset_drops_windows (w0 : World) (wd fi : Duration)
    (cb : loc -> M unit) (events : list Event) :
  heap_wf w0 ->
  exists a w a' w1 w2,
    (a0 <- NewAggregator wd fi ;;
     processAll (SetWindowClosedCallback a0 cb) events ;;;
     ret (SetWindowClosedCallback a0 cb)) w0 = Ok a w /\
    Reset a w = Ok a' w1 /\
    globalMetrics a' = globalMetrics a /\
    (forall name, GetGlobalMetricValue a' name w1 = Ok (0%float, false) w1) /\
    Aggregator_GetActiveWindows a' w1 = Ok [] w1 /\
    windows w1 = windows w /\
    (flushExpiredWindows a' ;;; cleanup a') w1 = Ok tt w2 /\
    windows w2 = windows w /\ external w2 = external w.
Proof.
  intros Hwf.
  destruct (aggregate_spec wd fi events w0 Hwf) as (a0 & w & Hrun & Hinv & _).
  apply bind_Ok_inv in Hrun as (a1 & wn & Hnew & Hrun).
  apply bind_Ok_inv in Hrun as ([] & wp & Hproc & Hret).
  inversion Hret; subst a1 wp. clear Hret.
  set (a := SetWindowClosedCallback a0 cb).
  destruct Hinv as (Hwf' & [s Hs] & _).
  eexists a, w, _, _, _.
  split.
  { rewrite (bind_Ok _ _ _ _ _ Hnew).
    change (processAll (SetWindowClosedCallback a0 cb) events)
      with (processAll a0 events).
    rewrite (bind_Ok _ _ _ _ _ Hproc). reflexivity. }
  split.
  { unfold Reset, Reset_snapshot, bind, load_snapshot.
    change (globalMetrics a) with (globalMetrics a0). rewrite Hs. reflexivity. }
  split; [reflexivity|].
  split.
  { intros name. unfold GetGlobalMetricValue, GetMetricValue, bind, load_snapshot.
    cbn [globalMetrics snapshots set_snapshots set_managers set_reads].
    rewrite lookup_insert_eq. cbn [Metrics]. rewrite lookup_empty. reflexivity. }
  split.
  { unfold Aggregator_GetActiveWindows, GetActiveWindows, bind, load_manager.
    cbn [windowManager managers set_managers]. rewrite lookup_insert_eq.
    reflexivity. }
  split; [reflexivity|].
  split.
  { unfold flushExpiredWindows, cleanup, Cleanup, CloseExpiredWindows, bind,
      timeNow, load_manager.
    cbn [windowManager managers set_managers set_reads].
    rewrite lookup_insert_eq. cbn [Windows closeLoop ret length Nat.ltb Nat.leb].
    cbn [managers set_managers set_reads]. rewrite lookup_insert_eq.
    reflexivity. }
  split; reflexivity.
Qed.

(** ** The loop of [Start] and the statistics *)

Lemma startLoop_runs a : forall schedule w,
  agg_inv a w -> onWindowClosed a = Some recordWindow -> delivered_inv w ->
  exists r w',
    startLoop a schedule w = Ok r w' /\
    (r = Returned <-> CtxDone ∈ schedule) /\
    delivered_inv w'.
Proof.
  induction schedule as [|c rest IH]; intros w Hi Hcb Hd.
  - exists Waiting, w. split; [reflexivity|]. split; [|exact Hd].
    split; [discriminate|]. intros H. inversion H.
  - destruct c.
    + exists Returned, w. split; [reflexivity|]. split; [|exact Hd].
      split; [intros _; left|reflexivity].
    + destruct (tick_spec a w Hi Hcb Hd) as (w1 & R1 & I1 & D1 & _).
      apply bind_Ok_inv in R1 as ([] & wf & Rf & Rc).
      destruct (IH w1 I1 Hcb D1) as (r & w' & R & Hr & D').
      exists r, w'. simpl.
      rewrite (bind_Ok _ _ _ _ _ Rf), (bind_Ok _ _ _ _ _ Rc).
      split; [exact R|]. split; [|exact D'].
      rewrite Hr. split.
      * intros H. right. exact H.
      * intros H. apply elem_of_cons in H as [H|H]; [discriminate|exact H].
Qed.

(** X25: With a positive flush interval and a callback that only records,
    [Start] does not panic; it returns exactly when the context is
    cancelled, and a tick that precedes the cancellation hands no window
    over twice.  With an interval that is not positive it panics at once. *)
Theorem Start_stops_on_cancel (w0 : World) (wd fi : Duration)
    (events : list Event) (schedule : list select_case) :
  heap_wf w0 -> external w0 = [] ->
  exists a w,
    (a0 <- NewAggregator wd fi ;;
     processAll (SetWindowClosedCallback a0 recordWindow) events ;;;
     ret (SetWindowClosedCallback a0 recordWindow)) w0 = Ok a w /\
    (0 < fi ->
     exists r w',
       Start a schedule w = Ok r w' /\
       (r = Returned <-> CtxDone ∈ schedule) /\
       NoDup (external w')) /\
    (fi <= 0 -> Start a schedule w = Panic w).
Proof.
  intros Hwf Hext.
  destruct (NewAggregator_spec wd fi w0 Hwf)
    as (a0 & w1 & R1 & I1 & _ & _ & Hfi & _ & _ & E1 & _).
  destruct (processAll_spec a0 events w1 I1) as (w & R & I & _ & E & _).
  set (a := SetWindowClosedCallback a0 recordWindow).
  exists a, w. split.
  { rewrite (bind_Ok _ _ _ _ _ R1).
    change (processAll (SetWindowClosedCallback a0 recordWindow) events)
      with (processAll a0 events).
    rewrite (bind_Ok _ _ _ _ _ R). reflexivity. }
  split.
  - intros Hpos.
    assert (Hd : delivered_inv w).
    { split; rewrite E, E1, Hext; [constructor|]. intros l Hl. inversion Hl. }
    destruct (startLoop_runs a schedule w I eq_refl Hd) as (r & w' & Hr & Hiff & [Hnd _]).
    exists r, w'. unfold Start.
    change (flushInterval a) with (flushInterval a0). rewrite Hfi.
    destruct (Z.leb_spec fi 0); [lia|]. auto.
  - intros Hneg. unfold Start.
    change (flushInterval a) with (flushInterval a0). rewrite Hfi.
    destruct (Z.leb_spec fi 0); [reflexivity|lia].
Qed.

Lemma total_value_after events :
  Z.of_nat (length events) <= 2 ^ 53 ->
  Value <$> foldl (fun c e => absGlobal e c) ∅ events !! "total_events" =
    match events with
    | [] => None
    | _ => Some (float64_of_int64 (Z.of_nat (length events)))
    end.
Proof.
  induction events as [|e events IH] using rev_ind; intros Hlen.
  - simpl. rewrite lookup_empty. reflexivity.
  - rewrite length_app in Hlen. simpl in Hlen. specialize (IH ltac:(lia)).
    rewrite foldl_app. simpl. rewrite absGlobal_total.
    set (c := foldl _ ∅ events) in *.
    assert (Hv : Value (default (newm "total_events" MetricTypeCounter)
                          (c !! "total_events"))
                 = float64_of_int64 (Z.of_nat (length events))).
    { destruct (c !! "total_events") as [o|];
        cbn [fmap option_fmap option_map] in IH.
      - destruct events; [discriminate|]. cbn [default].
        injection IH as IH. exact IH.
      - destruct events; [reflexivity|discriminate]. }
    destruct (events ++ [e]) as [|x xs] eqn:Hx;
      [apply app_eq_nil in Hx as [_ Hx]; discriminate|].
    rewrite <- Hx. simpl. f_equal. rewrite Hv.
    rewrite !float64_of_int64_nonneg by lia.
    rewrite float_succ by lia. rewrite length_app. simpl.
    do 2 f_equal. lia.
Qed.

(** X26: After up to [2^53] events on a fresh aggregator, [GetStats] reports
    their number under [total_events], and under [active_windows] the
    number of distinct buckets they fall in. *)
Theorem stats_follow_events (w0 : World) (wd fi : Duration)
    (events : list Event) :
  heap_wf w0 -> events <> [] -> Z.of_nat (length events) <= 2 ^ 53 ->
  exists a w stats w',
    (a <- NewAggregator wd fi ;; processAll a events ;;; ret a) w0 = Ok a w /\
    GetStats a w = Ok stats w' /\
    stats !! "total_events" =
      Some (StatFloat64 (float64_of_int64 (Z.of_nat (length events)))) /\
    stats !! "active_windows" =
      Some (StatInt (Z.of_nat (length (remove_dups (bucket_start wd <$> events))))).
Proof.
  intros Hwf Hne Hlen.
  destruct (aggregate_window_inv wd fi events w0 Hwf)
    as (a & w & Hrun & Hinv & (m & Hm & Hd & Hnd & Hwin & Huniq & Hcov) & _).
  destruct (aggregate_spec wd fi events w0 Hwf) as (a' & w' & Hrun' & _ & Hc).
  rewrite Hrun in Hrun'. inversion Hrun'; subst a' w'. clear Hrun'.
  destruct (GetStats_Ok a w Hinv)
    as (stats & w1 & Hst & Htot & _ & _ & (m' & Hm' & Hact) & _).
  rewrite Hm in Hm'. inversion Hm'; subst m'. clear Hm'.
  exists a, w, stats, w1. split; [exact Hrun|]. split; [exact Hst|].
  split.
  - rewrite Htot. do 2 f_equal.
    pose proof (total_value_after events Hlen) as Hv.
    rewrite <- Hc, content_metric_of in Hv.
    destruct events as [|e0 rest]; [contradiction|].
    destruct (metric_of w (globalMetrics a) "total_events") as [o|];
      cbn [fmap option_fmap option_map erase Value] in Hv; [|discriminate].
    injection Hv as Hv. exact Hv.
  - rewrite Hact. do 3 f_equal.
    assert (Hopen : List.filter (open_window w) (Windows m) = Windows m).
    { clear - Hwin.
      induction (Windows m) as [|l ls IH]; [reflexivity|].
      simpl. destruct (Hwin l) as (tw & Htw & Hcl & _); [left|].
      unfold open_window at 1. rewrite Htw, Hcl. simpl. f_equal.
      apply IH. intros l' Hl'. apply Hwin. right. exact Hl'. }
    rewrite Hopen, <- (length_fmap (start_of w) (Windows m)).
    apply Permutation_length. apply NoDup_Permutation.
    + apply NoDup_fmap_2_strong; [|exact Hnd].
      intros l1 l2 H1 H2 E.
      destruct (Hwin l1 H1) as (tw1 & T1 & _), (Hwin l2 H2) as (tw2 & T2 & _).
      unfold start_of in E. rewrite T1, T2 in E.
      eapply Huniq; eauto.
    + apply NoDup_remove_dups.
    + intros x. rewrite elem_of_remove_dups, !list_elem_of_fmap. split.
      * intros (l & -> & Hl).
        destruct (Hwin l Hl) as (tw & Htw & _ & _ & Hb & _).
        destruct (bucket wd (StartTime tw) events) as [|e rest] eqn:Hbk; [congruence|].
        assert (He : e ∈ bucket wd (StartTime tw) events) by (rewrite Hbk; left).
        unfold bucket in He. apply list_elem_of_filter in He as [Hs He].
        exists e. split; [|exact He].
        unfold start_of, bucket_start. rewrite Htw. symmetry. exact Hs.
      * intros (e & -> & He).
        destruct (Hcov e He) as (l & tw & Hl & Htw & Hs).
        exists l. split; [|exact Hl].
        unfold start_of, bucket_start. rewrite Htw, Hs. reflexivity.
Qed.

(** ** Histograms and snapshots *)

(** X17: A histogram fresh from [NewMetric] keeps every observation, in order:
    after [Observe] of the values [vs], [Values] is [vs], [Count] is their
    number and [Value] their sum taken from left to right. *)
Theorem Observe_records (w : World) (name : string) (ty : MetricType)
    (vs : list float) :
  Z.of_nat (length vs) < 2 ^ 63 ->
  exists m o w',
    (m <- NewMetric name ty ;; forEach vs (Observe m) ;;; ret m) w = Ok m w' /\
    metrics w' !! m = Some o /\
    Values o = vs /\
    Count o = Z.of_nat (length vs) /\
    Value o = foldl PrimFloat.add 0%float vs /\
    Name o = name /\ Type_ o = ty /\ UniqueSet o = ∅.
Proof.
  intros Hlen.
  pose proof (NewMetric_Ok name ty w) as Hnew.
  set (m := fresh (dom (metrics w))) in *.
  set (w1 := set_metrics _ _) in Hnew.
  set (o0 := mkMetric name ty 0%float 0 (clock w (reads w)) ∅ [] ∅).
  destruct (forEach_update_metric observed m
              (fun pre o' =>
                 Z.of_nat (length pre) < 2 ^ 63 ->
                 Values o' = pre /\ Count o' = Z.of_nat (length pre) /\
                 Value o' = foldl PrimFloat.add 0%float pre /\
                 Name o' = name /\ Type_ o' = ty /\ UniqueSet o' = ∅))
    with (xs := vs) (pre := @nil float) (w := w1) (o := o0)
    as (w' & o' & Hrun & Hm' & HP & _).
  - intros pre x t o1 IH Hl. rewrite length_app in Hl. simpl in Hl.
    destruct IH as (H1 & H2 & H3 & H4 & H5 & H6); [lia|].
    unfold observed. cbn [Values Count Value Name Type_ UniqueSet].
    rewrite length_app, foldl_app. simpl.
    split; [rewrite H1; reflexivity|].
    split; [rewrite H2, int64_small by lia; lia|].
    split; [rewrite H3; reflexivity|]. auto.
  - subst w1. simpl. apply lookup_insert_eq.
  - intros _. repeat split.
  - exists m, o', w'.
    rewrite (bind_Ok _ _ _ _ _ Hnew).
    change (forEach vs (Observe m)) with (forEach vs (fun x => update_metric (observed x) m)).
    rewrite (bind_Ok _ _ _ _ _ Hrun).
    split; [reflexivity|]. split; [exact Hm'|]. apply HP. exact Hlen.
Qed.

(** X18: [Reset] on a snapshot detaches the metrics it held: afterwards every
    name is unknown to [GetMetricValue], [GetMetric] makes a new object
    under the old name, and the old object, still where it was, is no
    longer the one the snapshot reports. *)
Theorem Reset_snapshot_detaches (w : World) (s : loc) (ms : MetricsSnapshot)
    (name : string) (ty : MetricType) (old : loc) (o : Metric) :
  snapshots w !! s = Some ms -> Metrics ms !! name = Some old ->
  metrics w !! old = Some o ->
  exists w1 l w2,
    Reset_snapshot s w = Ok tt w1 /\
    GetAllMetrics s w1 = Ok ∅ w1 /\
    (forall n, GetMetricValue s n w1 = Ok (0%float, false) w1) /\
    GetMetric s name ty w1 = Ok l w2 /\
    l <> old /\
    metrics w2 !! old = Some o /\
    metric_of w2 s name =
      Some (mkMetric name ty 0%float 0 (clock w (S (reads w))) ∅ [] ∅).
Proof.
  intros Hs Hn Ho.
  eexists _, (fresh (dom (metrics w))), _.
  split.
  { unfold Reset_snapshot, bind, load_snapshot. rewrite Hs. reflexivity. }
  split.
  { unfold GetAllMetrics, bind, load_snapshot.
    cbn [snapshots set_snapshots set_reads]. rewrite lookup_insert_eq. reflexivity. }
  split.
  { intros n. unfold GetMetricValue, bind, load_snapshot.
    cbn [snapshots set_snapshots set_reads]. rewrite lookup_insert_eq.
    cbn [Metrics]. rewrite lookup_empty. reflexivity. }
  split.
  { unfold GetMetric. unfold bind at 1. unfold load_snapshot.
    cbn [snapshots set_snapshots set_reads]. rewrite lookup_insert_eq.
    cbn [Metrics]. rewrite lookup_empty. reflexivity. }
  assert (Hne : fresh (dom (metrics w)) <> old).
  { intros E. pose proof (fresh_metric_None w) as Hf. rewrite E in Hf. congruence. }
  split; [exact Hne|].
  split.
  { cbn. rewrite lookup_insert_ne by exact Hne. exact Ho. }
  unfold metric_of. cbn. rewrite !lookup_insert_eq. cbn.
  rewrite lookup_insert_eq. cbn. rewrite lookup_insert_eq. reflexivity.
Qed.

(** X19: Asking a snapshot for a metric makes it exist: after [GetMetric],
    [GetMetricValue] finds the name, with the value the metric had, or 0
    when the call created it. *)
Theorem GetMetric_then_GetMetricValue (w : World) (s : loc)
    (ms : MetricsSnapshot) (name : string) (ty : MetricType) :
  heap_wf w -> snapshots w !! s = Some ms ->
  exists l w' v,
    GetMetric s name ty w = Ok l w' /\
    GetMetricValue s name w' = Ok (v, true) w' /\
    v = match metric_of w s name with Some o => Value o | None => 0%float end /\
    (forall n, n <> name ->
       GetMetricValue s n w' =
         Ok (match metric_of w s n with
             | Some o => (Value o, true)
             | None => (0%float, false)
             end) w').
Proof.
  intros Hwf Hs.
  destruct (GetMetric_spec w s ms name ty Hwf Hs)
    as (l & w' & ms' & Hrun & Hwf' & Hs' & Hl & _ & Hcon & _).
  assert (Hlook : forall n, erase <$> metric_of w' s n =
             touch name ty id (content w s) !! n).
  { intros n. rewrite <- content_metric_of, Hcon. reflexivity. }
  pose proof (Hlook name) as Hn. unfold touch in Hn. rewrite lookup_insert_eq in Hn.
  rewrite content_metric_of in Hn.
  destruct (metric_of w' s name) as [o'|] eqn:Ho'; [|discriminate].
  exists l, w', (Value o'). split; [exact Hrun|].
  rewrite (GetMetricValue_Ok _ _ _ name Hwf' Hs'), Ho'.
  split; [reflexivity|]. split.
  - change (Some (erase o') =
            Some (id (default (newm name ty) (erase <$> metric_of w s name)))) in Hn.
    apply (inj Some) in Hn. pose proof (f_equal Value Hn) as He. unfold id in He.
    destruct (metric_of w s name) as [o|]; exact He.
  - intros n Hne. rewrite (GetMetricValue_Ok _ _ _ n Hwf' Hs').
    pose proof (Hlook n) as Hn'. unfold touch in Hn'.
    rewrite lookup_insert_ne in Hn' by congruence.
    rewrite content_metric_of in Hn'.
    destruct (metric_of w' s n) as [o1|], (metric_of w s n) as [o2|];
      try discriminate; [|reflexivity].
    change (Some (erase o1) = Some (erase o2)) in Hn'.
    apply (inj Some) in Hn'. pose proof (f_equal Value Hn') as He.
    simpl in He. rewrite He. reflexivity.
Qed.

(** ** The ingress handlers and the queue *)

Section Ingress.
Import Server.

Lemma batchStep_enqueues cap clk now i e st :
  let st' := batchStep cap clk now i e st in
  (emptyType e = true /\ queue st' = queue st /\ accepted st' = accepted st) \/
  (emptyType e = false /\ (cap <= length (queue st))%nat /\
     queue st' = queue st /\ accepted st' = accepted st) \/
  (emptyType e = false /\ (length (queue st) < cap)%nat /\
     accepted st' = accepted st + 1 /\
     exists e', queue st' = queue st ++ [e'] /\ enqueued_as now e' e).
Proof.
  unfold batchStep, emptyType.
  set (e1 := if IsZero (Timestamp e) then _ else e).
  assert (He1 : Type_ e1 = Type_ e /\ UserID e1 = UserID e /\
                SessionID e1 = SessionID e /\ Properties e1 = Properties e /\
                ID e1 = ID e /\
                Timestamp e1 = (if IsZero (Timestamp e) then now else Timestamp e)).
  { subst e1. destruct (IsZero (Timestamp e)); repeat split. }
  destruct He1 as (A1 & A2 & A3 & A4 & A5 & A6).
  set (gen := "evt_" +:+ _).
  set (p := if String.eqb (ID e1) "" then _ else _).
  assert (Hp : enqueued_as now (fst p) e).
  { subst p. destruct (String.eqb_spec (ID e1) "") as [E|E]; cbn [fst].
    - unfold enqueued_as. cbn [Type_ UserID SessionID Properties ID Timestamp].
      split; [exact A1|]. split; [exact A2|]. split; [exact A3|].
      split; [exact A4|]. split; [subst gen; discriminate|].
      split; [intros Hid; congruence|exact A6].
    - unfold enqueued_as. split; [exact A1|]. split; [exact A2|].
      split; [exact A3|]. split; [exact A4|]. split; [exact E|].
      split; [intros _; exact A5|exact A6]. }
  clearbody gen p. destruct p as [e2 r]. cbn [fst] in Hp.
  assert (Ht : Type_ e2 = Type_ e) by (destruct Hp as [H _]; exact H).
  rewrite Ht.
  destruct (String.eqb (Type_ e) "") eqn:Hty.
  { left. cbn [queue accepted]. repeat split. }
  right.
  destruct (Nat.ltb_spec (length (queue st)) cap) as [Hlt|Hge].
  - right. cbn [queue accepted]. split; [reflexivity|]. split; [exact Hlt|].
    split; [reflexivity|]. exists e2. split; [reflexivity|exact Hp].
  - left. cbn [queue accepted]. repeat split. exact Hge.
Qed.

Lemma batchLoop_exact cap clk now events : forall i st,
  let st' := batchLoop cap clk now i events st in
  exists sent,
    queue st' = queue st ++ sent /\
    accepted st' = accepted st + Z.of_nat (length sent) /\
    Forall2 (enqueued_as now) sent
      (take (cap - length (queue st)) (typed events)).
Proof.
  induction events as [|e rest IH]; intros i st; simpl.
  - exists []. rewrite app_nil_r, take_nil. simpl.
    split; [reflexivity|]. split; [lia|constructor].
  - destruct (IH (S i) (batchStep cap clk now i e st)) as (sent & Hq & Ha & Hf).
    destruct (batchStep_enqueues cap clk now i e st)
      as [(He & Hq1 & Ha1) | [(He & Hfull & Hq1 & Ha1)
                             | (He & Hroom & Ha1 & e' & Hq1 & Hk)]].
    + exists sent. rewrite Hq, Ha, Hq1, Ha1. unfold typed in *. simpl.
      rewrite He. simpl. rewrite Hq1 in Hf. auto.
    + exists sent. rewrite Hq, Ha, Hq1, Ha1. rewrite Hq1 in Hf.
      replace (cap - length (queue st))%nat with 0%nat in * by lia.
      rewrite take_0 in *. auto.
    + exists (e' :: sent). rewrite Hq, Ha, Hq1, Ha1, <- app_assoc. simpl.
      split; [reflexivity|]. split; [lia|].
      unfold typed in *. simpl. rewrite He. simpl.
      rewrite Hq1, length_app in Hf. simpl in Hf.
      replace (cap - length (queue st))%nat
        with (S (cap - (length (queue st) + 1)))%nat by lia.
      simpl. constructor; assumption.
Qed.

Lemma typed_all events :
  Forall (fun e => Type_ e <> ""%string) events -> typed events = events.
Proof.
  unfold typed, emptyType. induction 1 as [|e rest He _ IH]; [reflexivity|].
  simpl. apply String.eqb_neq in He. rewrite He. simpl. f_equal. exact IH.
Qed.

(** X20: With no consumer taking from the queue meanwhile, a batch of
    admissible size whose items all carry a type (the bind refuses any
    other) puts in the queue the first items for which there is room, in
    the order of the batch, each with its defaults filled in; [accepted]
    is their number, the smaller of the length of the batch and the room
    left, and [rejected] counts the others. *)
Theorem batch_accepts_while_room (s : Server) (clk : nat -> Time)
    (invalid : list Event -> string) (events : list Event) :
  (1 <= length events <= 1000)%nat ->
  Forall (fun e => Type_ e <> ""%string) events ->
  exists msg acc rej sent,
    fst (handleBatchEvents s clk invalid (inr events)) =
      mkResponse StatusAccepted
        (SuccessResponse "accepted" msg
           (<["total" := Z.of_nat (length events)]>
           (<["accepted" := acc]> (<["rejected" := rej]> ∅)))) /\
    eventQueue (snd (handleBatchEvents s clk invalid (inr events)))
      = eventQueue s ++ sent /\
    acc = Z.of_nat (length sent) /\
    rej = Z.of_nat (length events) - Z.of_nat (length sent) /\
    length sent =
      Nat.min (length events) (capacity s - length (eventQueue s)) /\
    Forall2 (enqueued_as (clk 0%nat)) sent
      (take (capacity s - length (eventQueue s)) events).
Proof.
  intros Hlen Hty. unfold handleBatchEvents.
  rewrite (ShouldBindJSON_typed invalid events Hty).
  destruct (Nat.eqb_spec (length events) 0); [lia|].
  destruct (Nat.ltb_spec 1000 (length events)); [lia|].
  cbn [fst snd eventQueue].
  destruct (batchLoop_exact (capacity s) clk (clk 0%nat) events 0
              (mkLoop (eventQueue s) 0 0 1)) as (sent & Hq & Ha & Hf).
  destruct (batchLoop_spec (capacity s) clk (clk 0%nat) events 0
              (mkLoop (eventQueue s) 0 0 1)) as (sent' & Hq' & _ & Hr & _).
  cbn [queue accepted rejected] in Hq, Ha, Hf, Hq', Hr.
  assert (sent' = sent) by (rewrite Hq in Hq'; apply app_inv_head in Hq'; congruence).
  subst sent'. rewrite (typed_all events Hty) in Hf.
  eexists _, _, _, sent. split; [reflexivity|].
  split; [exact Hq|]. split; [rewrite Ha; lia|].
  split; [rewrite Hr; lia|].
  split; [|exact Hf].
  apply Forall2_length in Hf. rewrite Hf, length_take. apply Nat.min_comm.
Qed.

Lemma handleEvent_cases (s : Server) (clk : nat -> Time)
    (bound : string + Event) :
  let r := fst (handleEvent s clk bound) in
  let s' := snd (handleEvent s clk bound) in
  capacity s' = capacity s /\ aggregator s' = aggregator s /\
  match bound with
  | inl _ => status_of r = 400 /\ s' = s
  | inr e =>
      if (length (eventQueue s) <? capacity s)%nat
      then status_of r = 202 /\
           exists e', eventQueue s' = eventQueue s ++ [e'] /\
                      enqueued_as (clk 0%nat) e' e
      else status_of r = 503 /\ s' = s
  end.
Proof.
  unfold handleEvent. destruct bound as [err|e]; [repeat split|].
  set (p := if IsZero (Timestamp e) then _ else _).
  assert (Hp : Type_ (fst p) = Type_ e /\ UserID (fst p) = UserID e /\
               SessionID (fst p) = SessionID e /\
               Properties (fst p) = Properties e /\ ID (fst p) = ID e /\
               Timestamp (fst p) =
                 (if IsZero (Timestamp e) then clk 0%nat else Timestamp e)).
  { subst p. destruct (IsZero (Timestamp e)); repeat split. }
  destruct p as [e1 reads]. cbn [fst] in Hp.
  destruct Hp as (A1 & A2 & A3 & A4 & A5 & A6).
  set (gen := "evt_" +:+ _).
  set (e2 := if String.eqb (ID e1) "" then _ else e1).
  assert (He2 : enqueued_as (clk 0%nat) e2 e).
  { subst e2. destruct (String.eqb_spec (ID e1) "") as [E|E].
    - unfold enqueued_as. cbn [Type_ UserID SessionID Properties ID Timestamp].
      split; [exact A1|]. split; [exact A2|]. split; [exact A3|].
      split; [exact A4|]. split; [subst gen; discriminate|].
      split; [intros Hid; congruence|exact A6].
    - unfold enqueued_as. split; [exact A1|]. split; [exact A2|].
      split; [exact A3|]. split; [exact A4|]. split; [exact E|].
      split; [intros _; exact A5|exact A6]. }
  clearbody gen e2.
  destruct (length (eventQueue s) <? capacity s)%nat; cbn [fst snd].
  - split; [reflexivity|]. split; [reflexivity|]. split; [reflexivity|].
    exists e2. split; [reflexivity|exact He2].
  - repeat split.
Qed.

(** X21: [handleEvent] answers 202 exactly when the event was decoded and the
    queue has room, and then appends that one event, defaults filled in;
    a decoding error is answered 400 and a full queue 503, and both leave
    the queue as it was. *)
Theorem handleEvent_outcomes (s : Server) (clk : nat -> Time)
    (bound : string + Event) :
  let r := fst (handleEvent s clk bound) in
  let s' := snd (handleEvent s clk bound) in
  capacity s' = capacity s /\ aggregator s' = aggregator s /\
  match bound with
  | inl _ => status_of r = 400 /\ s' = s
  | inr e =>
      if (length (eventQueue s) <? capacity s)%nat
      then status_of r = 202 /\
           exists e', eventQueue s' = eventQueue s ++ [e'] /\
                      enqueued_as (clk 0%nat) e' e
      else status_of r = 503 /\ s' = s
  end.
Proof. apply handleEvent_cases. Qed.

(** X22: Whatever requests the two ingress handlers serve, the queue never
    holds more than its capacity, and what was queued stays queued, in
    front and in order. *)
Theorem queue_stays_bounded (s : Server) (requests : list request) :
  (length (eventQueue s) <= capacity s)%nat ->
  let s' := foldl serve s requests in
  (length (eventQueue s') <= capacity s')%nat /\
  capacity s' = capacity s /\ aggregator s' = aggregator s /\
  eventQueue s `prefix_of` eventQueue s'.
Proof.
  revert s. induction requests as [|r rs IH]; intros s Hb; simpl.
  - repeat split; auto.
  - assert (Hstep : (length (eventQueue (serve s r)) <= capacity (serve s r))%nat /\
                    capacity (serve s r) = capacity s /\
                    aggregator (serve s r) = aggregator s /\
                    eventQueue s `prefix_of` eventQueue (serve s r)).
    { destruct r as [clk bound|clk invalid decoded]; unfold serve.
      - pose proof (handleEvent_cases s clk bound) as H. cbn zeta in H.
        destruct H as (Hc & Ha & H).
        split; [|split; [exact Hc|split; [exact Ha|]]].
        + rewrite Hc. destruct bound as [err|e].
          * destruct H as [_ ->]. exact Hb.
          * destruct (Nat.ltb_spec (length (eventQueue s)) (capacity s)).
            -- destruct H as (_ & e' & -> & _). rewrite length_app. simpl. lia.
            -- destruct H as [_ ->]. exact Hb.
        + destruct bound as [err|e].
          * destruct H as [_ ->]. reflexivity.
          * destruct (length (eventQueue s) <? capacity s)%nat.
            -- destruct H as (_ & e' & -> & _). apply prefix_app_r. reflexivity.
            -- destruct H as [_ ->]. reflexivity.
      - unfold handleBatchEvents.
        destruct (ShouldBindJSON invalid decoded) as [err|events];
          [repeat split; auto|].
        destruct (length events =? 0)%nat; [repeat split; auto|].
        destruct (1000 <? length events)%nat; [repeat split; auto|].
        cbn [snd eventQueue capacity aggregator].
        destruct (batchLoop_exact (capacity s) clk (clk 0%nat) events 0
                    (mkLoop (eventQueue s) 0 0 1)) as (sent & Hq & _ & Hf).
        cbn [queue] in Hq, Hf. rewrite Hq.
        apply Forall2_length in Hf. rewrite length_take in Hf.
        split; [rewrite length_app; lia|].
        split; [reflexivity|]. split; [reflexivity|].
        apply prefix_app_r. reflexivity. }
    destruct Hstep as (H1 & H2 & H3 & H4).
    destruct (IH (serve s r) H1) as (I1 & I2 & I3 & I4).
    split; [exact I1|]. split; [congruence|]. split; [congruence|].
    etransitivity; eassumption.
Qed.

End Ingress.

(** ** The read handlers *)

Lemma GetGlobalMetrics_Ok a w s :
  snapshots w !! globalMetrics a = Some s ->
  GetGlobalMetrics a w = Ok (Metrics s) w.
Proof.
  intros Hs. unfold GetGlobalMetrics, GetAllMetrics, bind, load_snapshot.
  rewrite Hs. reflexivity.
Qed.

(** X23: The metric endpoints on an aggregator that has processed [events]:
    a name is answered 404 exactly when the global snapshot has no metric
    of that name, and 200 with the fields of the metric otherwise; the
    list of all metrics is answered 200, with the text for the empty case
    exactly when no event was processed; without an aggregator both are
    answered 500. *)
Theorem metric_queries (w0 : World) (wd fi : Duration) (events : list Event)
    (q : list Server.Event) (cap : nat) (name : string) :
  heap_wf w0 ->
  exists a w r all,
    (a <- NewAggregator wd fi ;; processAll a events ;;; ret a) w0 = Ok a w /\
    ServerQueries.handleGetMetricByName (Server.mkServer q cap (Some a)) name w
      = Ok r w /\
    (Server.status_of r = 404 <-> metric_of w (globalMetrics a) name = None) /\
    (forall o, metric_of w (globalMetrics a) name = Some o ->
       r = Server.ReplySuccess 200 "success" ("metric '" +:+ name +:+ "' found")
             (Server.H
                (<["name" := Server.JString (Name o)]>
                (<["type" := Server.JString (Type_ o)]>
                (<["value" := Server.JFloat64 (Value o)]>
                (<["count" := Server.JInt64 (Count o)]>
                (<["timestamp" := Server.JTime (Timestamp o)]> ∅))))))) /\
    ServerQueries.handleGetAllMetrics (Server.mkServer q cap (Some a)) w
      = Ok all w /\
    Server.status_of all = 200 /\
    (events = [] <->
     all = Server.ReplySuccess 200 "success" "no metrics yet"
             (Server.H (<["metrics" := Server.JStrings []]> ∅))) /\
    ServerQueries.handleGetMetricByName (Server.mkServer q cap None) name w
      = Ok (Server.ReplyError 500 "aggregator not initialized") w /\
    ServerQueries.handleGetAllMetrics (Server.mkServer q cap None) w
      = Ok (Server.ReplyError 500 "aggregator not initialized") w.
Proof.
  intros Hwf.
  destruct (aggregate_spec wd fi events w0 Hwf)
    as (a & w & Hrun & (Hwf' & [s Hs] & _) & Hc).
  pose proof Hwf' as [HA _].
  assert (Hby : exists r,
            ServerQueries.handleGetMetricByName (Server.mkServer q cap (Some a)) name w
              = Ok r w /\
            (Server.status_of r = 404 <-> metric_of w (globalMetrics a) name = None) /\
            (forall o, metric_of w (globalMetrics a) name = Some o ->
               r = Server.ReplySuccess 200 "success" ("metric '" +:+ name +:+ "' found")
                     (Server.H
                        (<["name" := Server.JString (Name o)]>
                        (<["type" := Server.JString (Type_ o)]>
                        (<["value" := Server.JFloat64 (Value o)]>
                        (<["count" := Server.JInt64 (Count o)]>
                        (<["timestamp" := Server.JTime (Timestamp o)]> ∅)))))))).
  { unfold ServerQueries.handleGetMetricByName. cbn [Server.aggregator].
    rewrite (bind_Ok _ _ _ _ _ (GetGlobalMetrics_Ok a w s Hs)).
    unfold metric_of. rewrite Hs.
    destruct (Metrics s !! name) as [l|] eqn:Hl.
    - destruct (HA _ _ _ _ Hs Hl) as [o Ho].
      unfold bind, load_metric. rewrite Ho.
      eexists. split; [reflexivity|]. split.
      + split; [intros H; discriminate H|intros H; discriminate H].
      + intros o' Ho'. inversion Ho'; subst o'. reflexivity.
    - eexists. split; [reflexivity|]. split.
      + split; reflexivity.
      + intros o Ho. discriminate Ho. }
  destruct Hby as (r & Hr & Hr1 & Hr2).
  assert (Hsize : events = [] <-> size (Metrics s) = 0%nat).
  { split.
    - intros ->. simpl in Hc.
      apply map_size_empty_iff. apply map_eq. intros n. rewrite lookup_empty.
      destruct (Metrics s !! n) as [l|] eqn:Hl; [|reflexivity].
      destruct (HA _ _ _ _ Hs Hl) as [o Ho].
      pose proof (content_lookup w _ _ n Hs) as Hcl.
      rewrite Hc, Hl, Ho, lookup_empty in Hcl. discriminate Hcl.
    - intros Hz. apply map_size_empty_iff in Hz.
      destruct events as [|e0 rest] using rev_ind; [reflexivity|]. exfalso.
      rewrite foldl_app in Hc. simpl in Hc.
      pose proof (content_lookup w _ _ "total_events" Hs) as Hcl.
      rewrite Hc, absGlobal_total, Hz, lookup_empty in Hcl. discriminate Hcl. }
  assert (Hall : exists all,
            ServerQueries.handleGetAllMetrics (Server.mkServer q cap (Some a)) w
              = Ok all w /\
            Server.status_of all = 200 /\
            (events = [] <->
             all = Server.ReplySuccess 200 "success" "no metrics yet"
                     (Server.H (<["metrics" := Server.JStrings []]> ∅)))).
  { unfold ServerQueries.handleGetAllMetrics. cbn [Server.aggregator].
    rewrite (bind_Ok _ _ _ _ _ (GetGlobalMetrics_Ok a w s Hs)).
    destruct (Nat.eqb_spec (size (Metrics s)) 0) as [Hz|Hz].
    - eexists. split; [reflexivity|]. split; [reflexivity|].
      split; [reflexivity|]. intros _. apply Hsize. exact Hz.
    - eexists. split; [reflexivity|]. split; [reflexivity|].
      split; [intros E; apply Hsize in E; contradiction|].
      intros E. exfalso. inversion E. }
  destruct Hall as (all & Ha & Ha1 & Ha2).
  exists a, w, r, all. split; [exact Hrun|]. split; [exact Hr|].
  split; [exact Hr1|]. split; [exact Hr2|]. split; [exact Ha|].
  split; [exact Ha1|]. split; [exact Ha2|]. split; reflexivity.
Qed.

(** ** Configuration *)

Section Validation.
Import Config.

Lemma validLevels_spec (l : string) :
  default false (validLevels !! l) = true <->
  l ∈ ["debug"; "info"; "warn"; "error"]%string.
Proof.
  unfold validLevels.
  destruct (decide (l = "debug"%string)) as [->|H1]; [split; [intros _; set_solver|reflexivity]|].
  rewrite lookup_insert_ne by congruence.
  destruct (decide (l = "info"%string)) as [->|H2]; [split; [intros _; set_solver|reflexivity]|].
  rewrite lookup_insert_ne by congruence.
  destruct (decide (l = "warn"%string)) as [->|H3]; [split; [intros _; set_solver|reflexivity]|].
  rewrite lookup_insert_ne by congruence.
  destruct (decide (l = "error"%string)) as [->|H4]; [split; [intros _; set_solver|reflexivity]|].
  rewrite lookup_insert_ne by congruence. rewrite lookup_empty. simpl.
  split; [discriminate|]. intros H. exfalso. set_solver.
Qed.

(** X24: [validate] accepts a configuration exactly when the port is between 1
    and 65535, there is at least one worker, the buffer holds at least 100
    events, the database name and the user are not empty, and the log
    level is one of debug, info, warn and error. *)
Theorem validate_accepts (c : Config) :
  validate c = None <->
  1 <= Port (Server c) <= 65535 /\
  1 <= WorkerCount (Processing c) /\
  100 <= BufferSize (Processing c) /\
  Database (Postgres (Storage c)) <> ""%string /\
  User (Postgres (Storage c)) <> ""%string /\
  Level (Logging c) ∈ ["debug"; "info"; "warn"; "error"]%string.
Proof.
  unfold validate.
  destruct (Z.leb_spec (Port (Server c)) 0) as [P1|P1];
    [cbn [orb]; split; [discriminate|lia]|].
  destruct (Z.ltb_spec 65535 (Port (Server c))) as [P2|P2];
    [cbn [orb]; split; [discriminate|lia]|].
  cbn [orb].
  destruct (Z.leb_spec (WorkerCount (Processing c)) 0) as [P3|P3];
    [split; [discriminate|lia]|].
  destruct (Z.ltb_spec (BufferSize (Processing c)) 100) as [P4|P4];
    [split; [discriminate|lia]|].
  destruct (String.eqb_spec (Database (Postgres (Storage c))) "") as [P5|P5];
    [split; [discriminate|tauto]|].
  destruct (String.eqb_spec (User (Postgres (Storage c))) "") as [P6|P6];
    [split; [discriminate|tauto]|].
  pose proof (validLevels_spec (Level (Logging c))) as HL.
  destruct (default false (validLevels !! Level (Logging c))); cbn [negb].
  - split; [intros _|reflexivity].
    repeat split; try lia; try assumption. apply HL. reflexivity.
  - split; [discriminate|]. intros (_ & _ & _ & _ & _ & H).
    apply HL in H. discriminate H.
Qed.

End Validation.

(** ** The worker *)

Lemma reported_app l1 l2 : reported (l1 ++ l2) = reported l1 + reported l2.
Proof.
  unfold reported. rewrite fmap_app. unfold sumZ.
  induction (reported_by <$> l1) as [|x xs IH]; simpl; lia.
Qed.

Lemma mentioned_app l1 l2 : mentioned (l1 ++ l2) = mentioned l1 ++ mentioned l2.
Proof. unfold mentioned. apply omap_app. Qed.

Lemma worker_loop_spec id : forall schedule p logger,
  0 <= p -> p + Z.of_nat (length (received schedule)) < 2 ^ 63 ->
  let r := fst (Worker.loop id schedule p logger) in
  let out := snd (Worker.loop id schedule p logger) in
  (r = Returned <-> Worker.CtxDone ∈ schedule) /\
  mentioned out = mentioned logger ++ (Server.ID <$> received schedule) /\
  (r = Returned ->
   reported out = reported logger + p + Z.of_nat (length (received schedule))) /\
  (forall wid n rate, Worker.WorkerStats wid n rate ∈ out ->
     Worker.WorkerStats wid n rate ∈ logger \/ 0 < n).
Proof.
  induction schedule as [|c rest IH]; intros p logger Hp Hlen; cbn zeta.
  - simpl. split; [split; [discriminate|intros H; inversion H]|].
    split; [rewrite app_nil_r; reflexivity|]. split; [discriminate|auto].
  - destruct c as [|e|].
    + simpl. split; [split; [intros _; left|reflexivity]|].
      split; [rewrite mentioned_app, !app_nil_r; reflexivity|].
      split.
      * intros _. rewrite reported_app. unfold reported at 2. simpl. lia.
      * intros wid n rate H. apply elem_of_app in H as [H|H]; [left; exact H|].
        apply list_elem_of_singleton in H. discriminate H.
    + cbn [Worker.loop received length] in *.
      rewrite Nat2Z.inj_succ in Hlen.
      rewrite int64_small by lia.
      specialize (IH (p + 1) (logger ++ [Worker.ProcessingEvent id (Server.ID e)
                        (Server.Type_ e) (Server.UserID e) (Server.Timestamp e)])
                    ltac:(lia) ltac:(lia)).
      cbn zeta in IH. destruct IH as (I1 & I2 & I3 & I4).
      split.
      { rewrite I1. split; [intros H; right; exact H|].
        intros H. apply elem_of_cons in H as [H|H]; [discriminate|exact H]. }
      split.
      { rewrite I2, mentioned_app, <- app_assoc. reflexivity. }
      split.
      { intros Hr. rewrite (I3 Hr), reported_app. unfold reported at 2. simpl. lia. }
      intros wid n rate H. destruct (I4 wid n rate H) as [H'|H']; [|right; exact H'].
      apply elem_of_app in H' as [H'|H']; [left; exact H'|].
      apply list_elem_of_singleton in H'. discriminate H'.
    + cbn [Worker.loop received] in *.
      destruct (Z.ltb_spec 0 p) as [Hpos|Hz].
      * specialize (IH 0 (logger ++ [Worker.WorkerStats id p
                        (PrimFloat.div (float64_of_int64 p) 10%float)])
                      ltac:(lia) ltac:(lia)).
        cbn zeta in IH. destruct IH as (I1 & I2 & I3 & I4).
        split.
        { rewrite I1. split; [intros H; right; exact H|].
          intros H. apply elem_of_cons in H as [H|H]; [discriminate|exact H]. }
        split.
        { rewrite I2, mentioned_app, app_nil_r. reflexivity. }
        split.
        { intros Hr. rewrite (I3 Hr), reported_app. unfold reported at 2. simpl. lia. }
        intros wid n rate H. destruct (I4 wid n rate H) as [H'|H']; [|right; exact H'].
        apply elem_of_app in H' as [H'|H']; [left; exact H'|].
        apply list_elem_of_singleton in H'. inversion H'; subst. right. exact Hpos.
      * assert (p = 0) by lia. subst p.
        specialize (IH 0 logger ltac:(lia) ltac:(lia)).
        cbn zeta in IH. destruct IH as (I1 & I2 & I3 & I4).
        split.
        { rewrite I1. split; [intros H; right; exact H|].
          intros H. apply elem_of_cons in H as [H|H]; [discriminate|exact H]. }
        split; [exact I2|]. split; [exact I3|exact I4].
Qed.

(** X27: A worker returns exactly when its context is cancelled; until then
    it logs each event it receives once, in order, and the counts of its
    statistics lines, none of them zero, add up with the count of its
    last line to the number of events received. *)
Theorem worker_accounts_for_events (workerID : Z)
    (schedule : list Worker.select_case) :
  Z.of_nat (length (received schedule)) < 2 ^ 63 ->
  let r := fst (Worker.processEvents workerID schedule) in
  let out := snd (Worker.processEvents workerID schedule) in
  (r = Returned <-> Worker.CtxDone ∈ schedule) /\
  mentioned out = Server.ID <$> received schedule /\
  (r = Returned -> reported out = Z.of_nat (length (received schedule))) /\
  (forall wid n rate, Worker.WorkerStats wid n rate ∈ out -> 0 < n).
Proof.
  intros Hlen. unfold Worker.processEvents.
  destruct (worker_loop_spec workerID schedule 0 [Worker.WorkerStarted workerID])
    as (H1 & H2 & H3 & H4); [lia|lia|].
  cbn zeta in *. split; [exact H1|]. split; [exact H2|].
  split.
  - intros Hr. rewrite (H3 Hr). unfold reported. simpl. lia.
  - intros wid n rate H. destruct (H4 wid n rate H) as [H'|H']; [|exact H'].
    apply list_elem_of_singleton in H'. discriminate H'.
Qed.

Lemma worker_accounts_for_events_witness :
  let schedule := [Worker.Receive (Server.mkEvent "a" "click" 5 "u" "" ∅);
                   Worker.TickerC;
                   Worker.Receive (Server.mkEvent "b" "view" 6 "u" "" ∅);
                   Worker.CtxDone;
                   Worker.Receive (Server.mkEvent "c" "view" 7 "u" "" ∅)] in
  let r := fst (Worker.processEvents 1 schedule) in
  let out := snd (Worker.processEvents 1 schedule) in
  (r = Returned <-> Worker.CtxDone ∈ schedule) /\
  mentioned out = Server.ID <$> received schedule /\
  (r = Returned -> reported out = Z.of_nat (length (received schedule))) /\
  (forall wid n rate, Worker.WorkerStats wid n rate ∈ out -> 0 < n).
Proof.
  apply (worker_accounts_for_events 1).
  simpl. lia.
Defined.

(** ** The properties above, on examples *)

Ltac empty_heap :=
  split;
  [ intros s ms n l H; simpl in H; rewrite lookup_empty in H; discriminate
  | intros s1 ms1 n1 s2 ms2 n2 l H; simpl in H; rewrite lookup_empty in H;
    discriminate ].

Lemma kind_counters_witness :
  exists a w,
    (a <- NewAggregator Minute (5 * Second) ;; processAll a sampleEvents ;;; ret a)
      (emptyWorld lateClock) = Ok a w /\
    count_of w (globalMetrics a) "pageviews" = occurrences "pageview" sampleEvents /\
    count_of w (globalMetrics a) "clicks" = occurrences "click" sampleEvents /\
    count_of w (globalMetrics a) "purchases" = occurrences "purchase" sampleEvents.
Proof.
  apply (kind_counters (emptyWorld lateClock) Minute (5 * Second) sampleEvents).
  - empty_heap.
  - simpl. lia.
Defined.

Lemma revenue_follows_purchases_witness :
  exists a w,
    (a <- NewAggregator Minute (5 * Second) ;; processAll a sampleEvents ;;; ret a)
      (emptyWorld lateClock) = Ok a w /\
    (amounts sampleEvents = [] ->
     metric_of w (globalMetrics a) "revenue" = None /\
     metric_of w (globalMetrics a) "revenue_histogram" = None) /\
    (amounts sampleEvents <> [] ->
     exists r h,
       metric_of w (globalMetrics a) "revenue" = Some r /\
       metric_of w (globalMetrics a) "revenue_histogram" = Some h /\
       Values h = amounts sampleEvents /\
       Count h = Z.of_nat (length (amounts sampleEvents)) /\
       Count r = Z.of_nat (length (amounts sampleEvents)) /\
       Value r = foldl PrimFloat.add 0%float (amounts sampleEvents) /\
       Value h = Value r).
Proof.
  apply (revenue_follows_purchases (emptyWorld lateClock) Minute (5 * Second)
           sampleEvents).
  - empty_heap.
  - simpl. lia.
Defined.

Lemma processing_never_panics_witness :
  exists a w stats w',
    (a <- NewAggregator Minute (5 * Second) ;; processAll a sampleEvents ;;; ret a)
      (emptyWorld lateClock) = Ok a w /\
    external w = external (emptyWorld lateClock) /\
    GetStats a w = Ok stats w' /\
    dom stats = list_to_set ["total_events"; "unique_users"; "unique_sessions";
                             "active_windows"; "metrics_count"; "uptime"]%string.
Proof.
  apply (processing_never_panics (emptyWorld lateClock) Minute (5 * Second)
           sampleEvents).
  empty_heap.
Defined.

Lemma one_window_per_bucket_witness :
  exists a w m,
    (a <- NewAggregator Minute (5 * Second) ;; processAll a sampleEvents ;;; ret a)
      (emptyWorld lateClock) = Ok a w /\
    managers w !! windowManager a = Some m /\
    NoDup (Windows m) /\
    Aggregator_GetActiveWindows a w = Ok (Windows m) w /\
    (forall e, e ∈ sampleEvents ->
       exists l tw, l ∈ Windows m /\ windows w !! l = Some tw /\
         Closed tw = false /\
         StartTime tw = Truncate (ev_Timestamp e) Minute /\
         EndTime tw = Add (StartTime tw) Minute) /\
    (forall l, l ∈ Windows m ->
       exists tw e, windows w !! l = Some tw /\ e ∈ sampleEvents /\
         StartTime tw = Truncate (ev_Timestamp e) Minute) /\
    (forall l1 l2 tw1 tw2,
       l1 ∈ Windows m -> l2 ∈ Windows m ->
       windows w !! l1 = Some tw1 -> windows w !! l2 = Some tw2 ->
       StartTime tw1 = StartTime tw2 -> l1 = l2).
Proof.
  apply (one_window_per_bucket (emptyWorld lateClock) Minute (5 * Second)
           sampleEvents).
  empty_heap.
Defined.

Lemma window_metrics_count_bucket_witness :
  exists a w m,
    (a <- NewAggregator Minute (5 * Second) ;; processAll a sampleEvents ;;; ret a)
      (emptyWorld lateClock) = Ok a w /\
    managers w !! windowManager a = Some m /\
    forall l, l ∈ Windows m ->
      exists tw users,
        windows w !! l = Some tw /\
        let inside := bucket Minute (StartTime tw) sampleEvents in
        count_of w (tw_Metrics tw) "events" = Z.of_nat (length inside) /\
        (forall t, count_of w (tw_Metrics tw) ("events:" +:+ t)
                   = occurrences t inside) /\
        metric_of w (tw_Metrics tw) "active_users" = Some users /\
        UniqueSet users = list_to_set (userIDs inside) /\
        Count users = Z.of_nat (size (UniqueSet users)).
Proof.
  apply (window_metrics_count_bucket (emptyWorld lateClock) Minute (5 * Second)
           sampleEvents).
  - empty_heap.
  - simpl. lia.
Defined.

Lemma windows_delivered_once_witness :
  exists a w,
    (a0 <- NewAggregator Minute (5 * Second) ;;
     forEach [CallProcessEvent (sampleEvent (90 * Second)); CallTick;
              CallProcessEvent (sampleEvent (100 * Second)); CallTick]
       (agg_do (SetWindowClosedCallback a0 recordWindow)) ;;;
     ret (SetWindowClosedCallback a0 recordWindow)) (emptyWorld lateClock)
      = Ok a w /\
    NoDup (external w) /\
    forall l, l ∈ external w ->
      exists tw, windows w !! l = Some tw /\ Closed tw = true.
Proof.
  apply (windows_delivered_once (emptyWorld lateClock) Minute (5 * Second)).
  - empty_heap.
  - reflexivity.
Defined.

Lemma tick_delivers_expired_witness :
  exists a w m w',
    (a0 <- NewAggregator Minute (5 * Second) ;;
     processAll (SetWindowClosedCallback a0 recordWindow) sampleEvents ;;;
     ret (SetWindowClosedCallback a0 recordWindow)) (emptyWorld lateClock)
      = Ok a w /\
    managers w !! windowManager a = Some m /\
    (flushExpiredWindows a ;;; cleanup a) w = Ok tt w' /\
    external w' = List.filter (expired w (clock w (reads w))) (Windows m) /\
    (forall l, l ∈ external w' <->
       l ∈ Windows m /\
       exists tw, windows w !! l = Some tw /\ EndTime tw < clock w (reads w)) /\
    (forall l tw, l ∈ external w' -> windows w !! l = Some tw ->
       windows w' !! l = Some (closed_copy tw)).
Proof.
  apply (tick_delivers_expired (emptyWorld lateClock) Minute (5 * Second)
           sampleEvents).
  - empty_heap.
  - reflexivity.
Defined.

Lemma Reset_drops_windows_witness :
  exists a w a' w1 w2,
    (a0 <- NewAggregator Minute (5 * Second) ;;
     processAll (SetWindowClosedCallback a0 recordWindow) sampleEvents ;;;
     ret (SetWindowClosedCallback a0 recordWindow)) (emptyWorld lateClock)
      = Ok a w /\
    Reset a w = Ok a' w1 /\
    globalMetrics a' = globalMetrics a /\
    (forall name, GetGlobalMetricValue a' name w1 = Ok (0%float, false) w1) /\
    Aggregator_GetActiveWindows a' w1 = Ok [] w1 /\
    windows w1 = windows w /\
    (flushExpiredWindows a' ;;; cleanup a') w1 = Ok tt w2 /\
    windows w2 = windows w /\ external w2 = external w.
Proof.
  apply (Reset_drops_windows (emptyWorld lateClock) Minute (5 * Second)
           recordWindow sampleEvents).
  empty_heap.
Defined.

Lemma Start_stops_on_cancel_witness :
  exists a w,
    (a0 <- NewAggregator Minute (5 * Second) ;;
     processAll (SetWindowClosedCallback a0 recordWindow) sampleEvents ;;;
     ret (SetWindowClosedCallback a0 recordWindow)) (emptyWorld lateClock)
      = Ok a w /\
    (0 < 5 * Second ->
     exists r w',
       Start a [TickerC; TickerC; CtxDone; TickerC] w = Ok r w' /\
       (r = Returned <-> CtxDone ∈ [TickerC; TickerC; CtxDone; TickerC]) /\
       NoDup (external w')) /\
    (5 * Second <= 0 ->
     Start a [TickerC; TickerC; CtxDone; TickerC] w = Panic w).
Proof.
  apply (Start_stops_on_cancel (emptyWorld lateClock) Minute (5 * Second)
           sampleEvents [TickerC; TickerC; CtxDone; TickerC]).
  - empty_heap.
  - reflexivity.
Defined.

Lemma stats_follow_events_witness :
  exists a w stats w',
    (a <- NewAggregator Minute (5 * Second) ;; processAll a sampleEvents ;;; ret a)
      (emptyWorld lateClock) = Ok a w /\
    GetStats a w = Ok stats w' /\
    stats !! "total_events" =
      Some (StatFloat64 (float64_of_int64 (Z.of_nat (length sampleEvents)))) /\
    stats !! "active_windows" =
      Some (StatInt (Z.of_nat (length (remove_dups
                                         (bucket_start Minute <$> sampleEvents))))).
Proof.
  apply (stats_follow_events (emptyWorld lateClock) Minute (5 * Second)
           sampleEvents).
  - empty_heap.
  - discriminate.
  - simpl. lia.
Defined.

Lemma metric_queries_witness :
  exists a w r all,
    (a <- NewAggregator Minute (5 * Second) ;; processAll a sampleEvents ;;; ret a)
      (emptyWorld lateClock) = Ok a w /\
    ServerQueries.handleGetMetricByName (Server.mkServer [] 100 (Some a))
      "pageviews" w = Ok r w /\
    (Server.status_of r = 404 <->
     metric_of w (globalMetrics a) "pageviews" = None) /\
    (forall o, metric_of w (globalMetrics a) "pageviews" = Some o ->
       r = Server.ReplySuccess 200 "success"
             ("metric '" +:+ "pageviews" +:+ "' found")
             (Server.H
                (<["name" := Server.JString (Name o)]>
                (<["type" := Server.JString (Type_ o)]>
                (<["value" := Server.JFloat64 (Value o)]>
                (<["count" := Server.JInt64 (Count o)]>
                (<["timestamp" := Server.JTime (Timestamp o)]> ∅))))))) /\
    ServerQueries.handleGetAllMetrics (Server.mkServer [] 100 (Some a)) w
      = Ok all w /\
    Server.status_of all = 200 /\
    (sampleEvents = [] <->
     all = Server.ReplySuccess 200 "success" "no metrics yet"
             (Server.H (<["metrics" := Server.JStrings []]> ∅))) /\
    ServerQueries.handleGetMetricByName (Server.mkServer [] 100 None)
      "pageviews" w
      = Ok (Server.ReplyError 500 "aggregator not initialized") w /\
    ServerQueries.handleGetAllMetrics (Server.mkServer [] 100 None) w
      = Ok (Server.ReplyError 500 "aggregator not initialized") w.
Proof.
  apply (metric_queries (emptyWorld lateClock) Minute (5 * Second) sampleEvents
           [] 100 "pageviews").
  empty_heap.
Defined.

Lemma Observe_records_witness :
  exists m o w',
    (m <- NewMetric "latency" MetricTypeHistogram ;;
     forEach [1.5%float; 2.5%float] (Observe m) ;;; ret m)
      (emptyWorld lateClock) = Ok m w' /\
    metrics w' !! m = Some o /\
    Values o = [1.5%float; 2.5%float] /\
    Count o = Z.of_nat (length [1.5%float; 2.5%float]) /\
    Value o = foldl PrimFloat.add 0%float [1.5%float; 2.5%float] /\
    Name o = "latency"%string /\ Type_ o = MetricTypeHistogram /\
    UniqueSet o = ∅.
Proof.
  apply (Observe_records (emptyWorld lateClock) "latency" MetricTypeHistogram
           [1.5%float; 2.5%float]).
  simpl. lia.
Defined.

Lemma Reset_snapshot_detaches_witness :
  exists w1 l w2,
    Reset_snapshot 0%nat hitsWorld = Ok tt w1 /\
    GetAllMetrics 0%nat w1 = Ok ∅ w1 /\
    (forall n, GetMetricValue 0%nat n w1 = Ok (0%float, false) w1) /\
    GetMetric 0%nat "hits" MetricTypeCounter w1 = Ok l w2 /\
    l <> 0%nat /\
    metrics w2 !! 0%nat =
      Some (mkMetric "hits" MetricTypeCounter 3%float 3 0 ∅ [] ∅) /\
    metric_of w2 0%nat "hits" =
      Some (mkMetric "hits" MetricTypeCounter 0%float 0
              (clock hitsWorld (S (reads hitsWorld))) ∅ [] ∅).
Proof.
  apply (Reset_snapshot_detaches hitsWorld 0%nat
           (mkMetricsSnapshot (<["hits"%string := 0%nat]> ∅) 0)
           "hits" MetricTypeCounter 0%nat).
  - reflexivity.
  - reflexivity.
  - reflexivity.
Defined.

Lemma GetMetric_then_GetMetricValue_witness :
  exists l w' v,
    GetMetric 0%nat "hits" MetricTypeCounter snapshotWorld = Ok l w' /\
    GetMetricValue 0%nat "hits" w' = Ok (v, true) w' /\
    v = match metric_of snapshotWorld 0%nat "hits" with
        | Some o => Value o
        | None => 0%float
        end /\
    (forall n, n <> "hits"%string ->
       GetMetricValue 0%nat n w' =
         Ok (match metric_of snapshotWorld 0%nat n with
             | Some o => (Value o, true)
             | None => (0%float, false)
             end) w').
Proof.
  apply (GetMetric_then_GetMetricValue snapshotWorld 0%nat
           (mkMetricsSnapshot ∅ 0) "hits" MetricTypeCounter).
  - split.
    + intros s ms n l H1 H2.
      unfold snapshotWorld in H1. cbn [snapshots] in H1.
      apply lookup_insert_Some in H1 as [[_ <-]|[_ H1]].
      * simpl in H2. rewrite lookup_empty in H2. discriminate.
      * rewrite lookup_empty in H1. discriminate.
    + intros s1 ms1 n1 s2 ms2 n2 l H1 H2.
      unfold snapshotWorld in H1. cbn [snapshots] in H1.
      apply lookup_insert_Some in H1 as [[_ <-]|[_ H1]].
      * simpl in H2. rewrite lookup_empty in H2. discriminate.
      * rewrite lookup_empty in H1. discriminate.
  - reflexivity.
Defined.

Lemma batch_accepts_while_room_witness :
  exists msg acc rej sent,
    fst (Server.handleBatchEvents (Server.mkServer [] 1 None) (fun _ => 7)
           (fun _ => "required"%string) (inr typedBatch)) =
      Server.mkResponse Server.StatusAccepted
        (Server.SuccessResponse "accepted" msg
           (<["total" := Z.of_nat (length typedBatch)]>
           (<["accepted" := acc]> (<["rejected" := rej]> ∅)))) /\
    Server.eventQueue
      (snd (Server.handleBatchEvents (Server.mkServer [] 1 None) (fun _ => 7)
              (fun _ => "required"%string) (inr typedBatch)))
      = Server.eventQueue (Server.mkServer [] 1 None) ++ sent /\
    acc = Z.of_nat (length sent) /\
    rej = Z.of_nat (length typedBatch) - Z.of_nat (length sent) /\
    length sent =
      Nat.min (length typedBatch)
        (Server.capacity (Server.mkServer [] 1 None)
         - length (Server.eventQueue (Server.mkServer [] 1 None))) /\
    Forall2 (enqueued_as 7) sent
      (take (Server.capacity (Server.mkServer [] 1 None)
             - length (Server.eventQueue (Server.mkServer [] 1 None)))
         typedBatch).
Proof.
  apply (batch_accepts_while_room (Server.mkServer [] 1 None) (fun _ => 7)
           (fun _ => "required"%string) typedBatch).
  - simpl. lia.
  - repeat constructor; discriminate.
Defined.

Lemma queue_stays_bounded_witness :
  let s := Server.mkServer [] 2 None in
  let s' := foldl Server.serve s
              [Server.PostEvent (fun _ => 7)
                 (inr (Server.mkEvent "" "view" 0 "u" "" ∅));
               Server.PostBatch (fun _ => 8) (fun _ => "required"%string)
                 (inr typedBatch);
               Server.PostEvent (fun _ => 9) (inl "EOF"%string)] in
  (length (Server.eventQueue s') <= Server.capacity s')%nat /\
  Server.capacity s' = Server.capacity s /\
  Server.aggregator s' = Server.aggregator s /\
  Server.eventQueue s `prefix_of` Server.eventQueue s'.
Proof.
  apply (queue_stays_bounded (Server.mkServer [] 2 None)).
  simpl. lia.
Defined.
